(** * Ascoltatori: AMQP and Redis-cluster adapters

    A shallow embedding of the AMQP adapter (AMQPAscoltatore) and of
    [lib/redis_cluster_ascoltatore.js].  Methods that mutate [this] and call
    into the broker client are functions in a small state-and-exception monad
    that also records, in program order, every call made to an external
    collaborator (broker client, event observers, [util.defer], console).

    JavaScript strings are [string], objects used as dictionaries are [gmap],
    [undefined] fields are [None]. *)

From Stdlib Require Import String Ascii List Bool Arith ZArith Lia.
From stdpp Require Import gmap strings list fin_maps.

(** ** JavaScript values, exceptions and the method monad *)

Module Js.

(** A delivery target or completion callback, identified by a tag. *)
Definition Callback := nat.

(** Message payloads.  A number is kept as its IEEE-754 binary64 bit
    pattern, a Buffer as its bytes. *)
Inductive Value :=
| Undefined
| Null
| Bool (b : bool)
| Number (bits : Z)
| Str (s : string)
| Buffer (bytes : list Byte.byte).

(** The conversions of the host runtime that the adapters rely on but do
    not define. *)
Record Runtime := {
  Number_toString : Z -> string;
  Buffer_toString : list Byte.byte -> string
}.

(** [String(v)]. *)
Definition String_ (rt : Runtime) (v : Value) : string :=
  match v with
  | Undefined => "undefined"
  | Null => "null"
  | Bool true => "true"
  | Bool false => "false"
  | Number bits => Number_toString rt bits
  | Str s => s
  | Buffer bytes => Buffer_toString rt bytes
  end.

Inductive Error :=
| ClosedError                 (* new Error("This ascoltatore is closed") *)
| MalformedPattern
| TypeError (what : string).  (* member access on undefined, bad listener *)

Inductive Res (A : Type) :=
| Ok (a : A)
| Throw (e : Error).
Arguments Ok {A} a.
Arguments Throw {A} e.

(** A method body: it reads and updates the receiver [S], logs calls [E],
    and either returns or throws.  State changes and calls made before a
    throw are kept, as in JavaScript. *)
Definition M (S E A : Type) : Type := S -> Res A * S * list E.

Definition ret {S E A} (a : A) : M S E A := fun s => (Ok a, s, []).

Definition bind {S E A B} (m : M S E A) (k : A -> M S E B) : M S E B :=
  fun s =>
    match m s with
    | (Ok a, s1, l1) =>
        match k a s1 with
        | (r, s2, l2) => (r, s2, l1 ++ l2)
        end
    | (Throw e, s1, l1) => (Throw e, s1, l1)
    end.

Definition throw {S E A} (e : Error) : M S E A := fun s => (Throw e, s, []).
Definition get {S E} : M S E S := fun s => (Ok s, s, []).
Definition modify {S E} (f : S -> S) : M S E unit := fun s => (Ok tt, f s, []).
Definition call {S E} (c : E) : M S E unit := fun s => (Ok tt, s, [c]).

(** Runs a method of a sub-object stored in a field of the receiver. *)
Definition zoom {S T E A} (proj : S -> T) (upd : T -> S -> S)
    (m : M T E A) : M S E A :=
  fun s =>
    match m (proj s) with
    | (r, t, l) => (r, upd t s, l)
    end.

(** A runtime to run examples with; its two conversions are stand-ins. *)
Definition example_runtime : Runtime :=
  {| Number_toString := fun _ => "0";
     Buffer_toString := string_of_list_byte |}.

Definition result {S E A} (x : Res A * S * list E) : Res A := x.1.1.
Definition state {S E A} (x : Res A * S * list E) : S := x.1.2.
Definition calls {S E A} (x : Res A * S * list E) : list E := x.2.

(** [if (c) body] with no else branch. *)
Definition when {S E} (c : bool) (body : M S E unit) : M S E unit :=
  if c then body else ret tt.

(** Runs [f] on each element in order, stopping at the first throw. *)
Fixpoint for_each {S E A} (f : A -> M S E unit) (l : list A) : M S E unit :=
  match l with
  | [] => ret tt
  | a :: l' => bind (f a) (fun _ => for_each f l')
  end.

End Js.

Notation "x <-- c ;; k" := (Js.bind c (fun x => k))
  (at level 100, c at next level, right associativity).
Notation "c ;;; k" := (Js.bind c (fun _ => k))
  (at level 100, right associativity).

(** ** String helpers mirroring the JavaScript built-ins used *)

Module Str.

(** [s.split(sep)] for a one-character separator. *)
Fixpoint split (sep : ascii) (s : string) : list string :=
  match s with
  | EmptyString => [EmptyString]
  | String c s' =>
      if Ascii.eqb c sep then EmptyString :: split sep s'
      else match split sep s' with
           | seg :: rest => String c seg :: rest
           | [] => [String c EmptyString]
           end
  end.

(** [segs.join(sep)]. *)
Fixpoint join (sep : ascii) (segs : list string) : string :=
  match segs with
  | [] => EmptyString
  | [seg] => seg
  | seg :: rest => seg +:+ String sep (join sep rest)
  end.

(** [s.indexOf(search, from)]: a position beyond the end is clamped. *)
Definition indexOf (s search : string) (from : nat) : option nat :=
  String.index (Nat.min from (String.length s)) search s.

(** [s.indexOf(search) >= 0]. *)
Definition includes (s search : string) : bool :=
  match indexOf s search 0 with Some _ => true | None => false end.

Definition has_char (c : ascii) (s : string) : bool :=
  existsb (Ascii.eqb c) (list_ascii_of_string s).

Fixpoint last_char (s : string) : option ascii :=
  match s with
  | EmptyString => None
  | String c EmptyString => Some c
  | String _ s' => last_char s'
  end.

(** [suffix] ends [s]. *)
Fixpoint ends_with (suffix s : string) : bool :=
  String.eqb suffix s
  || match s with
     | EmptyString => false
     | String _ s' => ends_with suffix s'
     end.

(** [s.replace(new RegExp('/$'), '')] generalised to a character. *)
Fixpoint strip_trailing (c : ascii) (s : string) : string :=
  match s with
  | EmptyString => EmptyString
  | String a EmptyString => if Ascii.eqb a c then EmptyString else s
  | String a s' => String a (strip_trailing c s')
  end.

End Str.

(** ** Topic syntax and translation *)

Module Topic.

(** The three symbols a transport (or the canonical form) declares, as in
    the settings objects [{separator, wildcardOne, wildcardSome}]. *)
Record Syntax := {
  separator : ascii;
  wildcardOne : string;
  wildcardSome : string
}.

(** Modelled from the spec: [parse(raw, separator)] of the Topic Model
    (lib/abstract_ascoltatore.js is not among the sources). *)
Definition parse (raw : string) (sep : ascii) : list string :=
  Str.split sep raw.

(** Modelled from the spec: [format(segments, separator)]. *)
Definition format (segments : list string) (sep : ascii) : string :=
  Str.join sep segments.

(** Modelled from the spec: one segment is substituted between the symbols
    of [from] and those of [to]; the single-level wildcard is looked at
    first, then the multi-level one, any other segment is a literal. *)
Definition substitute (from to : Syntax) (seg : string) : string :=
  if String.eqb seg (wildcardOne from) then wildcardOne to
  else if String.eqb seg (wildcardSome from) then wildcardSome to
  else seg.

(** Modelled from the spec: [translateOut(canonicalTopic, transportConfig)],
    segment by segment. *)
Definition translateOut (canonical native : Syntax) (t : string) : string :=
  format (map (substitute canonical native) (parse t (separator canonical)))
         (separator native).

(** Modelled from the spec: [translateIn(transportTopic, transportConfig)],
    segment by segment. *)
Definition translateIn (canonical native : Syntax) (t : string) : string :=
  format (map (substitute native canonical) (parse t (separator native)))
         (separator canonical).

(** A character the transport gives a meaning to: its separator or a
    character of one of its wildcard symbols. *)
Definition reserved (native : Syntax) (c : ascii) : bool :=
  Ascii.eqb c (separator native)
  || Str.has_char c (wildcardOne native)
  || Str.has_char c (wildcardSome native).

Definition has_reserved (native : Syntax) (t : string) : bool :=
  existsb (reserved native) (list_ascii_of_string t).

(** The segments on which out-then-in substitution is the identity and
    which stay one segment in the transport's syntax. *)
Definition segment_ok (canonical native : Syntax) (seg : string) : bool :=
  if String.eqb seg (wildcardOne canonical) then true
  else if String.eqb seg (wildcardSome canonical)
       then negb (String.eqb (wildcardSome native) (wildcardOne native))
  else negb (String.eqb seg (wildcardOne native))
       && negb (String.eqb seg (wildcardSome native))
       && negb (Str.has_char (separator native) seg).

Definition translatable (canonical native : Syntax) (t : string) : bool :=
  forallb (segment_ok canonical native) (parse t (separator canonical)).

(** A transport syntax whose wildcard symbols do not contain its own
    separator. *)
Definition well_formed (syn : Syntax) : bool :=
  negb (Str.has_char (separator syn) (wildcardOne syn))
  && negb (Str.has_char (separator syn) (wildcardSome syn)).

(** Modelled from the spec: a pattern is malformed when it is empty or has
    the multi-level wildcard anywhere but last. *)
Fixpoint multi_only_last (syn : Syntax) (segs : list string) : bool :=
  match segs with
  | [] => true
  | [_] => true
  | seg :: rest =>
      negb (String.eqb seg (wildcardSome syn)) && multi_only_last syn rest
  end.

Definition valid_pattern (syn : Syntax) (p : string) : bool :=
  negb (String.eqb p EmptyString)
  && multi_only_last syn (parse p (separator syn)).

(** The MQTT-style canonical symbols used by the examples of the spec
    ([sensors/+/temp], [a/#]). *)
Definition mqtt : Syntax :=
  {| separator := "/"; wildcardOne := "+"; wildcardSome := "#" |}.

End Topic.

(** ** Reference counter *)

Module SubsCounter.

(** Modelled from the spec: the Reference Counter (lib/subs_counter.js is
    not among the sources).  A pattern maps to the number of logical
    subscriptions registered for it; an entry that drops to zero is
    removed. *)
Abbreviation t := (gmap string nat).

(** Modelled from the spec: the count of a pattern, zero when it has no
    entry. *)
Definition count (c : t) (pattern : string) : nat :=
  default 0 (c !! pattern).

(** Modelled from the spec: [include(pattern)], true iff the count is
    positive. *)
Definition include (c : t) (pattern : string) : bool :=
  0 <? count c pattern.

(** Modelled from the spec: [add(pattern)] increments the count. *)
Definition add (pattern : string) (c : t) : t :=
  <[pattern := S (count c pattern)]> c.

(** Modelled from the spec: what [add] reports, true exactly when the
    previous count was zero. *)
Definition isFirst (pattern : string) (c : t) : bool :=
  count c pattern =? 0.

(** Modelled from the spec: [remove(pattern)] decrements the count; a
    pattern that is not present is left alone; the entry is removed on the
    transition to zero. *)
Definition remove (pattern : string) (c : t) : t :=
  match count c pattern with
  | 0 => c
  | 1 => delete pattern c
  | S n => <[pattern := n]> c
  end.

(** Modelled from the spec: what [remove] reports, true exactly when the
    new count is zero. *)
Definition isLast (pattern : string) (c : t) : bool :=
  count c pattern =? 1.

(** Modelled from the spec: [clear()] drops all entries. *)
Definition clear (c : t) : t := ∅.

Definition new : t := ∅.

End SubsCounter.

(** ** Calls to external collaborators *)

Module Ext.

(** An [Error] object. *)
Record ErrorObject := { message : string }.

(** What a connection reports with its ["error"] event: a bare string or
    an [Error]. *)
Inductive Cause :=
| StringCause (s : string)
| ErrorCause (e : ErrorObject).

(** The calls the adapters make, in the order they make them. *)
Inductive Call :=
(* node-amqp *)
| amqp_createConnection
| conn_exchange
| conn_queue
| queue_setMaxListeners
| queue_subscribe
| queue_once (event : string) (done : option Js.Callback)
| queue_bind (routingKey : string)
| queue_unbind (routingKey : string)
| queue_destroy
| conn_end
| conn_publish (queue : string) (message : Js.Value)
    (headers : list (string * option string)) (expiration : string)
| exchange_publish (routingKey : string) (message : string)
    (expiration : string)
(* redis-node-cluster *)
| rc_new
| rc_psubscribe (key : string) (done : option Js.Callback)
| rc_subscribe (key : string) (done : option Js.Callback)
| rc_punsubscribe (key : string) (done : option Js.Callback)
| rc_unsubscribe (key : string) (done : option Js.Callback)
| rc_publish (key : string) (message : Js.Value) (done : option Js.Callback)
| rc_disconnect (done : option Js.Callback)
(* util, event observers, console, local fan-out *)
| defer (done : option Js.Callback)
| defer_continuation
| invoke (done : option Js.Callback)
| emit (event : string) (error : option ErrorObject)
| console_log (message : Js.Value)
| trie_publish (owner : option string) (topic : string) (message : Js.Value)
| trie_close (owner : string).   (* close() of a local ascoltatore *)

Definition is_transport_subscribe (c : Call) : bool :=
  match c with
  | queue_bind _ | rc_psubscribe _ _ | rc_subscribe _ _ => true
  | _ => false
  end.

Definition is_transport_unsubscribe (c : Call) : bool :=
  match c with
  | queue_unbind _ | rc_punsubscribe _ _ | rc_unsubscribe _ _ => true
  | _ => false
  end.

(** Calls that reach the broker client. *)
Definition is_transport (c : Call) : bool :=
  match c with
  | defer _ | defer_continuation | invoke _ | emit _ _ | console_log _
  | trie_publish _ _ _ | trie_close _ => false
  | _ => true
  end.

(** Calls that start tearing the broker connection down. *)
Definition is_shutdown (c : Call) : bool :=
  match c with
  | queue_destroy | conn_end | rc_disconnect _ => true
  | _ => false
  end.

(** The payload a call hands to the transport's publish, if it is one. *)
Definition published_payload (c : Call) : option Js.Value :=
  match c with
  | conn_publish _ message _ _ => Some message
  | exchange_publish _ message _ => Some (Js.Str message)
  | rc_publish _ message _ => Some message
  | _ => None
  end.

End Ext.

(** ** Local subscription index *)

Module TrieAscoltatore.

(** Modelled from the spec: the Router Core's local index
    (lib/trie_ascoltatore.js is not among the sources), kept as the list of
    live subscriptions (pattern, delivery target) in the order they were
    registered; matching is not needed by the adapters' own code and is
    left out. *)
Record t := {
  syntax : Topic.Syntax;
  subscriptions : list (string * Js.Callback);
  domain : option nat;
  closed : bool
}.

Definition new (opts : Topic.Syntax) : t :=
  {| syntax := opts; subscriptions := []; domain := None; closed := false |}.

Definition with_subscriptions (l : list (string * Js.Callback)) (a : t) : t :=
  {| syntax := syntax a; subscriptions := l;
     domain := domain a; closed := closed a |}.

Fixpoint remove_first (topic : string) (callback : Js.Callback)
    (l : list (string * Js.Callback)) : list (string * Js.Callback) :=
  match l with
  | [] => []
  | (p, cb) :: l' =>
      if String.eqb p topic && Nat.eqb cb callback then l'
      else (p, cb) :: remove_first topic callback l'
  end.

(** Modelled from the spec: rejects when closed, rejects a malformed
    pattern without indexing it, otherwise registers the subscription. *)
Definition subscribe (topic : string) (callback : Js.Callback)
    : Js.M t Ext.Call unit :=
  a <-- Js.get ;;
  if closed a then Js.throw Js.ClosedError
  else if negb (Topic.valid_pattern (syntax a) topic)
  then Js.throw Js.MalformedPattern
  else Js.modify (with_subscriptions (subscriptions a ++ [(topic, callback)])).

(** Modelled from the spec: rejects when closed, otherwise removes the
    matching subscription if there is one. *)
Definition unsubscribe (topic : string) (callback : Js.Callback)
    : Js.M t Ext.Call unit :=
  a <-- Js.get ;;
  if closed a then Js.throw Js.ClosedError
  else Js.modify (with_subscriptions
                    (remove_first topic callback (subscriptions a))).

(** Modelled from the spec: all subscriptions are dropped at close. *)
Definition close (a : t) : t :=
  {| syntax := syntax a; subscriptions := [];
     domain := domain a; closed := true |}.

Definition registerDomain (d : nat) (a : t) : t :=
  {| syntax := syntax a; subscriptions := subscriptions a;
     domain := Some d; closed := closed a |}.

End TrieAscoltatore.

(** ** Behaviour shared by the adapters *)

Module AbstractAscoltatore.

(** Modelled from the spec: the state every adapter inherits
    (lib/abstract_ascoltatore.js is not among the sources): the
    canonical symbols ([_separator], [_wildcardOne], [_wildcardSome]), the
    transport's own symbols, the lifecycle flags, and the completions
    attached to the ["closed"] notification.  [_closing] is only ever set
    by the AMQP adapter. *)
Record t := {
  settings : Topic.Syntax;
  _nativeSettings : Topic.Syntax;
  _ready : bool;
  _closing : bool;
  _closed : bool;
  closed_listeners : list Js.Callback
}.

Definition new (settings nativeSettings : Topic.Syntax) : t :=
  {| settings := settings; _nativeSettings := nativeSettings;
     _ready := false; _closing := false; _closed := false;
     closed_listeners := [] |}.

Definition set_ready (b : bool) (a : t) : t :=
  {| settings := settings a; _nativeSettings := _nativeSettings a;
     _ready := b; _closing := _closing a; _closed := _closed a;
     closed_listeners := closed_listeners a |}.

Definition set_closing (b : bool) (a : t) : t :=
  {| settings := settings a; _nativeSettings := _nativeSettings a;
     _ready := _ready a; _closing := b; _closed := _closed a;
     closed_listeners := closed_listeners a |}.

Definition set_closed (b : bool) (a : t) : t :=
  {| settings := settings a; _nativeSettings := _nativeSettings a;
     _ready := _ready a; _closing := _closing a; _closed := b;
     closed_listeners := closed_listeners a |}.

Definition on_closed (done : Js.Callback) (a : t) : t :=
  {| settings := settings a; _nativeSettings := _nativeSettings a;
     _ready := _ready a; _closing := _closing a; _closed := _closed a;
     closed_listeners := closed_listeners a ++ [done] |}.

(** The states of the lifecycle, read off the flags. *)
Inductive State := connecting | ready | closing | closedState.

Definition state (a : t) : State :=
  if _closed a then closedState
  else if _closing a then closing
  else if _ready a then ready
  else connecting.

(** [close()] has begun on the instance. *)
Definition close_begun (a : t) : bool := _closing a || _closed a.

(** Modelled from the spec: an operation is rejected with the closed
    condition when the state is closing or closed. *)
Definition _raiseIfClosed : Js.M t Ext.Call unit :=
  a <-- Js.get ;;
  match state a with
  | closing | closedState => Js.throw Js.ClosedError
  | _ => Js.ret tt
  end.

(** Modelled from the spec: canonical pattern to transport pattern. *)
Definition _subTopic (a : t) (topic : string) : string :=
  Topic.translateOut (settings a) (_nativeSettings a) topic.

(** Modelled from the spec: canonical topic to transport topic. *)
Definition _pubTopic (a : t) (topic : string) : string :=
  Topic.translateOut (settings a) (_nativeSettings a) topic.

(** Modelled from the spec: transport topic to canonical topic. *)
Definition _recvTopic (a : t) (topic : string) : string :=
  Topic.translateIn (settings a) (_nativeSettings a) topic.

(** Modelled from the spec: [emit("ready")] marks the instance ready and
    notifies the observers. *)
Definition emit_ready : Js.M t Ext.Call unit :=
  Js.modify (set_ready true) ;;;
  Js.call (Ext.emit "ready" None).

(** Modelled from the spec: [emit("closed")] marks the instance closed,
    notifies the observers and fires the attached completions. *)
Definition emit_closed : Js.M t Ext.Call unit :=
  Js.modify (set_closed true) ;;;
  Js.call (Ext.emit "closed" None) ;;;
  a <-- Js.get ;;
  Js.for_each (fun d => Js.call (Ext.invoke (Some d))) (closed_listeners a).

(** Modelled from the spec: [emit("error", e)], the error notification of
    the Router Core (the emitter behind lib/abstract_ascoltatore.js is not
    among the sources); it reaches the observers and returns to the caller,
    it "does not crash the process". *)
Definition emit_error (e : Ext.ErrorObject) : Js.M t Ext.Call unit :=
  Js.call (Ext.emit "error" (Some e)).

End AbstractAscoltatore.

(** ** The AMQP adapter *)

Module AMQPAscoltatore.

(** The adapter of src/unnamed/part_001; line numbers are those of that
    file.  The constructor's native settings, lines 28-32. *)

Definition nativeSettings : Topic.Syntax :=
  {| Topic.separator := "."; Topic.wildcardOne := "*";
     Topic.wildcardSome := "#" |}.

(** Listeners the adapter installs on its connection. *)
Inductive Listener :=
| EmitError                              (* lines 69-75 *)
| DoClose (done : option Js.Callback).   (* lines 238-247 *)

(** Position in the [async.series] of [_startConn]. *)
Inductive Stage :=
| AwaitConnReady
| AwaitExchangeOpen
| AwaitQueue
| AwaitConsumeOk
| AwaitDeferred
| Started.

Record t := {
  base : AbstractAscoltatore.t;
  _client_conn : option unit;
  _exchange : option unit;
  _queue : option unit;
  _ascoltatore : TrieAscoltatore.t;
  _subs_counter : SubsCounter.t;
  (* listeners on the connection object, which outlives the field *)
  conn_listeners : list (string * Listener);
  stage : Stage
}.

Definition with_base (b : AbstractAscoltatore.t) (s : t) : t :=
  {| base := b; _client_conn := _client_conn s; _exchange := _exchange s;
     _queue := _queue s; _ascoltatore := _ascoltatore s;
     _subs_counter := _subs_counter s;
     conn_listeners := conn_listeners s; stage := stage s |}.

Definition with_handles (c e q : option unit) (s : t) : t :=
  {| base := base s; _client_conn := c; _exchange := e; _queue := q;
     _ascoltatore := _ascoltatore s; _subs_counter := _subs_counter s;
     conn_listeners := conn_listeners s; stage := stage s |}.

Definition with_ascoltatore (a : TrieAscoltatore.t) (s : t) : t :=
  {| base := base s; _client_conn := _client_conn s;
     _exchange := _exchange s; _queue := _queue s; _ascoltatore := a;
     _subs_counter := _subs_counter s;
     conn_listeners := conn_listeners s; stage := stage s |}.

Definition with_subs_counter (c : SubsCounter.t) (s : t) : t :=
  {| base := base s; _client_conn := _client_conn s;
     _exchange := _exchange s; _queue := _queue s;
     _ascoltatore := _ascoltatore s; _subs_counter := c;
     conn_listeners := conn_listeners s; stage := stage s |}.

Definition with_conn_listeners (l : list (string * Listener)) (s : t) : t :=
  {| base := base s; _client_conn := _client_conn s;
     _exchange := _exchange s; _queue := _queue s;
     _ascoltatore := _ascoltatore s; _subs_counter := _subs_counter s;
     conn_listeners := l; stage := stage s |}.

Definition with_stage (g : Stage) (s : t) : t :=
  {| base := base s; _client_conn := _client_conn s;
     _exchange := _exchange s; _queue := _queue s;
     _ascoltatore := _ascoltatore s; _subs_counter := _subs_counter s;
     conn_listeners := conn_listeners s; stage := g |}.

Definition M := Js.M t Ext.Call.

Definition inherited {A} (m : Js.M AbstractAscoltatore.t Ext.Call A) : M A :=
  Js.zoom base with_base m.

Definition local {A} (m : Js.M TrieAscoltatore.t Ext.Call A) : M A :=
  Js.zoom _ascoltatore with_ascoltatore m.

(** Reading a member of a field that is [undefined] throws. *)
Definition member (field : t -> option unit) (name : string) : M unit :=
  s <-- Js.get ;;
  match field s with
  | Some _ => Js.ret tt
  | None => Js.throw (Js.TypeError name)
  end.

Definition conn_on (event : string) (l : Listener) : M unit :=
  Js.modify (fun s => with_conn_listeners (conn_listeners s ++ [(event, l)]) s).

Definition conn_removeAllListeners (event : string) : M unit :=
  Js.modify (fun s =>
    with_conn_listeners
      (List.filter (fun el => negb (String.eqb el.1 event))
         (conn_listeners s)) s).

(** [_startConn], lines 60-78: the connection is created once and given
    its error listener; the [async.series] that follows is driven by
    [on_event] below. *)
Definition _startConn : M unit :=
  s <-- Js.get ;;
  match _client_conn s with
  | None =>
      Js.call Ext.amqp_createConnection ;;;
      Js.modify (fun s => with_handles (Some tt) (_exchange s) (_queue s) s) ;;;
      conn_on "error" EmitError ;;;
      Js.modify (with_stage AwaitConnReady)
  | Some _ => Js.ret tt
  end.

(** The object left by the constructor, before [_startConn] runs. *)
Definition blank (opts : Topic.Syntax) : t :=
  {| base := AbstractAscoltatore.new opts nativeSettings;
     _client_conn := None; _exchange := None; _queue := None;
     _ascoltatore := TrieAscoltatore.new opts;
     _subs_counter := SubsCounter.new;
     conn_listeners := []; stage := AwaitConnReady |}.

Definition new (opts : Topic.Syntax) : t := Js.state (_startConn (blank opts)).

Definition dataV1Queue := "mqtt-broker:device:data".
Definition powerQueue := "mqtt-broker:device:power".
Definition dataV2Queue := "mqtt-broker:device:v2:data".
Definition deviceConnectQueue := "mqtt-broker:device:v2:connect".
Definition transmitterConnectQueue := "mqtt-broker:transmitter:v2:connect".

(** [subscribe], lines 128-154. *)
Definition subscribe (topic : string) (callback : Js.Callback)
    (done : option Js.Callback) : M unit :=
  inherited AbstractAscoltatore._raiseIfClosed ;;;
  local (TrieAscoltatore.subscribe topic callback) ;;;
  s <-- Js.get ;;
  (if negb (SubsCounter.include (_subs_counter s) topic) then
     member _queue "once" ;;;
     Js.call (Ext.queue_once "queueBindOk" done) ;;;
     Js.call (Ext.queue_bind (AbstractAscoltatore._subTopic (base s) topic))
   else
     Js.call (Ext.defer done)) ;;;
  Js.modify (fun s =>
    with_subs_counter (SubsCounter.add topic (_subs_counter s)) s).

(** [1 * 60 * 1000 + ""], line 156. *)
Definition oneMinute : string := "60000".

(** [str.indexOf(suffix, str.length - suffix.length) !== -1]; a negative
    start position counts as zero. *)
Definition endsWith (str suffix : string) : bool :=
  match Str.indexOf str suffix (String.length str - String.length suffix) with
  | Some _ => true
  | None => false
  end.

(** [part === lit] where [part] may be [undefined]. *)
Definition equals (part : option string) (lit : string) : bool :=
  match part with
  | Some p => String.eqb p lit
  | None => false
  end.

(** [publish], lines 162-198. *)
Definition publish (rt : Js.Runtime) (topic : string) (message : Js.Value)
    (done : option Js.Callback) : M unit :=
  inherited AbstractAscoltatore._raiseIfClosed ;;;
  let topicParts := Str.split "/" topic in
  let amqpForwardMessage queue headers : M unit :=
    member _client_conn "publish" ;;;
    Js.call (Ext.conn_publish queue message headers oneMinute) in
  let version := topicParts !! 1 in
  (if equals version "v1" then
     let deviceId := topicParts !! 2 in
     if endsWith topic "/data" then
       amqpForwardMessage dataV1Queue
         [("deviceId", deviceId); ("mqttTopic", Some topic)]
     else if endsWith topic "/data/power" then
       amqpForwardMessage powerQueue
         [("deviceId", deviceId); ("mqttTopic", Some topic)]
     else Js.ret tt
   else if equals version "v2" then
     let collection := topicParts !! 3 in
     let itemId := topicParts !! 2 in
     let eventClass := topicParts !! 4 in
     if equals collection "transmitter" && equals eventClass "presence"
        && equals (topicParts !! 5) "connect" then
       amqpForwardMessage transmitterConnectQueue
         [("transmitterId", itemId); ("mqttTopic", Some topic)]
     else if equals collection "device" && equals eventClass "presence"
             && equals (topicParts !! 5) "connect" then
       amqpForwardMessage deviceConnectQueue
         [("deviceId", itemId); ("mqttTopic", Some topic)]
     else if equals collection "device" && equals eventClass "data" then
       amqpForwardMessage dataV2Queue
         [("deviceId", itemId); ("mqttTopic", Some topic)]
     else Js.ret tt
   else Js.ret tt) ;;;
  member _exchange "publish" ;;;
  s <-- Js.get ;;
  Js.call (Ext.exchange_publish (AbstractAscoltatore._pubTopic (base s) topic)
             (Js.String_ rt message) oneMinute) ;;;
  Js.call (Ext.defer done).

(** [unsubscribe], lines 200-220. *)
Definition unsubscribe (topic : string) (callback : Js.Callback)
    (done : option Js.Callback) : M unit :=
  inherited AbstractAscoltatore._raiseIfClosed ;;;
  Js.modify (fun s =>
    with_subs_counter (SubsCounter.remove topic (_subs_counter s)) s) ;;;
  local (TrieAscoltatore.unsubscribe topic callback) ;;;
  s <-- Js.get ;;
  if negb (SubsCounter.include (_subs_counter s) topic) then
    member _queue "once" ;;;
    Js.call (Ext.queue_once "queueUnbindOk" done) ;;;
    Js.call (Ext.queue_unbind (AbstractAscoltatore._subTopic (base s) topic))
  else
    Js.call (Ext.defer done).

(** [close], lines 222-260.  [this.on("closed", done)] needs a function:
    the event emitter throws on anything else. *)
Definition close (done : option Js.Callback) : M unit :=
  s <-- Js.get ;;
  if AbstractAscoltatore._closed (base s) then
    Js.call (Ext.invoke done)
  else if AbstractAscoltatore._closing (base s) then
    match done with
    | Some d => inherited (Js.modify (AbstractAscoltatore.on_closed d))
    | None => Js.throw (Js.TypeError "listener must be a function")
    end
  else
    inherited (Js.modify (AbstractAscoltatore.set_closing true)) ;;;
    match _client_conn s with
    | Some _ =>
        conn_on "close" (DoClose done) ;;;
        member _queue "destroy" ;;;
        Js.call Ext.queue_destroy ;;;
        Js.call Ext.conn_end ;;;
        conn_removeAllListeners "error" ;;;
        conn_on "error" (DoClose done) ;;;
        Js.modify (with_handles None None None)
    | None => Js.ret tt
    end.

(** [if (typeof error === 'string') error = new Error(error)]. *)
Definition wrap_cause (cause : Ext.Cause) : Ext.ErrorObject :=
  match cause with
  | Ext.StringCause str => {| Ext.message := str |}
  | Ext.ErrorCause e => e
  end.

(** What the adapter's listeners do when the connection fires them. *)
Definition run_listener (cause : option Ext.Cause) (l : Listener) : M unit :=
  match l with
  | EmitError =>
      let error :=
        match cause with
        | Some cause => wrap_cause cause
        | None => {| Ext.message := "" |}
        end in
      inherited (AbstractAscoltatore.emit_error error)
  | DoClose done =>
      s <-- Js.get ;;
      if AbstractAscoltatore._closed (base s) then Js.ret tt
      else
        Js.call (Ext.defer done) ;;;
        inherited AbstractAscoltatore.emit_closed
  end.

Definition listeners_for (event : string) (s : t) : list Listener :=
  map snd (List.filter (fun el => String.eqb el.1 event) (conn_listeners s)).

(** Notifications from the broker client and the scheduler. *)
Inductive Event :=
| ConnReady
| ExchangeOpen
| QueueDeclared
| BasicConsumeOk
| DeferredContinuation
| ConnError (cause : Ext.Cause)
| ConnClose
| Message (routingKey : string) (data : string).

(** The steps of the [async.series], lines 79-123, the connection's
    ["error"] and ["close"] events, and the delivery of a message, lines
    104-112. *)
Definition on_event (e : Event) : M unit :=
  s <-- Js.get ;;
  match e, stage s with
  | ConnReady, AwaitConnReady =>
      Js.call Ext.conn_exchange ;;;
      Js.modify (fun s =>
        with_handles (_client_conn s) (Some tt) (_queue s) s) ;;;
      Js.modify (with_stage AwaitExchangeOpen)
  | ExchangeOpen, AwaitExchangeOpen =>
      Js.call Ext.conn_queue ;;;
      Js.modify (fun s =>
        with_handles (_client_conn s) (_exchange s) (Some tt) s) ;;;
      Js.call Ext.queue_setMaxListeners ;;;
      Js.modify (with_stage AwaitQueue)
  | QueueDeclared, AwaitQueue =>
      member _queue "subscribe" ;;;
      Js.call Ext.queue_subscribe ;;;
      member _queue "once" ;;;
      Js.modify (with_stage AwaitConsumeOk)
  | BasicConsumeOk, AwaitConsumeOk =>
      Js.call Ext.defer_continuation ;;;
      Js.modify (with_stage AwaitDeferred)
  | DeferredContinuation, AwaitDeferred =>
      inherited AbstractAscoltatore.emit_ready ;;;
      Js.modify (with_stage Started)
  | ConnError cause, _ =>
      Js.for_each (run_listener (Some cause)) (listeners_for "error" s)
  | ConnClose, _ =>
      Js.for_each (run_listener None) (listeners_for "close" s)
  | Message routingKey data, _ =>
      member _queue "shift" ;;;
      Js.call (Ext.trie_publish None
                 (AbstractAscoltatore._recvTopic (base s) routingKey)
                 (Js.Str data))
  | _, _ => Js.ret tt
  end.

(** A scenario: caller operations and broker notifications, in order. *)
Inductive Op :=
| Subscribe (topic : string) (callback : Js.Callback)
    (done : option Js.Callback)
| Unsubscribe (topic : string) (callback : Js.Callback)
    (done : option Js.Callback)
| Publish (topic : string) (message : Js.Value) (done : option Js.Callback)
| Close (done : option Js.Callback)
| Notify (e : Event).

Definition step (rt : Js.Runtime) (o : Op) : M unit :=
  match o with
  | Subscribe topic callback done => subscribe topic callback done
  | Unsubscribe topic callback done => unsubscribe topic callback done
  | Publish topic message done => publish rt topic message done
  | Close done => close done
  | Notify e => on_event e
  end.

(** Runs a scenario; an operation that throws is reported to its caller
    and the instance lives on. *)
Fixpoint run (rt : Js.Runtime) (ops : list Op) (s : t)
    : t * list (Js.Res unit * list Ext.Call) :=
  match ops with
  | [] => (s, [])
  | o :: ops' =>
      match step rt o s with
      | (r, s1, l) =>
          match run rt ops' s1 with
          | (s2, rest) => (s2, (r, l) :: rest)
          end
      end
  end.

Definition defined (field : option unit) : bool :=
  match field with Some _ => true | None => false end.

(** An instance on which close has not begun, whose connection, exchange and
    queue exist and whose local index is open. *)
Definition operational (s : t) : bool :=
  negb (AbstractAscoltatore._closing (base s))
  && negb (AbstractAscoltatore._closed (base s))
  && defined (_client_conn s) && defined (_exchange s) && defined (_queue s)
  && negb (TrieAscoltatore.closed (_ascoltatore s)).

(** The patterns the local index of the instance accepts. *)
Definition accepts (s : t) (topic : string) : bool :=
  Topic.valid_pattern (TrieAscoltatore.syntax (_ascoltatore s)) topic.

(** The notifications of a successful start-up, in the order of the
    [async.series] of [_startConn]. *)
Definition startup : list Event :=
  [ConnReady; ExchangeOpen; QueueDeclared; BasicConsumeOk;
   DeferredContinuation].

(** A fresh instance after a successful start-up. *)
Definition started (opts : Topic.Syntax) : t :=
  Js.state (Js.for_each on_event startup (new opts)).

(** The instance with its ready flag set to [b]. *)
Definition mark_ready (b : bool) (s : t) : t :=
  with_base (AbstractAscoltatore.set_ready b (base s)) s.

(** The outcome of a method with the ready flag of its final state set. *)
Definition marking_ready {A} (b : bool) (x : Js.Res A * t * list Ext.Call)
    : Js.Res A * t * list Ext.Call :=
  (x.1.1, mark_ready b x.1.2, x.2).

(** The counter and the local index are the same in [s'] as in [s]. *)
Definition same_subscriptions (s s' : t) : Prop :=
  _subs_counter s' = _subs_counter s /\ _ascoltatore s' = _ascoltatore s.

(** The position of a stage in the start-up. *)
Definition stage_index (g : Stage) : nat :=
  match g with
  | AwaitConnReady => 0
  | AwaitExchangeOpen => 1
  | AwaitQueue => 2
  | AwaitConsumeOk => 3
  | AwaitDeferred => 4
  | Started => 5
  end.

(** While close has not begun, what the start-up has created so far is in
    place: the connection from the constructor on, the exchange once the
    connection is ready, the queue once the exchange is open; the local
    index is open; and readiness is notified by the last step only. *)
Definition wired (s : t) : Prop :=
  TrieAscoltatore.closed (_ascoltatore s) = false
  /\ (AbstractAscoltatore._ready (base s) = true -> stage s = Started)
  /\ (AbstractAscoltatore.close_begun (base s) = false ->
      _client_conn s = Some tt
      /\ (1 <= stage_index (stage s) -> _exchange s = Some tt)
      /\ (2 <= stage_index (stage s) -> _queue s = Some tt)).

(** From [s] to [s'] the topic settings, the handles, the stage, the ready
    flag, the state of the local index and the listeners on the connection
    are kept, and a close that had begun is still begun. *)
Definition keeps_wiring (s s' : t) : Prop :=
  AbstractAscoltatore.settings (base s') = AbstractAscoltatore.settings (base s)
  /\ AbstractAscoltatore._nativeSettings (base s')
     = AbstractAscoltatore._nativeSettings (base s)
  /\ _client_conn s' = _client_conn s
  /\ _exchange s' = _exchange s
  /\ _queue s' = _queue s
  /\ stage s' = stage s
  /\ AbstractAscoltatore._ready (base s') = AbstractAscoltatore._ready (base s)
  /\ TrieAscoltatore.closed (_ascoltatore s')
     = TrieAscoltatore.closed (_ascoltatore s)
  /\ conn_listeners s' = conn_listeners s
  /\ (AbstractAscoltatore.close_begun (base s) = true ->
      AbstractAscoltatore.close_begun (base s') = true).


(** The instance translates between the caller's topic syntax [opts] and
    the broker's. *)
Definition configured (opts : Topic.Syntax) (s : t) : Prop :=
  AbstractAscoltatore.settings (base s) = opts
  /\ AbstractAscoltatore._nativeSettings (base s) = nativeSettings.

(** The calls of the [async.series] of [_startConn], lines 79-123, in the
    order of its steps. *)
Definition start_calls : list Ext.Call :=
  [Ext.conn_exchange; Ext.conn_queue; Ext.queue_setMaxListeners;
   Ext.queue_subscribe; Ext.defer_continuation; Ext.emit "ready" None].

Definition is_start_call (c : Ext.Call) : bool :=
  match c with
  | Ext.conn_exchange | Ext.conn_queue | Ext.queue_setMaxListeners
  | Ext.queue_subscribe | Ext.defer_continuation => true
  | Ext.emit event _ => String.eqb event "ready"
  | _ => false
  end.

(** How many of the [start_calls] have been made when the series waits at
    stage [g]. *)
Definition start_calls_made (g : Stage) : nat :=
  match g with
  | AwaitConnReady => 0
  | AwaitExchangeOpen => 1
  | AwaitQueue => 3
  | AwaitConsumeOk => 4
  | AwaitDeferred => 5
  | Started => 6
  end.

(** The notifications by which the connection reports its end. *)
Definition ends_connection (e : Event) : bool :=
  match e with
  | ConnClose | ConnError _ => true
  | _ => false
  end.

(** All the calls of a scenario, in order. *)
Definition all_calls (trace : list (Js.Res unit * list Ext.Call))
    : list Ext.Call :=
  concat (map snd trace).

End AMQPAscoltatore.

(** ** The Redis-cluster adapter *)

Module RedisClusterAscoltatore.

(** The adapter of src/lib/redis_cluster_ascoltatore.js; line numbers are
    those of that file.  The constructor's native settings, lines 24-28. *)

Definition nativeSettings : Topic.Syntax :=
  {| Topic.separator := "/"; Topic.wildcardOne := "*";
     Topic.wildcardSome := "*" |}.

Record t := {
  base : AbstractAscoltatore.t;
  _ascoltatores : gmap string TrieAscoltatore.t;
  _domain : option nat;
  _subs_counter : SubsCounter.t
}.

Definition with_base (b : AbstractAscoltatore.t) (s : t) : t :=
  {| base := b; _ascoltatores := _ascoltatores s; _domain := _domain s;
     _subs_counter := _subs_counter s |}.

Definition with_ascoltatores (m : gmap string TrieAscoltatore.t) (s : t) : t :=
  {| base := base s; _ascoltatores := m; _domain := _domain s;
     _subs_counter := _subs_counter s |}.

Definition with_domain (d : option nat) (s : t) : t :=
  {| base := base s; _ascoltatores := _ascoltatores s; _domain := d;
     _subs_counter := _subs_counter s |}.

Definition with_subs_counter (c : SubsCounter.t) (s : t) : t :=
  {| base := base s; _ascoltatores := _ascoltatores s; _domain := _domain s;
     _subs_counter := c |}.

Definition M := Js.M t Ext.Call.

Definition inherited {A} (m : Js.M AbstractAscoltatore.t Ext.Call A) : M A :=
  Js.zoom base with_base m.

(** Runs a method of the local ascoltatore stored under [key]. *)
Definition at_key (key : string) (m : Js.M TrieAscoltatore.t Ext.Call unit)
    : M unit :=
  fun s =>
    match _ascoltatores s !! key with
    | Some a =>
        match m a with
        | (r, a', l) =>
            (r, with_ascoltatores (<[key := a']> (_ascoltatores s)) s, l)
        end
    | None => (Js.Throw (Js.TypeError key), s, [])
    end.

(** [this._ascoltatore.registerDomain(domain)]. *)
Definition registerDomain (d : nat) : M unit :=
  Js.modify (fun s =>
    with_ascoltatores (TrieAscoltatore.registerDomain d <$> _ascoltatores s)
      (with_domain (Some d) s)).

(** [_startPubSub], lines 62-97: the cluster client is created; its
    notifications are handled by [on_event] below. *)
Definition _startPubSub : M unit := Js.call Ext.rc_new.

Definition blank (opts : Topic.Syntax) : t :=
  {| base := AbstractAscoltatore.new opts nativeSettings;
     _ascoltatores := ∅; _domain := None;
     _subs_counter := SubsCounter.new |}.

Definition new (opts : Topic.Syntax) : t :=
  Js.state (_startPubSub (blank opts)).

(** [_containsWildcard], lines 99-102. *)
Definition _containsWildcard (s : t) (topic : string) : bool :=
  Str.includes topic (Topic.wildcardOne (AbstractAscoltatore.settings (base s)))
  || Str.includes topic
       (Topic.wildcardSome (AbstractAscoltatore.settings (base s))).

(** [subTopic.match(new RegExp('[/*]$'))]. *)
Definition ends_in_slash_or_star (subTopic : string) : bool :=
  match Str.last_char subTopic with
  | Some c => Ascii.eqb c "/" || Ascii.eqb c "*"
  | None => false
  end.

(** [topic.match(new RegExp('/$'))]. *)
Definition ends_in_slash (topic : string) : bool :=
  match Str.last_char topic with
  | Some c => Ascii.eqb c "/"
  | None => false
  end.

(** The subscription key: lines 112-116 and 164-168. *)
Definition subscription_key (s : t) (topic : string) : string :=
  let subTopic := AbstractAscoltatore._subTopic (base s) topic in
  if negb (ends_in_slash_or_star subTopic) then subTopic +:+ "/"
  else subTopic.

(** [subscribe], lines 104-138.  The completion handed to the cluster
    client is [newDone], which defers [done]; it is recorded as [done]. *)
Definition subscribe (topic : string) (callback : Js.Callback)
    (done : option Js.Callback) : M unit :=
  inherited AbstractAscoltatore._raiseIfClosed ;;;
  s <-- Js.get ;;
  let subTopic := subscription_key s topic in
  (if _containsWildcard s topic then
     Js.call (Ext.rc_psubscribe subTopic done)
   else
     Js.call (Ext.rc_subscribe subTopic done)) ;;;
  Js.modify (fun s =>
    with_subs_counter (SubsCounter.add subTopic (_subs_counter s)) s) ;;;
  s <-- Js.get ;;
  match _ascoltatores s !! subTopic with
  | Some _ => Js.ret tt
  | None =>
      let ascoltatore :=
        TrieAscoltatore.new (AbstractAscoltatore.settings (base s)) in
      let ascoltatore :=
        match _domain s with
        | Some d => TrieAscoltatore.registerDomain d ascoltatore
        | None => ascoltatore
        end in
      Js.modify (fun s =>
        with_ascoltatores (<[subTopic := ascoltatore]> (_ascoltatores s)) s)
  end ;;;
  at_key subTopic (TrieAscoltatore.subscribe topic callback).

(** [publish], lines 140-158. *)
Definition publish (topic : string) (message : Js.Value)
    (done : option Js.Callback) : M unit :=
  Js.call (Ext.console_log message) ;;;
  inherited AbstractAscoltatore._raiseIfClosed ;;;
  let message :=
    match message with
    | Js.Undefined | Js.Null => Js.Bool false
    | _ => message
    end in
  s <-- Js.get ;;
  let topic := AbstractAscoltatore._pubTopic (base s) topic in
  let topic := if negb (ends_in_slash topic) then topic +:+ "/" else topic in
  Js.call (Ext.rc_publish topic message done).

(** [unsubscribe], lines 160-200. *)
Definition unsubscribe (topic : string) (callback : Js.Callback)
    (done : option Js.Callback) : M unit :=
  inherited AbstractAscoltatore._raiseIfClosed ;;;
  s <-- Js.get ;;
  let isWildcard := _containsWildcard s topic in
  let subTopic := subscription_key s topic in
  Js.modify (fun s =>
    with_subs_counter (SubsCounter.remove subTopic (_subs_counter s)) s) ;;;
  let ascoltatore := _ascoltatores s !! subTopic in
  match ascoltatore with
  | Some _ => at_key subTopic (TrieAscoltatore.unsubscribe topic callback)
  | None => Js.ret tt
  end ;;;
  s <-- Js.get ;;
  if SubsCounter.include (_subs_counter s) subTopic then
    Js.call (Ext.defer done)
  else
    match ascoltatore with
    | Some _ =>
        Js.call (Ext.trie_close subTopic) ;;;
        Js.modify (fun s =>
          with_ascoltatores (delete subTopic (_ascoltatores s)) s)
    | None => Js.ret tt
    end ;;;
    if isWildcard then Js.call (Ext.rc_punsubscribe subTopic done)
    else Js.call (Ext.rc_unsubscribe subTopic done).

(** [close], lines 202-226.  The local ascoltatores are closed in the
    order of the map's enumeration. *)
Definition close (done : option Js.Callback) : M unit :=
  s <-- Js.get ;;
  if AbstractAscoltatore._closed (base s) then
    Js.call (Ext.defer done)
  else
    Js.modify (fun s =>
      with_subs_counter (SubsCounter.clear (_subs_counter s)) s) ;;;
    Js.call (Ext.rc_disconnect done) ;;;
    Js.for_each (fun subTopic => Js.call (Ext.trie_close subTopic))
      (map fst (map_to_list (_ascoltatores s))) ;;;
    Js.modify (with_ascoltatores ∅) ;;;
    inherited AbstractAscoltatore.emit_closed.

(** Notifications from the cluster client and the scheduler. *)
Inductive Event :=
| RcReady
| RcMessage (topic : string) (message : Js.Value)
| RcPMessage (sub : string) (topic : string) (message : Js.Value)
| Deferred (sub : string) (topic : string) (message : Js.Value).

(** The deferred body of the message handler, lines 73-85. *)
Definition deliver (sub topic : string) (message : Js.Value) : M unit :=
  s <-- Js.get ;;
  let topic := Str.strip_trailing "/" topic in
  let topic := AbstractAscoltatore._recvTopic (base s) topic in
  match _ascoltatores s !! sub with
  | Some _ => Js.call (Ext.trie_publish (Some sub) topic message)
  | None => Js.ret tt
  end.

Definition on_event (e : Event) : M unit :=
  match e with
  | RcReady => inherited AbstractAscoltatore.emit_ready
  | RcMessage topic message => Js.call Ext.defer_continuation
  | RcPMessage sub topic message => Js.call Ext.defer_continuation
  | Deferred sub topic message => deliver sub topic message
  end.

Inductive Op :=
| Subscribe (topic : string) (callback : Js.Callback)
    (done : option Js.Callback)
| Unsubscribe (topic : string) (callback : Js.Callback)
    (done : option Js.Callback)
| Publish (topic : string) (message : Js.Value) (done : option Js.Callback)
| Close (done : option Js.Callback)
| RegisterDomain (d : nat)
| Notify (e : Event).

Definition step (o : Op) : M unit :=
  match o with
  | Subscribe topic callback done => subscribe topic callback done
  | Unsubscribe topic callback done => unsubscribe topic callback done
  | Publish topic message done => publish topic message done
  | Close done => close done
  | RegisterDomain d => registerDomain d
  | Notify e => on_event e
  end.

Fixpoint run (ops : list Op) (s : t)
    : t * list (Js.Res unit * list Ext.Call) :=
  match ops with
  | [] => (s, [])
  | o :: ops' =>
      match step o s with
      | (r, s1, l) =>
          match run ops' s1 with
          | (s2, rest) => (s2, (r, l) :: rest)
          end
      end
  end.

(** The instance with its ready flag set to [b]. *)
Definition mark_ready (b : bool) (s : t) : t :=
  with_base (AbstractAscoltatore.set_ready b (base s)) s.

(** The outcome of a method with the ready flag of its final state set. *)
Definition marking_ready {A} (b : bool) (x : Js.Res A * t * list Ext.Call)
    : Js.Res A * t * list Ext.Call :=
  (x.1.1, mark_ready b x.1.2, x.2).

(** A local ascoltatore exists for a key exactly when the counter counts
    the key. *)
Definition counted (s : t) : Prop :=
  forall key,
    is_Some (_ascoltatores s !! key)
    <-> 0 < SubsCounter.count (_subs_counter s) key.

(** No local ascoltatore kept in the map has been closed. *)
Definition tries_open (s : t) : Prop :=
  forall key a,
    _ascoltatores s !! key = Some a -> TrieAscoltatore.closed a = false.

Definition consistent (s : t) : Prop := counted s /\ tries_open s.

(** The transport call a subscribe of [topic] makes. *)
Definition subscription_call (s : t) (topic : string)
    (done : option Js.Callback) : Ext.Call :=
  if _containsWildcard s topic
  then Ext.rc_psubscribe (subscription_key s topic) done
  else Ext.rc_subscribe (subscription_key s topic) done.

(** The transport call that retracts the subscription of [topic]. *)
Definition retraction_call (s : t) (topic : string)
    (done : option Js.Callback) : Ext.Call :=
  if _containsWildcard s topic
  then Ext.rc_punsubscribe (subscription_key s topic) done
  else Ext.rc_unsubscribe (subscription_key s topic) done.

(** A fresh instance after the cluster client has reported ready. *)
Definition started (opts : Topic.Syntax) : t :=
  Js.state (on_event RcReady (new opts)).

(** Every local ascoltatore carries the domain registered on the adapter. *)
Definition domain_registered (s : t) : Prop :=
  forall key a,
    _ascoltatores s !! key = Some a -> TrieAscoltatore.domain a = _domain s.

(** The instance translates between [opts] and the Redis symbols. *)
Definition configured (opts : Topic.Syntax) (s : t) : Prop :=
  AbstractAscoltatore.settings (base s) = opts
  /\ AbstractAscoltatore._nativeSettings (base s) = nativeSettings.

End RedisClusterAscoltatore.

(** * Properties *)

(** ** Splitting and joining *)

Section SplitJoin.

Variable sep : ascii.

Lemma split_not_nil (s : string) : Str.split sep s <> [].
Proof.
  induction s as [|c s IH]; simpl; [discriminate|].
  destruct (Ascii.eqb c sep); [discriminate|].
  destruct (Str.split sep s); discriminate.
Qed.

Lemma join_cons_char (c : ascii) (seg : string) (rest : list string) :
  Str.join sep (String c seg :: rest) = String c (Str.join sep (seg :: rest)).
Proof. destruct rest; reflexivity. Qed.

Lemma join_split (s : string) : Str.join sep (Str.split sep s) = s.
Proof.
  induction s as [|c s IH]; [reflexivity|].
  simpl. destruct (Ascii.eqb_spec c sep) as [->|Hne].
  - pose proof (split_not_nil s) as Hnil.
    destruct (Str.split sep s) as [|seg rest]; [contradiction|].
    simpl in *. now rewrite IH.
  - pose proof (split_not_nil s) as Hnil.
    destruct (Str.split sep s) as [|seg rest]; [contradiction|].
    rewrite join_cons_char. now rewrite IH.
Qed.

Lemma has_char_cons (c : ascii) (s : string) :
  Str.has_char sep (String c s) = Ascii.eqb sep c || Str.has_char sep s.
Proof. reflexivity. Qed.

Lemma split_segment (seg : string) :
  Str.has_char sep seg = false -> Str.split sep seg = [seg].
Proof.
  induction seg as [|c seg IH]; [reflexivity|].
  rewrite has_char_cons. intros H. apply orb_false_elim in H as [Hc Hs].
  simpl. rewrite Ascii.eqb_sym, Hc. now rewrite (IH Hs).
Qed.

Lemma split_segment_sep (seg rest : string) :
  Str.has_char sep seg = false ->
  Str.split sep (seg +:+ String sep rest) = seg :: Str.split sep rest.
Proof.
  induction seg as [|c seg IH]; intros H.
  - simpl. now rewrite Ascii.eqb_refl.
  - rewrite has_char_cons in H. apply orb_false_elim in H as [Hc Hs].
    simpl. rewrite Ascii.eqb_sym, Hc. now rewrite (IH Hs).
Qed.

Lemma split_join (segs : list string) :
  segs <> [] ->
  Forall (fun seg => Str.has_char sep seg = false) segs ->
  Str.split sep (Str.join sep segs) = segs.
Proof.
  induction segs as [|seg rest IH]; [congruence|].
  intros _ Hall. inversion Hall as [|? ? Hseg Hrest]; subst.
  destruct rest as [|seg2 rest].
  - simpl. now apply split_segment.
  - change (Str.join sep (seg :: seg2 :: rest))
      with (seg +:+ String sep (Str.join sep (seg2 :: rest))).
    rewrite split_segment_sep by assumption.
    f_equal. apply IH; [discriminate|assumption].
Qed.

Lemma split_segments_clean (s : string) :
  Forall (fun seg => Str.has_char sep seg = false) (Str.split sep s).
Proof.
  induction s as [|c s IH]; simpl.
  - constructor; [reflexivity|constructor].
  - destruct (Ascii.eqb_spec c sep) as [->|Hne].
    + constructor; [reflexivity|assumption].
    + destruct (Str.split sep s) as [|seg rest].
      * constructor; [|constructor].
        rewrite has_char_cons. simpl.
        rewrite orb_false_r. apply Ascii.eqb_neq. congruence.
      * inversion IH; subst. constructor; [|assumption].
        rewrite has_char_cons. apply orb_false_intro; [|assumption].
        apply Ascii.eqb_neq. congruence.
Qed.

End SplitJoin.

(** ** Topic translation *)

Section Translation.

Variables canonical native : Topic.Syntax.

Lemma substitute_back (seg : string) :
  Topic.segment_ok canonical native seg = true ->
  Topic.substitute native canonical (Topic.substitute canonical native seg)
  = seg.
Proof.
  unfold Topic.segment_ok, Topic.substitute.
  destruct (String.eqb_spec seg (Topic.wildcardOne canonical)) as [->|H1].
  - intros _. now rewrite String.eqb_refl.
  - destruct (String.eqb_spec seg (Topic.wildcardSome canonical)) as [->|H2].
    + intros H. apply negb_true_iff in H. rewrite H.
      now rewrite String.eqb_refl.
    + intros H. apply andb_prop in H as [H Hsep].
      apply andb_prop in H as [Ha Hb].
      apply negb_true_iff in Ha, Hb. now rewrite Ha, Hb.
Qed.

Lemma substitute_one_segment (seg : string) :
  Topic.well_formed native = true ->
  Topic.segment_ok canonical native seg = true ->
  Str.has_char (Topic.separator native)
    (Topic.substitute canonical native seg) = false.
Proof.
  unfold Topic.well_formed, Topic.segment_ok, Topic.substitute.
  intros Hwf. apply andb_prop in Hwf as [Hone Hsome].
  apply negb_true_iff in Hone, Hsome.
  destruct (String.eqb seg (Topic.wildcardOne canonical)); [easy|].
  destruct (String.eqb seg (Topic.wildcardSome canonical)); [easy|].
  intros H. apply andb_prop in H as [_ Hsep].
  now apply negb_true_iff in Hsep.
Qed.

Lemma translate_roundtrip (t : string) :
  Topic.well_formed native = true ->
  Topic.translatable canonical native t = true ->
  Topic.translateIn canonical native (Topic.translateOut canonical native t)
  = t.
Proof.
  intros Hwf Hok.
  unfold Topic.translateIn, Topic.translateOut, Topic.parse, Topic.format.
  unfold Topic.translatable, Topic.parse in Hok.
  rewrite forallb_forall in Hok.
  rewrite split_join.
  - rewrite map_map.
    rewrite (map_ext_in _ (fun seg => seg)).
    + rewrite map_id. apply join_split.
    + intros seg Hin. apply substitute_back. now apply Hok.
  - pose proof (split_not_nil (Topic.separator canonical) t) as Hnil.
    destruct (Str.split (Topic.separator canonical) t); [contradiction|].
    discriminate.
  - apply Forall_forall. intros seg' Hin.
    apply list_elem_of_In in Hin.
    apply in_map_iff in Hin as [seg [<- Hin]].
    apply substitute_one_segment; [assumption|]. now apply Hok.
Qed.

End Translation.

Lemma amqp_native_well_formed :
  Topic.well_formed AMQPAscoltatore.nativeSettings = true.
Proof. reflexivity. Qed.

Lemma redis_cluster_native_well_formed :
  Topic.well_formed RedisClusterAscoltatore.nativeSettings = true.
Proof. reflexivity. Qed.

(** Both wildcards of any canonical syntax leave the Redis-cluster adapter as
    the same transport symbol, so no inbound translation can tell them
    apart. *)
Lemma redis_cluster_wildcards_conflated (opts : Topic.Syntax) :
  Str.has_char (Topic.separator opts) (Topic.wildcardOne opts) = false ->
  Str.has_char (Topic.separator opts) (Topic.wildcardSome opts) = false ->
  Topic.translateOut opts RedisClusterAscoltatore.nativeSettings
    (Topic.wildcardOne opts) = "*"
  /\ Topic.translateOut opts RedisClusterAscoltatore.nativeSettings
       (Topic.wildcardSome opts) = "*".
Proof.
  intros H1 H2. unfold Topic.translateOut, Topic.parse, Topic.format.
  rewrite !split_segment by assumption. simpl.
  unfold Topic.substitute. rewrite !String.eqb_refl.
  split; [reflexivity|].
  destruct (String.eqb _ _); reflexivity.
Qed.

(** C3 (as amended): translating a canonical pattern to the native form of
    the AMQP or of the Redis-cluster adapter and back yields the pattern
    again whenever each of its segments is the single-level wildcard, or the
    multi-level wildcard of a transport whose two wildcard symbols differ,
    or a literal that is neither native wildcard symbol and has no native
    separator in it. *)
Theorem recvTopic_subTopic_roundtrip
    (opts native : Topic.Syntax) (t : string) :
  native = AMQPAscoltatore.nativeSettings
  \/ native = RedisClusterAscoltatore.nativeSettings ->
  Topic.translatable opts native t = true ->
  let a := AbstractAscoltatore.new opts native in
  AbstractAscoltatore._recvTopic a (AbstractAscoltatore._subTopic a t) = t.
Proof.
  intros Hnative Hok a.
  unfold AbstractAscoltatore._recvTopic, AbstractAscoltatore._subTopic.
  apply translate_roundtrip; [|exact Hok].
  destruct Hnative as [-> | ->]; reflexivity.
Qed.

Lemma recvTopic_subTopic_roundtrip_witness :
  let a := AbstractAscoltatore.new Topic.mqtt AMQPAscoltatore.nativeSettings in
  AbstractAscoltatore._subTopic a "sensors/+/temp/#" = "sensors.*.temp.#"
  /\ AbstractAscoltatore._recvTopic a
       (AbstractAscoltatore._subTopic a "sensors/+/temp/#")
     = "sensors/+/temp/#".
Proof.
  split; [reflexivity|].
  apply (recvTopic_subTopic_roundtrip Topic.mqtt
           AMQPAscoltatore.nativeSettings "sensors/+/temp/#").
  - left; reflexivity.
  - reflexivity.
Defined.

(** C3 fails as stated: with the Redis-cluster configuration the multi-level
    wildcard, which has no character the transport reserves, goes out as
    the same transport pattern as the single-level wildcard and comes back
    in as the single-level wildcard. *)
Lemma redis_cluster_roundtrip_counterexample :
  let a := AbstractAscoltatore.new Topic.mqtt
             RedisClusterAscoltatore.nativeSettings in
  Topic.has_reserved RedisClusterAscoltatore.nativeSettings "#" = false
  /\ AbstractAscoltatore._subTopic a "#" = AbstractAscoltatore._subTopic a "+"
  /\ AbstractAscoltatore._recvTopic a (AbstractAscoltatore._subTopic a "#")
     = "+"
  /\ AbstractAscoltatore._recvTopic a (AbstractAscoltatore._subTopic a "#")
     <> "#"
  /\ AbstractAscoltatore._recvTopic a
       (AbstractAscoltatore._subTopic a "sensors/#")
     <> "sensors/#".
Proof. repeat split; try reflexivity; discriminate. Qed.

(** ** Reference counter *)

Section Counter.

Implicit Types (c : gmap string nat) (p q : string).

Lemma count_add_eq c p :
  SubsCounter.count (SubsCounter.add p c) p = S (SubsCounter.count c p).
Proof.
  unfold SubsCounter.count, SubsCounter.add. now rewrite lookup_insert_eq.
Qed.

Lemma count_add_ne c p q :
  p <> q -> SubsCounter.count (SubsCounter.add p c) q = SubsCounter.count c q.
Proof.
  intros H. unfold SubsCounter.count, SubsCounter.add.
  now rewrite lookup_insert_ne.
Qed.

Lemma count_remove_eq c p :
  SubsCounter.count (SubsCounter.remove p c) p = pred (SubsCounter.count c p).
Proof.
  unfold SubsCounter.remove.
  destruct (SubsCounter.count c p) as [|[|n]] eqn:E.
  - now rewrite E.
  - unfold SubsCounter.count. now rewrite lookup_delete_eq.
  - unfold SubsCounter.count. now rewrite lookup_insert_eq.
Qed.

Lemma count_remove_ne c p q :
  p <> q ->
  SubsCounter.count (SubsCounter.remove p c) q = SubsCounter.count c q.
Proof.
  intros H. unfold SubsCounter.remove.
  destruct (SubsCounter.count c p) as [|[|n]]; [reflexivity| |].
  - unfold SubsCounter.count. now rewrite lookup_delete_ne.
  - unfold SubsCounter.count. now rewrite lookup_insert_ne.
Qed.

Lemma include_count c p :
  SubsCounter.include c p = true <-> 0 < SubsCounter.count c p.
Proof. unfold SubsCounter.include. apply Nat.ltb_lt. Qed.

Lemma not_include_count c p :
  SubsCounter.include c p = false <-> SubsCounter.count c p = 0.
Proof. unfold SubsCounter.include. rewrite Nat.ltb_ge. lia. Qed.

Lemma include_add c p : SubsCounter.include (SubsCounter.add p c) p = true.
Proof. apply include_count. rewrite count_add_eq. lia. Qed.

Lemma count_clear c p : SubsCounter.count (SubsCounter.clear c) p = 0.
Proof. reflexivity. Qed.

End Counter.

(** ** Component steps *)

Lemma raiseIfClosed_open (b : AbstractAscoltatore.t) :
  AbstractAscoltatore._closing b = false ->
  AbstractAscoltatore._closed b = false ->
  AbstractAscoltatore._raiseIfClosed b = (Js.Ok tt, b, []).
Proof.
  intros H1 H2.
  unfold AbstractAscoltatore._raiseIfClosed, Js.bind, Js.get,
    AbstractAscoltatore.state.
  rewrite H1, H2. now destruct (AbstractAscoltatore._ready b).
Qed.

Lemma raiseIfClosed_closed (b : AbstractAscoltatore.t) :
  AbstractAscoltatore._closing b || AbstractAscoltatore._closed b = true ->
  AbstractAscoltatore._raiseIfClosed b = (Js.Throw Js.ClosedError, b, []).
Proof.
  intros H.
  unfold AbstractAscoltatore._raiseIfClosed, Js.bind, Js.get,
    AbstractAscoltatore.state.
  destruct (AbstractAscoltatore._closed b); [reflexivity|].
  rewrite orb_false_r in H. now rewrite H.
Qed.

Lemma trie_subscribe_ok
    (a : TrieAscoltatore.t) (p : string) (cb : Js.Callback) :
  TrieAscoltatore.closed a = false ->
  Topic.valid_pattern (TrieAscoltatore.syntax a) p = true ->
  TrieAscoltatore.subscribe p cb a
  = (Js.Ok tt,
     TrieAscoltatore.with_subscriptions
       (TrieAscoltatore.subscriptions a ++ [(p, cb)]) a, []).
Proof.
  intros H1 H2. unfold TrieAscoltatore.subscribe, Js.bind, Js.get.
  now rewrite H1, H2.
Qed.

Lemma trie_unsubscribe_ok
    (a : TrieAscoltatore.t) (p : string) (cb : Js.Callback) :
  TrieAscoltatore.closed a = false ->
  TrieAscoltatore.unsubscribe p cb a
  = (Js.Ok tt,
     TrieAscoltatore.with_subscriptions
       (TrieAscoltatore.remove_first p cb (TrieAscoltatore.subscriptions a)) a,
     []).
Proof.
  intros H1. unfold TrieAscoltatore.unsubscribe, Js.bind, Js.get.
  now rewrite H1.
Qed.

(** ** AMQP: subscribe and unsubscribe against the reference counter *)

Ltac amqp_open s H :=
  destruct s as [b c e q a cnt ls st];
  unfold AMQPAscoltatore.operational, AMQPAscoltatore.accepts in *;
  cbn [AMQPAscoltatore.base AMQPAscoltatore._client_conn
       AMQPAscoltatore._exchange AMQPAscoltatore._queue
       AMQPAscoltatore._ascoltatore AMQPAscoltatore._subs_counter
       AMQPAscoltatore.conn_listeners AMQPAscoltatore.stage] in *;
  repeat (let H' := fresh "Hop" in apply andb_prop in H as [H H']);
  repeat match goal with
         | H : negb _ = true |- _ => apply negb_true_iff in H
         | H : AMQPAscoltatore.defined ?f = true |- _ =>
             destruct f as [[]|]; [clear H|discriminate H]
         end.

Ltac js_unfold :=
  unfold AMQPAscoltatore.inherited, AMQPAscoltatore.local,
    AMQPAscoltatore.member, AMQPAscoltatore.conn_on,
    AMQPAscoltatore.conn_removeAllListeners,
    RedisClusterAscoltatore.inherited,
    Js.bind, Js.zoom, Js.get, Js.modify, Js.call, Js.ret, Js.throw.

Ltac js_cbn :=
  cbn -[SubsCounter.include SubsCounter.add SubsCounter.remove
        AbstractAscoltatore._subTopic AbstractAscoltatore._pubTopic
        AbstractAscoltatore._recvTopic
        AbstractAscoltatore._raiseIfClosed TrieAscoltatore.subscribe
        TrieAscoltatore.unsubscribe Topic.valid_pattern Str.split
        AMQPAscoltatore.endsWith AMQPAscoltatore.equals
        RedisClusterAscoltatore.ends_in_slash
        RedisClusterAscoltatore.subscription_key
        RedisClusterAscoltatore._containsWildcard
        RedisClusterAscoltatore.ends_in_slash_or_star Str.includes
        TrieAscoltatore.remove_first
        Js.String_ Js.for_each
        AbstractAscoltatore.emit_closed map_to_list
        lookup insert delete fmap].

Section AMQPSteps.

Import AMQPAscoltatore.

Lemma subscribe_first s p cb d :
  operational s = true -> accepts s p = true ->
  SubsCounter.include (_subs_counter s) p = false ->
  subscribe p cb d s
  = (Js.Ok tt,
     with_subs_counter (SubsCounter.add p (_subs_counter s))
       (with_ascoltatore
          (TrieAscoltatore.with_subscriptions
             (TrieAscoltatore.subscriptions (_ascoltatore s) ++ [(p, cb)])
             (_ascoltatore s)) s),
     [Ext.queue_once "queueBindOk" d;
      Ext.queue_bind (AbstractAscoltatore._subTopic (base s) p)]).
Proof.
  intros Hop Hacc Hinc. amqp_open s Hop.
  unfold subscribe. js_unfold. js_cbn.
  rewrite raiseIfClosed_open by assumption.
  rewrite trie_subscribe_ok by assumption.
  js_cbn. rewrite Hinc. reflexivity.
Qed.

Lemma subscribe_again s p cb d :
  operational s = true -> accepts s p = true ->
  SubsCounter.include (_subs_counter s) p = true ->
  subscribe p cb d s
  = (Js.Ok tt,
     with_subs_counter (SubsCounter.add p (_subs_counter s))
       (with_ascoltatore
          (TrieAscoltatore.with_subscriptions
             (TrieAscoltatore.subscriptions (_ascoltatore s) ++ [(p, cb)])
             (_ascoltatore s)) s),
     [Ext.defer d]).
Proof.
  intros Hop Hacc Hinc. amqp_open s Hop.
  unfold subscribe. js_unfold. js_cbn.
  rewrite raiseIfClosed_open by assumption.
  rewrite trie_subscribe_ok by assumption.
  js_cbn. rewrite Hinc. reflexivity.
Qed.

Lemma unsubscribe_shared s p cb d :
  operational s = true ->
  2 <= SubsCounter.count (_subs_counter s) p ->
  unsubscribe p cb d s
  = (Js.Ok tt,
     with_ascoltatore
       (TrieAscoltatore.with_subscriptions
          (TrieAscoltatore.remove_first p cb
             (TrieAscoltatore.subscriptions (_ascoltatore s)))
          (_ascoltatore s))
       (with_subs_counter (SubsCounter.remove p (_subs_counter s)) s),
     [Ext.defer d]).
Proof.
  intros Hop Hcnt. amqp_open s Hop.
  unfold unsubscribe. js_unfold. js_cbn.
  rewrite raiseIfClosed_open by assumption.
  rewrite trie_unsubscribe_ok by assumption.
  js_cbn.
  assert (SubsCounter.include (SubsCounter.remove p cnt) p = true) as ->.
  { apply include_count. rewrite count_remove_eq. lia. }
  reflexivity.
Qed.

Lemma unsubscribe_last s p cb d :
  operational s = true ->
  SubsCounter.count (_subs_counter s) p <= 1 ->
  unsubscribe p cb d s
  = (Js.Ok tt,
     with_ascoltatore
       (TrieAscoltatore.with_subscriptions
          (TrieAscoltatore.remove_first p cb
             (TrieAscoltatore.subscriptions (_ascoltatore s)))
          (_ascoltatore s))
       (with_subs_counter (SubsCounter.remove p (_subs_counter s)) s),
     [Ext.queue_once "queueUnbindOk" d;
      Ext.queue_unbind (AbstractAscoltatore._subTopic (base s) p)]).
Proof.
  intros Hop Hcnt. amqp_open s Hop.
  unfold unsubscribe. js_unfold. js_cbn.
  rewrite raiseIfClosed_open by assumption.
  rewrite trie_unsubscribe_ok by assumption.
  js_cbn.
  assert (SubsCounter.include (SubsCounter.remove p cnt) p = false) as ->.
  { apply not_include_count. rewrite count_remove_eq. lia. }
  reflexivity.
Qed.

Lemma filter_map_none {A B} (f : B -> bool) (g : A -> B) (l : list A) :
  (forall x, f (g x) = false) -> List.filter f (map g l) = [].
Proof.
  intros H. induction l as [|x l IH]; [reflexivity|].
  cbn [map List.filter]. now rewrite H.
Qed.

Lemma for_each_log {S E A} (f : A -> E) (l : list A) (s : S) :
  Js.for_each (fun x s => (Js.Ok tt, s, [f x])) l s = (Js.Ok tt, s, map f l).
Proof.
  induction l as [|x l IH]; [reflexivity|].
  cbn [Js.for_each map]. unfold Js.bind at 1. now rewrite IH.
Qed.

Lemma for_each_call {S E A} (f : A -> E) (l : list A) (s : S) :
  Js.for_each (fun x => Js.call (f x)) l s = (Js.Ok tt, s, map f l).
Proof. apply for_each_log. Qed.

Lemma emit_closed_run (b : AbstractAscoltatore.t) :
  AbstractAscoltatore.emit_closed b
  = (Js.Ok tt, AbstractAscoltatore.set_closed true b,
     Ext.emit "closed" None
       :: map (fun d => Ext.invoke (Some d))
            (AbstractAscoltatore.closed_listeners b)).
Proof.
  unfold AbstractAscoltatore.emit_closed.
  unfold Js.bind at 1. cbn [Js.modify].
  unfold Js.bind at 1. cbn [Js.call].
  unfold Js.bind at 1. cbn [Js.get].
  now rewrite for_each_call.
Qed.

Lemma close_first s d :
  operational s = true ->
  close d s
  = (Js.Ok tt,
     with_handles None None None
       (with_conn_listeners
          (List.filter (fun el => negb (String.eqb el.1 "error"))
             (conn_listeners s ++ [("close", DoClose d)])
           ++ [("error", DoClose d)])
          (with_base (AbstractAscoltatore.set_closing true (base s)) s)),
     [Ext.queue_destroy; Ext.conn_end]).
Proof.
  intros Hop. amqp_open s Hop.
  unfold close. js_unfold. js_cbn. rewrite Hop, Hop4. reflexivity.
Qed.

Lemma close_in_flight s d :
  AbstractAscoltatore._closed (base s) = false ->
  AbstractAscoltatore._closing (base s) = true ->
  close (Some d) s
  = (Js.Ok tt, with_base (AbstractAscoltatore.on_closed d (base s)) s, []).
Proof.
  intros H1 H2. destruct s. cbn [base] in *.
  unfold close. js_unfold. js_cbn. rewrite H1, H2. reflexivity.
Qed.

Lemma close_after_closed s d :
  AbstractAscoltatore._closed (base s) = true ->
  close d s = (Js.Ok tt, s, [Ext.invoke d]).
Proof.
  intros H1. destruct s. cbn [base] in *.
  unfold close. js_unfold. js_cbn. rewrite H1. reflexivity.
Qed.

Lemma do_close_run s cause d :
  AbstractAscoltatore._closed (base s) = false ->
  run_listener cause (DoClose d) s
  = (Js.Ok tt,
     with_base (AbstractAscoltatore.set_closed true (base s)) s,
     Ext.defer d :: Ext.emit "closed" None
       :: map (fun d => Ext.invoke (Some d))
            (AbstractAscoltatore.closed_listeners (base s))).
Proof.
  intros H1. destruct s. cbn [base] in *.
  unfold run_listener. js_unfold. cbn [base]. rewrite H1.
  cbn [base with_base]. rewrite emit_closed_run. reflexivity.
Qed.

Lemma conn_close_finalizes s d :
  AbstractAscoltatore._closed (base s) = false ->
  listeners_for "close" s = [DoClose d] ->
  on_event ConnClose s
  = (Js.Ok tt,
     with_base (AbstractAscoltatore.set_closed true (base s)) s,
     Ext.defer d :: Ext.emit "closed" None
       :: map (fun d => Ext.invoke (Some d))
            (AbstractAscoltatore.closed_listeners (base s))).
Proof.
  intros H1 Hl. unfold on_event. unfold Js.bind at 1. cbn [Js.get].
  assert (E : Js.for_each (run_listener None) (listeners_for "close" s) s
              = (Js.Ok tt,
                 with_base (AbstractAscoltatore.set_closed true (base s)) s,
                 Ext.defer d :: Ext.emit "closed" None
                   :: map (fun d => Ext.invoke (Some d))
                        (AbstractAscoltatore.closed_listeners (base s)))).
  { rewrite Hl. cbn [Js.for_each]. unfold Js.bind.
    rewrite do_close_run by assumption. cbn [Js.ret].
    now rewrite app_nil_r. }
  destruct (stage s); rewrite E; reflexivity.
Qed.

Lemma do_close_twice s cause d :
  AbstractAscoltatore._closed (base s) = true ->
  run_listener cause (DoClose d) s = (Js.Ok tt, s, []).
Proof.
  intros H1. unfold run_listener. js_unfold. now rewrite H1.
Qed.



Lemma conn_error_finalizes s cause d :
  AbstractAscoltatore._closed (base s) = false ->
  listeners_for "error" s = [DoClose d] ->
  on_event (ConnError cause) s
  = (Js.Ok tt,
     with_base (AbstractAscoltatore.set_closed true (base s)) s,
     Ext.defer d :: Ext.emit "closed" None
       :: map (fun d => Ext.invoke (Some d))
            (AbstractAscoltatore.closed_listeners (base s))).
Proof.
  intros H1 Hl. unfold on_event. unfold Js.bind at 1. cbn [Js.get].
  assert (E : Js.for_each (run_listener (Some cause))
                (listeners_for "error" s) s
              = (Js.Ok tt,
                 with_base (AbstractAscoltatore.set_closed true (base s)) s,
                 Ext.defer d :: Ext.emit "closed" None
                   :: map (fun d => Ext.invoke (Some d))
                        (AbstractAscoltatore.closed_listeners (base s)))).
  { rewrite Hl. cbn [Js.for_each]. unfold Js.bind.
    rewrite do_close_run by assumption. cbn [Js.ret].
    now rewrite app_nil_r. }
  destruct (stage s); rewrite E; reflexivity.
Qed.

End AMQPSteps.

(** C1: on an open AMQP instance whose counter does not yet include [p],
    subscribing [p] twice binds the queue exactly once, the first of two
    unsubscribes unbinds nothing, and the second one unbinds once. *)
Theorem amqp_reference_counting
    (s : AMQPAscoltatore.t) (p : string) (cb1 cb2 u1 u2 : Js.Callback)
    (d1 d2 d3 d4 : option Js.Callback) :
  AMQPAscoltatore.operational s = true ->
  AMQPAscoltatore.accepts s p = true ->
  SubsCounter.include (AMQPAscoltatore._subs_counter s) p = false ->
  let key := AbstractAscoltatore._subTopic (AMQPAscoltatore.base s) p in
  let r1 := AMQPAscoltatore.subscribe p cb1 d1 s in
  let r2 := AMQPAscoltatore.subscribe p cb2 d2 (Js.state r1) in
  let r3 := AMQPAscoltatore.unsubscribe p u1 d3 (Js.state r2) in
  let r4 := AMQPAscoltatore.unsubscribe p u2 d4 (Js.state r3) in
  Js.result r1 = Js.Ok tt /\ Js.result r2 = Js.Ok tt
  /\ Js.result r3 = Js.Ok tt /\ Js.result r4 = Js.Ok tt
  /\ List.filter Ext.is_transport_subscribe (Js.calls r1 ++ Js.calls r2)
     = [Ext.queue_bind key]
  /\ List.filter Ext.is_transport_unsubscribe
       (Js.calls r1 ++ Js.calls r2 ++ Js.calls r3) = []
  /\ List.filter Ext.is_transport_unsubscribe (Js.calls r4)
     = [Ext.queue_unbind key]
  /\ List.filter Ext.is_transport_subscribe (Js.calls r3 ++ Js.calls r4) = []
  /\ SubsCounter.include
       (AMQPAscoltatore._subs_counter (Js.state r4)) p = false.
Proof.
  intros Hop Hacc Hinc key r1 r2 r3 r4.
  assert (Hzero : SubsCounter.count (AMQPAscoltatore._subs_counter s) p = 0)
    by now apply not_include_count.
  assert (E1 := subscribe_first s p cb1 d1 Hop Hacc Hinc).
  fold r1 in E1.
  assert (E2 : r2 = AMQPAscoltatore.subscribe p cb2 d2 (Js.state r1))
    by reflexivity.
  rewrite E1 in E2. unfold Js.state in E2. cbn [fst snd] in E2.
  rewrite subscribe_again in E2;
    [| exact Hop | exact Hacc | apply include_add].
  assert (E3 : r3 = AMQPAscoltatore.unsubscribe p u1 d3 (Js.state r2))
    by reflexivity.
  rewrite E2 in E3. unfold Js.state in E3. cbn [fst snd] in E3.
  rewrite unsubscribe_shared in E3;
    [| exact Hop
     | cbn [AMQPAscoltatore._subs_counter AMQPAscoltatore.with_subs_counter
            AMQPAscoltatore.with_ascoltatore];
       rewrite !count_add_eq; lia].
  assert (E4 : r4 = AMQPAscoltatore.unsubscribe p u2 d4 (Js.state r3))
    by reflexivity.
  rewrite E3 in E4. unfold Js.state in E4. cbn [fst snd] in E4.
  rewrite unsubscribe_last in E4;
    [| exact Hop
     | cbn [AMQPAscoltatore._subs_counter AMQPAscoltatore.with_subs_counter
            AMQPAscoltatore.with_ascoltatore];
       rewrite count_remove_eq, !count_add_eq; lia].
  rewrite E1, E2, E3, E4.
  repeat split.
  unfold Js.state. cbn [fst snd AMQPAscoltatore._subs_counter
    AMQPAscoltatore.with_subs_counter AMQPAscoltatore.with_ascoltatore].
  apply not_include_count.
  rewrite !count_remove_eq, !count_add_eq. lia.
Qed.

Lemma amqp_reference_counting_witness :
  let s := AMQPAscoltatore.started Topic.mqtt in
  let r1 := AMQPAscoltatore.subscribe "sensors/+/temp" 1 None s in
  let r2 := AMQPAscoltatore.subscribe "sensors/+/temp" 2 None (Js.state r1) in
  let r3 := AMQPAscoltatore.unsubscribe "sensors/+/temp" 2 None (Js.state r2) in
  let r4 := AMQPAscoltatore.unsubscribe "sensors/+/temp" 1 None (Js.state r3) in
  List.filter Ext.is_transport_subscribe (Js.calls r1 ++ Js.calls r2)
  = [Ext.queue_bind "sensors.*.temp"]
  /\ List.filter Ext.is_transport_unsubscribe (Js.calls r3) = []
  /\ List.filter Ext.is_transport_unsubscribe (Js.calls r4)
     = [Ext.queue_unbind "sensors.*.temp"].
Proof.
  pose proof (amqp_reference_counting (AMQPAscoltatore.started Topic.mqtt)
                "sensors/+/temp" 1 2 2 1 None None None None
                eq_refl eq_refl eq_refl) as H.
  cbv zeta in H |- *.
  destruct H as (_ & _ & _ & _ & Hsub & _ & Hunsub & _ & _).
  split; [exact Hsub | split; [reflexivity | exact Hunsub]].
Defined.

(** ** Redis cluster: close *)

Section RedisClose.

Import RedisClusterAscoltatore.

Lemma redis_close_first s d :
  AbstractAscoltatore._closed (base s) = false ->
  close d s
  = (Js.Ok tt,
     with_base (AbstractAscoltatore.set_closed true (base s))
       (with_ascoltatores ∅
          (with_subs_counter (SubsCounter.clear (_subs_counter s)) s)),
     Ext.rc_disconnect d
       :: map Ext.trie_close (map fst (map_to_list (_ascoltatores s)))
       ++ Ext.emit "closed" None
       :: map (fun d => Ext.invoke (Some d))
            (AbstractAscoltatore.closed_listeners (base s))).
Proof.
  intros H. destruct s as [b m dom cnt]. cbn [base] in H.
  unfold close. js_unfold. js_cbn. rewrite H.
  rewrite for_each_log. js_cbn. rewrite emit_closed_run.
  reflexivity.
Qed.

Lemma redis_close_after_closed s d :
  AbstractAscoltatore._closed (base s) = true ->
  close d s = (Js.Ok tt, s, [Ext.defer d]).
Proof.
  intros H. destruct s as [b m dom cnt]. cbn [base] in H.
  unfold close. js_unfold. js_cbn. now rewrite H.
Qed.

Lemma redis_close_clears s d :
  AbstractAscoltatore._closed (base s) = false ->
  let r := close d s in
  AbstractAscoltatore._closed (base (Js.state r)) = true
  /\ _subs_counter (Js.state r) = ∅
  /\ _ascoltatores (Js.state r) = ∅
  /\ forall key, is_Some (_ascoltatores s !! key) ->
                 In (Ext.trie_close key) (Js.calls r).
Proof.
  intros H r. subst r. rewrite redis_close_first by assumption.
  repeat split. intros key [a Ha].
  unfold Js.calls. cbn [snd]. right. apply in_or_app. left.
  apply in_map, in_map_iff. exists (key, a). split; [reflexivity|].
  apply list_elem_of_In, elem_of_map_to_list. exact Ha.
Qed.

End RedisClose.

(** ** AMQP: what close leaves behind *)

Section AMQPClose.

Import AMQPAscoltatore.

Lemma close_same_subscriptions s d :
  same_subscriptions s (Js.state (close d s)).
Proof.
  destruct s as [b c e q a cnt ls st]. unfold close. js_unfold. js_cbn.
  destruct (AbstractAscoltatore._closed b); [now split|].
  destruct (AbstractAscoltatore._closing b).
  - destruct d; now split.
  - js_cbn. destruct c; [|now split]. js_cbn. destruct q; now split.
Qed.




End AMQPClose.

(** C2 (as the code has it): after [close()] has completed on an AMQP
    instance with one subscription, the reference counter still includes the
    pattern and the local index still holds the subscription, whereas the
    Redis-cluster adapter, in the same scenario, ends with both cleared. *)
Lemma amqp_close_keeps_counter_and_index :
  let s1 :=
    Js.state (AMQPAscoltatore.subscribe "hello" 1 None
                (AMQPAscoltatore.started Topic.mqtt)) in
  let s2 := Js.state (AMQPAscoltatore.close (Some 9) s1) in
  let s3 :=
    Js.state (AMQPAscoltatore.on_event AMQPAscoltatore.ConnClose s2) in
  let t1 :=
    Js.state (RedisClusterAscoltatore.subscribe "hello" 1 None
                (RedisClusterAscoltatore.new Topic.mqtt)) in
  let t2 := Js.state (RedisClusterAscoltatore.close (Some 9) t1) in
  AbstractAscoltatore._closed (AMQPAscoltatore.base s3) = true
  /\ SubsCounter.include (AMQPAscoltatore._subs_counter s3) "hello" = true
  /\ TrieAscoltatore.subscriptions (AMQPAscoltatore._ascoltatore s3)
     = [("hello", 1)]
  /\ TrieAscoltatore.closed (AMQPAscoltatore._ascoltatore s3) = false
  /\ AbstractAscoltatore._closed (RedisClusterAscoltatore.base t2) = true
  /\ RedisClusterAscoltatore._subs_counter t2 = ∅
  /\ RedisClusterAscoltatore._ascoltatores t2 = ∅.
Proof. vm_compute. repeat split. Qed.

(** C5: on an open AMQP instance the first [close] runs the shutdown, a
    second one issued before the connection has closed only attaches its
    completion, which fires with the closed notification, and one issued
    after that completes at once and changes nothing; on a Redis-cluster
    instance the first [close] disconnects and reaches closed, and a second
    one only completes. *)
Theorem close_twice_one_shutdown
    (s : AMQPAscoltatore.t) (r : RedisClusterAscoltatore.t)
    (d1 d3 : option Js.Callback) (d2 : Js.Callback) :
  AMQPAscoltatore.operational s = true ->
  AMQPAscoltatore.conn_listeners s = [("error", AMQPAscoltatore.EmitError)] ->
  AbstractAscoltatore._closed (RedisClusterAscoltatore.base r) = false ->
  let a1 := AMQPAscoltatore.close d1 s in
  let a2 := AMQPAscoltatore.close (Some d2) (Js.state a1) in
  let a3 := AMQPAscoltatore.on_event AMQPAscoltatore.ConnClose (Js.state a2) in
  let a4 := AMQPAscoltatore.close d3 (Js.state a3) in
  let r1 := RedisClusterAscoltatore.close d1 r in
  let r2 := RedisClusterAscoltatore.close d3 (Js.state r1) in
  Js.calls a1 = [Ext.queue_destroy; Ext.conn_end]
  /\ AbstractAscoltatore.state (AMQPAscoltatore.base (Js.state a1))
     = AbstractAscoltatore.closing
  /\ a2 = (Js.Ok tt,
           AMQPAscoltatore.with_base
             (AbstractAscoltatore.on_closed d2
                (AMQPAscoltatore.base (Js.state a1))) (Js.state a1),
           [])
  /\ Js.calls a3
     = Ext.defer d1 :: Ext.emit "closed" None
         :: map (fun d => Ext.invoke (Some d))
              (AbstractAscoltatore.closed_listeners (AMQPAscoltatore.base s)
               ++ [d2])
  /\ AbstractAscoltatore.state (AMQPAscoltatore.base (Js.state a3))
     = AbstractAscoltatore.closedState
  /\ a4 = (Js.Ok tt, Js.state a3, [Ext.invoke d3])
  /\ List.filter Ext.is_shutdown (Js.calls r1) = [Ext.rc_disconnect d1]
  /\ AbstractAscoltatore.state (RedisClusterAscoltatore.base (Js.state r1))
     = AbstractAscoltatore.closedState
  /\ r2 = (Js.Ok tt, Js.state r1, [Ext.defer d3]).
Proof.
  intros Hop Hls Hr.
  assert (Hflags : AbstractAscoltatore._closing (AMQPAscoltatore.base s) = false
                   /\ AbstractAscoltatore._closed (AMQPAscoltatore.base s) = false).
  { clear -Hop. amqp_open s Hop. now split. }
  destruct Hflags as [Hclosing Hclosed].
  cbv zeta.
  rewrite (close_first s d1 Hop).
  cbn [Js.state Js.calls fst snd].
  rewrite close_in_flight by (try exact Hclosed; reflexivity).
  cbn [Js.state Js.calls fst snd].
  rewrite (conn_close_finalizes _ d1)
    by (try exact Hclosed; cbn; rewrite Hls; reflexivity).
  cbn [Js.state Js.calls fst snd].
  rewrite close_after_closed by reflexivity.
  rewrite (redis_close_first r d1 Hr).
  cbn [Js.state Js.calls fst snd].
  rewrite redis_close_after_closed by reflexivity.
  repeat split.
  - unfold AbstractAscoltatore.state. cbn. now rewrite Hclosed.
  - cbn [List.filter Ext.is_shutdown]. f_equal.
    rewrite List.filter_app. cbn [List.filter Ext.is_shutdown].
    now rewrite !filter_map_none.
Qed.

Lemma close_twice_one_shutdown_witness :
  let s := AMQPAscoltatore.started Topic.mqtt in
  let a1 := AMQPAscoltatore.close (Some 1) s in
  let a2 := AMQPAscoltatore.close (Some 2) (Js.state a1) in
  let a3 := AMQPAscoltatore.on_event AMQPAscoltatore.ConnClose (Js.state a2) in
  let a4 := AMQPAscoltatore.close (Some 3) (Js.state a3) in
  Js.calls a1 = [Ext.queue_destroy; Ext.conn_end]
  /\ Js.calls a2 = []
  /\ Js.calls a3
     = [Ext.defer (Some 1); Ext.emit "closed" None; Ext.invoke (Some 2)]
  /\ a4 = (Js.Ok tt, Js.state a3, [Ext.invoke (Some 3)]).
Proof.
  pose proof (close_twice_one_shutdown (AMQPAscoltatore.started Topic.mqtt)
                (RedisClusterAscoltatore.new Topic.mqtt) (Some 1) (Some 3) 2
                eq_refl eq_refl eq_refl) as H.
  cbv zeta in H |- *.
  destruct H as (H1 & _ & H2 & H3 & _ & H4 & _).
  split; [exact H1|]. split; [exact (f_equal Js.calls H2)|].
  split; [exact H3|exact H4].
Defined.

(** ** Payloads handed to the transport *)

Lemma amqp_publish_run rt s topic m done :
  AMQPAscoltatore.operational s = true ->
  exists forwards,
    AMQPAscoltatore.publish rt topic m done s
    = (Js.Ok tt, s,
       forwards
       ++ [Ext.exchange_publish
             (AbstractAscoltatore._pubTopic (AMQPAscoltatore.base s) topic)
             (Js.String_ rt m) AMQPAscoltatore.oneMinute;
           Ext.defer done])
    /\ (forwards = []
        \/ exists queue headers,
             forwards
             = [Ext.conn_publish queue m headers AMQPAscoltatore.oneMinute]).
Proof.
  intros Hop. amqp_open s Hop.
  unfold AMQPAscoltatore.publish. js_unfold. js_cbn.
  rewrite raiseIfClosed_open by assumption. js_cbn.
  repeat match goal with
         | |- context [AMQPAscoltatore.equals ?x ?y] =>
             destruct (AMQPAscoltatore.equals x y)
         | |- context [AMQPAscoltatore.endsWith ?x ?y] =>
             destruct (AMQPAscoltatore.endsWith x y)
         end;
    js_cbn;
    first [ exists []; split; [reflexivity | now left]
          | eexists [_]; split; [reflexivity | right; eauto] ].
Qed.

Lemma redis_publish_run s topic m done :
  AbstractAscoltatore._closing (RedisClusterAscoltatore.base s) = false ->
  AbstractAscoltatore._closed (RedisClusterAscoltatore.base s) = false ->
  let key :=
    AbstractAscoltatore._pubTopic (RedisClusterAscoltatore.base s) topic in
  RedisClusterAscoltatore.publish topic m done s
  = (Js.Ok tt, s,
     [Ext.console_log m;
      Ext.rc_publish
        (if negb (RedisClusterAscoltatore.ends_in_slash key)
         then key +:+ "/" else key)
        (match m with
         | Js.Undefined | Js.Null => Js.Bool false
         | _ => m
         end) done]).
Proof.
  intros H1 H2. destruct s as [b mp dom cnt].
  cbn [RedisClusterAscoltatore.base] in *.
  unfold RedisClusterAscoltatore.publish. js_unfold. js_cbn.
  rewrite raiseIfClosed_open by assumption. reflexivity.
Qed.

(** C6 (as amended): the Redis-cluster adapter hands the payload to the
    transport's publish unchanged unless it is null or undefined, which it
    replaces by [false]; the AMQP adapter hands [String(m)] to the exchange,
    which is the payload itself when that is a string, and hands the payload
    unchanged to the auxiliary queue when it forwards to one. *)
Theorem publish_payloads
    (rt : Js.Runtime) (s : AMQPAscoltatore.t) (r : RedisClusterAscoltatore.t)
    (topic : string) (m : Js.Value) (done : option Js.Callback) :
  AMQPAscoltatore.operational s = true ->
  AbstractAscoltatore.state (RedisClusterAscoltatore.base r)
  = AbstractAscoltatore.ready ->
  omap Ext.published_payload
    (Js.calls (RedisClusterAscoltatore.publish topic m done r))
  = [match m with
     | Js.Undefined | Js.Null => Js.Bool false
     | _ => m
     end]
  /\ (omap Ext.published_payload
        (Js.calls (AMQPAscoltatore.publish rt topic m done s))
      = [Js.Str (Js.String_ rt m)]
      \/ omap Ext.published_payload
           (Js.calls (AMQPAscoltatore.publish rt topic m done s))
         = [m; Js.Str (Js.String_ rt m)])
  /\ (forall str, m = Js.Str str -> Js.Str (Js.String_ rt m) = m).
Proof.
  intros Hop Hr.
  assert (Hflags : AbstractAscoltatore._closing (RedisClusterAscoltatore.base r) = false
                   /\ AbstractAscoltatore._closed (RedisClusterAscoltatore.base r) = false).
  { unfold AbstractAscoltatore.state in Hr.
    destruct (AbstractAscoltatore._closed _); [discriminate|].
    destruct (AbstractAscoltatore._closing _); [discriminate|]. now split. }
  destruct Hflags as [H1 H2].
  split; [|split].
  - rewrite redis_publish_run by assumption. reflexivity.
  - destruct (amqp_publish_run rt s topic m done Hop) as [fw [-> Hfw]].
    unfold Js.calls. cbn [snd].
    destruct Hfw as [-> | [queue [headers ->]]]; [left|right]; reflexivity.
  - intros str ->. reflexivity.
Qed.

Lemma publish_payloads_witness :
  omap Ext.published_payload
    (Js.calls (RedisClusterAscoltatore.publish "image"
                 (Js.Buffer [Byte.x89; Byte.x50])
                 None (RedisClusterAscoltatore.started Topic.mqtt)))
  = [Js.Buffer [Byte.x89; Byte.x50]].
Proof.
  exact (proj1 (publish_payloads Js.example_runtime
                  (AMQPAscoltatore.started Topic.mqtt)
                  (RedisClusterAscoltatore.started Topic.mqtt)
                  "image" (Js.Buffer [Byte.x89; Byte.x50]) None
                  eq_refl eq_refl)).
Defined.

(** C6 fails as stated: a null payload reaches the Redis cluster as [false]
    and the AMQP exchange as the string ["null"]. *)
Lemma publish_null_counterexample :
  omap Ext.published_payload
    (Js.calls (RedisClusterAscoltatore.publish "hello" Js.Null None
                 (RedisClusterAscoltatore.started Topic.mqtt)))
  = [Js.Bool false]
  /\ omap Ext.published_payload
       (Js.calls (RedisClusterAscoltatore.publish "hello" Js.Null None
                    (RedisClusterAscoltatore.started Topic.mqtt)))
     <> [Js.Null]
  /\ omap Ext.published_payload
       (Js.calls (AMQPAscoltatore.publish Js.example_runtime "hello" Js.Null
                    None (AMQPAscoltatore.started Topic.mqtt)))
     = [Js.Str "null"].
Proof. vm_compute. repeat split. discriminate. Qed.

(** ** Operations once close has begun *)

Section AfterClose.

Lemma raiseIfClosed_begun (b : AbstractAscoltatore.t) :
  AbstractAscoltatore.close_begun b = true ->
  AbstractAscoltatore._raiseIfClosed b = (Js.Throw Js.ClosedError, b, []).
Proof. apply raiseIfClosed_closed. Qed.

Lemma amqp_subscribe_rejected s topic cb done :
  AbstractAscoltatore.close_begun (AMQPAscoltatore.base s) = true ->
  AMQPAscoltatore.subscribe topic cb done s = (Js.Throw Js.ClosedError, s, []).
Proof.
  intros H. destruct s. cbn [AMQPAscoltatore.base] in H.
  unfold AMQPAscoltatore.subscribe. js_unfold. js_cbn.
  now rewrite raiseIfClosed_begun.
Qed.

Lemma amqp_unsubscribe_rejected s topic cb done :
  AbstractAscoltatore.close_begun (AMQPAscoltatore.base s) = true ->
  AMQPAscoltatore.unsubscribe topic cb done s
  = (Js.Throw Js.ClosedError, s, []).
Proof.
  intros H. destruct s. cbn [AMQPAscoltatore.base] in H.
  unfold AMQPAscoltatore.unsubscribe. js_unfold. js_cbn.
  now rewrite raiseIfClosed_begun.
Qed.

Lemma amqp_publish_rejected rt s topic m done :
  AbstractAscoltatore.close_begun (AMQPAscoltatore.base s) = true ->
  AMQPAscoltatore.publish rt topic m done s
  = (Js.Throw Js.ClosedError, s, []).
Proof.
  intros H. destruct s. cbn [AMQPAscoltatore.base] in H.
  unfold AMQPAscoltatore.publish. js_unfold. js_cbn.
  now rewrite raiseIfClosed_begun.
Qed.

Lemma redis_subscribe_rejected s topic cb done :
  AbstractAscoltatore.close_begun (RedisClusterAscoltatore.base s) = true ->
  RedisClusterAscoltatore.subscribe topic cb done s
  = (Js.Throw Js.ClosedError, s, []).
Proof.
  intros H. destruct s. cbn [RedisClusterAscoltatore.base] in H.
  unfold RedisClusterAscoltatore.subscribe. js_unfold. js_cbn.
  now rewrite raiseIfClosed_begun.
Qed.

Lemma redis_unsubscribe_rejected s topic cb done :
  AbstractAscoltatore.close_begun (RedisClusterAscoltatore.base s) = true ->
  RedisClusterAscoltatore.unsubscribe topic cb done s
  = (Js.Throw Js.ClosedError, s, []).
Proof.
  intros H. destruct s. cbn [RedisClusterAscoltatore.base] in H.
  unfold RedisClusterAscoltatore.unsubscribe. js_unfold. js_cbn.
  now rewrite raiseIfClosed_begun.
Qed.

Lemma redis_publish_rejected s topic m done :
  AbstractAscoltatore.close_begun (RedisClusterAscoltatore.base s) = true ->
  RedisClusterAscoltatore.publish topic m done s
  = (Js.Throw Js.ClosedError, s, [Ext.console_log m]).
Proof.
  intros H. destruct s. cbn [RedisClusterAscoltatore.base] in H.
  unfold RedisClusterAscoltatore.publish. js_unfold. js_cbn.
  now rewrite raiseIfClosed_begun.
Qed.

(** [close] leaves the instance closing or closed, whatever it found. *)
Lemma amqp_close_begins s d :
  AbstractAscoltatore.close_begun
    (AMQPAscoltatore.base (Js.state (AMQPAscoltatore.close d s))) = true.
Proof.
  destruct s as [b c e q a cnt ls st].
  unfold AMQPAscoltatore.close, AbstractAscoltatore.close_begun.
  js_unfold. js_cbn.
  destruct (AbstractAscoltatore._closed b) eqn:E1.
  - js_cbn. rewrite E1. apply orb_true_r.
  - destruct (AbstractAscoltatore._closing b) eqn:E2.
    + destruct d; js_cbn; now rewrite E2.
    + js_cbn. destruct c; [|reflexivity]. js_cbn. destruct q; reflexivity.
Qed.

Lemma redis_close_begins s d :
  AbstractAscoltatore.close_begun
    (RedisClusterAscoltatore.base
       (Js.state (RedisClusterAscoltatore.close d s))) = true.
Proof.
  unfold AbstractAscoltatore.close_begun.
  destruct (AbstractAscoltatore._closed (RedisClusterAscoltatore.base s)) eqn:E.
  - rewrite redis_close_after_closed by assumption.
    cbn [Js.state fst snd]. rewrite E. apply orb_true_r.
  - rewrite redis_close_first by assumption. apply orb_true_r.
Qed.

End AfterClose.

Section Stability.

Lemma close_begun_set_closed b :
  AbstractAscoltatore.close_begun (AbstractAscoltatore.set_closed true b)
  = true.
Proof. apply orb_true_r. Qed.

Lemma amqp_listener_close_begun s cause l :
  AbstractAscoltatore.close_begun (AMQPAscoltatore.base s) = true ->
  AbstractAscoltatore.close_begun
    (AMQPAscoltatore.base
       (Js.state (AMQPAscoltatore.run_listener cause l s))) = true.
Proof.
  intros H. destruct l as [|d].
  - destruct s, cause; exact H.
  - destruct (AbstractAscoltatore._closed (AMQPAscoltatore.base s)) eqn:E.
    + now rewrite do_close_twice.
    + rewrite do_close_run by assumption. apply close_begun_set_closed.
Qed.

Lemma amqp_listeners_close_begun cause (l : list AMQPAscoltatore.Listener) s :
  AbstractAscoltatore.close_begun (AMQPAscoltatore.base s) = true ->
  AbstractAscoltatore.close_begun
    (AMQPAscoltatore.base
       (Js.state (Js.for_each (AMQPAscoltatore.run_listener cause) l s)))
  = true.
Proof.
  revert s. induction l as [|x l IH]; intros s H; [exact H|].
  cbn [Js.for_each]. unfold Js.bind.
  pose proof (amqp_listener_close_begun s cause x H) as H1.
  destruct (AMQPAscoltatore.run_listener cause x s) as [[[u|err] s1] l1].
  - pose proof (IH s1 H1) as H2.
    destruct (Js.for_each (AMQPAscoltatore.run_listener cause) l s1)
      as [[r s2] l2].
    exact H2.
  - exact H1.
Qed.

Lemma amqp_on_event_close_begun s ev :
  AbstractAscoltatore.close_begun (AMQPAscoltatore.base s) = true ->
  AbstractAscoltatore.close_begun
    (AMQPAscoltatore.base (Js.state (AMQPAscoltatore.on_event ev s))) = true.
Proof.
  intros H. unfold AMQPAscoltatore.on_event. unfold Js.bind at 1.
  cbn [Js.get]. destruct ev.
  1-5: destruct s as [b c e q a cnt ls []]; try exact H;
       js_unfold; js_cbn; try exact H;
       destruct q as [[]|]; exact H.
  - assert (H1 := amqp_listeners_close_begun (Some cause)
                    (AMQPAscoltatore.listeners_for "error" s) s H).
    destruct (AMQPAscoltatore.stage s);
      destruct (Js.for_each _ _ s) as [[r s1] l1]; exact H1.
  - assert (H1 := amqp_listeners_close_begun None
                    (AMQPAscoltatore.listeners_for "close" s) s H).
    destruct (AMQPAscoltatore.stage s);
      destruct (Js.for_each _ _ s) as [[r s1] l1]; exact H1.
  - destruct s as [b c e q a cnt ls st]. js_unfold. js_cbn.
    destruct st; destruct q; exact H.
Qed.

Lemma amqp_step_close_begun rt o s :
  AbstractAscoltatore.close_begun (AMQPAscoltatore.base s) = true ->
  AbstractAscoltatore.close_begun
    (AMQPAscoltatore.base (Js.state (AMQPAscoltatore.step rt o s))) = true.
Proof.
  intros H. destruct o; cbn [AMQPAscoltatore.step].
  - now rewrite amqp_subscribe_rejected.
  - now rewrite amqp_unsubscribe_rejected.
  - now rewrite amqp_publish_rejected.
  - apply amqp_close_begins.
  - now apply amqp_on_event_close_begun.
Qed.

Lemma amqp_run_close_begun rt ops s :
  AbstractAscoltatore.close_begun (AMQPAscoltatore.base s) = true ->
  AbstractAscoltatore.close_begun
    (AMQPAscoltatore.base (AMQPAscoltatore.run rt ops s).1) = true.
Proof.
  revert s. induction ops as [|o ops IH]; intros s H; [exact H|].
  cbn [AMQPAscoltatore.run].
  pose proof (amqp_step_close_begun rt o s H) as H1.
  destruct (AMQPAscoltatore.step rt o s) as [[r s1] l1].
  pose proof (IH s1 H1) as H2.
  destruct (AMQPAscoltatore.run rt ops s1) as [s2 rest]. exact H2.
Qed.

Lemma redis_step_close_begun o s :
  AbstractAscoltatore.close_begun (RedisClusterAscoltatore.base s) = true ->
  AbstractAscoltatore.close_begun
    (RedisClusterAscoltatore.base
       (Js.state (RedisClusterAscoltatore.step o s))) = true.
Proof.
  intros H. destruct o; cbn [RedisClusterAscoltatore.step].
  - now rewrite redis_subscribe_rejected.
  - now rewrite redis_unsubscribe_rejected.
  - now rewrite redis_publish_rejected.
  - apply redis_close_begins.
  - destruct s; exact H.
  - destruct s as [b m dom cnt]. destruct e; try exact H.
    unfold RedisClusterAscoltatore.deliver. js_unfold. js_cbn.
    destruct (m !! sub); exact H.
Qed.

Lemma redis_run_close_begun ops s :
  AbstractAscoltatore.close_begun (RedisClusterAscoltatore.base s) = true ->
  AbstractAscoltatore.close_begun
    (RedisClusterAscoltatore.base (RedisClusterAscoltatore.run ops s).1) = true.
Proof.
  revert s. induction ops as [|o ops IH]; intros s H; [exact H|].
  cbn [RedisClusterAscoltatore.run].
  pose proof (redis_step_close_begun o s H) as H1.
  destruct (RedisClusterAscoltatore.step o s) as [[r s1] l1].
  pose proof (IH s1 H1) as H2.
  destruct (RedisClusterAscoltatore.run ops s1) as [s2 rest]. exact H2.
Qed.

End Stability.

(** C4: on either adapter, whatever happened before [close()] was called and
    whatever operations and notifications follow it, a subscribe, an
    unsubscribe or a publish throws the closed error to its caller, changes
    nothing in the instance and makes no call to the transport or to the
    local index (the Redis-cluster publish has logged the payload to the
    console before it throws). *)
Theorem operations_after_close_throw
    (rt : Js.Runtime) (s0 : AMQPAscoltatore.t) (r0 : RedisClusterAscoltatore.t)
    (d : option Js.Callback)
    (later : list AMQPAscoltatore.Op) (rlater : list RedisClusterAscoltatore.Op)
    (topic : string) (cb : Js.Callback) (m : Js.Value)
    (done : option Js.Callback) :
  let s := (AMQPAscoltatore.run rt later
              (Js.state (AMQPAscoltatore.close d s0))).1 in
  let r := (RedisClusterAscoltatore.run rlater
              (Js.state (RedisClusterAscoltatore.close d r0))).1 in
  AMQPAscoltatore.subscribe topic cb done s = (Js.Throw Js.ClosedError, s, [])
  /\ AMQPAscoltatore.unsubscribe topic cb done s
     = (Js.Throw Js.ClosedError, s, [])
  /\ AMQPAscoltatore.publish rt topic m done s
     = (Js.Throw Js.ClosedError, s, [])
  /\ RedisClusterAscoltatore.subscribe topic cb done r
     = (Js.Throw Js.ClosedError, r, [])
  /\ RedisClusterAscoltatore.unsubscribe topic cb done r
     = (Js.Throw Js.ClosedError, r, [])
  /\ RedisClusterAscoltatore.publish topic m done r
     = (Js.Throw Js.ClosedError, r, [Ext.console_log m]).
Proof.
  intros s r.
  assert (Hs : AbstractAscoltatore.close_begun (AMQPAscoltatore.base s) = true)
    by apply amqp_run_close_begun, amqp_close_begins.
  assert (Hr : AbstractAscoltatore.close_begun
                 (RedisClusterAscoltatore.base r) = true)
    by apply redis_run_close_begun, redis_close_begins.
  repeat split.
  - now apply amqp_subscribe_rejected.
  - now apply amqp_unsubscribe_rejected.
  - now apply amqp_publish_rejected.
  - now apply redis_subscribe_rejected.
  - now apply redis_unsubscribe_rejected.
  - now apply redis_publish_rejected.
Qed.

(** ** Redis cluster: subscribe and unsubscribe *)

Ltac redis_norm :=
  unfold RedisClusterAscoltatore.with_base,
    RedisClusterAscoltatore.with_ascoltatores,
    RedisClusterAscoltatore.with_subs_counter,
    RedisClusterAscoltatore.with_domain;
  cbn [RedisClusterAscoltatore.base RedisClusterAscoltatore._ascoltatores
       RedisClusterAscoltatore._domain RedisClusterAscoltatore._subs_counter
       Js.state Js.calls Js.result fst snd].

Section RedisSteps.

Import RedisClusterAscoltatore.

Lemma redis_subscribe_run s topic cb done :
  AbstractAscoltatore.close_begun (base s) = false ->
  tries_open s ->
  let key := subscription_key s topic in
  let r := subscribe topic cb done s in
  Js.calls r = [subscription_call s topic done]
  /\ base (Js.state r) = base s
  /\ _domain (Js.state r) = _domain s
  /\ _subs_counter (Js.state r) = SubsCounter.add key (_subs_counter s)
  /\ exists a, _ascoltatores (Js.state r) = <[key := a]> (_ascoltatores s)
               /\ TrieAscoltatore.closed a = false.
Proof.
  intros Hcb Hopen key r. subst r.
  apply orb_false_elim in Hcb as [H1 H2].
  destruct s as [b m dom cnt]. unfold tries_open in Hopen.
  cbn [base _ascoltatores _subs_counter] in *.
  unfold subscribe, subscription_call, at_key. js_unfold. redis_norm.
  rewrite raiseIfClosed_open by assumption. redis_norm.
  fold key.
  assert (Hnew : TrieAscoltatore.closed
                   match dom with
                   | Some d =>
                       TrieAscoltatore.registerDomain d
                         (TrieAscoltatore.new (AbstractAscoltatore.settings b))
                   | None =>
                       TrieAscoltatore.new (AbstractAscoltatore.settings b)
                   end = false) by now destruct dom.
  destruct (_containsWildcard _ topic); redis_norm;
    (destruct (m !! key) as [a|] eqn:Em; redis_norm;
     [ rewrite Em;
       unfold TrieAscoltatore.subscribe, Js.bind, Js.get, Js.throw, Js.modify;
       rewrite (Hopen key a Em);
       destruct (Topic.valid_pattern _ topic); redis_norm; cbn [negb app];
       (repeat split; eexists; split; [reflexivity|]);
       exact (Hopen key a Em)
     | rewrite lookup_insert_eq;
       unfold TrieAscoltatore.subscribe, Js.bind, Js.get, Js.throw, Js.modify;
       rewrite Hnew;
       destruct (Topic.valid_pattern _ topic); redis_norm; cbn [negb app];
       (repeat split; eexists; rewrite insert_insert_eq;
        split; [reflexivity|]);
       exact Hnew ]).
Qed.

Lemma redis_unsubscribe_run s topic cb done :
  AbstractAscoltatore.close_begun (base s) = false ->
  tries_open s ->
  let key := subscription_key s topic in
  let r := unsubscribe topic cb done s in
  Js.result r = Js.Ok tt
  /\ base (Js.state r) = base s
  /\ _domain (Js.state r) = _domain s
  /\ _subs_counter (Js.state r) = SubsCounter.remove key (_subs_counter s)
  /\ (if SubsCounter.include (SubsCounter.remove key (_subs_counter s)) key
      then Js.calls r = [Ext.defer done]
           /\ _ascoltatores (Js.state r)
              = match _ascoltatores s !! key with
                | Some a =>
                    <[key := TrieAscoltatore.with_subscriptions
                               (TrieAscoltatore.remove_first topic cb
                                  (TrieAscoltatore.subscriptions a)) a]>
                      (_ascoltatores s)
                | None => _ascoltatores s
                end
      else Js.calls r
           = match _ascoltatores s !! key with
             | Some _ => [Ext.trie_close key]
             | None => []
             end ++ [retraction_call s topic done]
           /\ _ascoltatores (Js.state r) = delete key (_ascoltatores s)).
Proof.
  intros Hcb Hopen key r. subst r.
  apply orb_false_elim in Hcb as [H1 H2].
  destruct s as [b m dom cnt]. unfold tries_open in Hopen.
  cbn [base _ascoltatores _subs_counter _domain] in *.
  unfold unsubscribe, retraction_call, at_key. js_unfold. redis_norm.
  rewrite raiseIfClosed_open by assumption. redis_norm.
  fold key.
  destruct (m !! key) as [a|] eqn:Em; redis_norm.
  - rewrite Em. rewrite trie_unsubscribe_ok by exact (Hopen key a Em).
    redis_norm.
    destruct (SubsCounter.include (SubsCounter.remove key cnt) key);
      redis_norm.
    + repeat split.
    + rewrite delete_insert_eq.
      destruct (_containsWildcard _ topic); repeat split.
  - destruct (SubsCounter.include (SubsCounter.remove key cnt) key);
      redis_norm.
    + repeat split.
    + rewrite (delete_id m key Em).
      destruct (_containsWildcard _ topic); repeat split.
Qed.

End RedisSteps.

(** ** Redis cluster: the map of local ascoltatores follows the counter *)

Section RedisInvariant.

Import RedisClusterAscoltatore.

Lemma empty_consistent b dom :
  consistent {| base := b; _ascoltatores := ∅; _domain := dom;
                _subs_counter := ∅ |}.
Proof.
  split.
  - intros key. cbn [_ascoltatores _subs_counter]. unfold SubsCounter.count.
    rewrite !lookup_empty. cbn. split; [intros [? ?]; discriminate | lia].
  - intros key a. cbn [_ascoltatores]. rewrite lookup_empty. discriminate.
Qed.

Lemma new_consistent opts : consistent (new opts).
Proof. exact (empty_consistent _ _). Qed.

Lemma subscribe_consistent s topic cb done :
  consistent s -> consistent (Js.state (subscribe topic cb done s)).
Proof.
  intros [Hc Ho].
  destruct (AbstractAscoltatore.close_begun (base s)) eqn:Hcb.
  { rewrite redis_subscribe_rejected by assumption. now split. }
  destruct (redis_subscribe_run s topic cb done Hcb Ho)
    as (_ & _ & _ & Hcnt & a & Hmap & Ha).
  split.
  - intros key. rewrite Hcnt, Hmap.
    destruct (decide (subscription_key s topic = key)) as [<-|Hne].
    + rewrite lookup_insert_eq, count_add_eq. split; [lia|eauto].
    + rewrite lookup_insert_ne, count_add_ne by assumption. apply Hc.
  - intros key a0. rewrite Hmap.
    destruct (decide (subscription_key s topic = key)) as [<-|Hne].
    + rewrite lookup_insert_eq. now intros [= <-].
    + rewrite lookup_insert_ne by assumption. apply Ho.
Qed.

Lemma unsubscribe_consistent s topic cb done :
  consistent s -> consistent (Js.state (unsubscribe topic cb done s)).
Proof.
  intros [Hc Ho].
  destruct (AbstractAscoltatore.close_begun (base s)) eqn:Hcb.
  { rewrite redis_unsubscribe_rejected by assumption. now split. }
  destruct (redis_unsubscribe_run s topic cb done Hcb Ho)
    as (_ & _ & _ & Hcnt & Hcase).
  set (key := subscription_key s topic) in *.
  destruct (SubsCounter.include (SubsCounter.remove key (_subs_counter s)) key)
    eqn:Hinc; destruct Hcase as [_ Hmap].
  - apply include_count in Hinc. rewrite count_remove_eq in Hinc.
    assert (Hsome : is_Some (_ascoltatores s !! key)) by (apply Hc; lia).
    destruct Hsome as [a Ha]. rewrite Ha in Hmap.
    split.
    + intros k. rewrite Hcnt, Hmap.
      destruct (decide (key = k)) as [<-|Hne].
      * rewrite lookup_insert_eq, count_remove_eq. split; [lia|eauto].
      * rewrite lookup_insert_ne, count_remove_ne by assumption. apply Hc.
    + intros k a0. rewrite Hmap.
      destruct (decide (key = k)) as [<-|Hne].
      * rewrite lookup_insert_eq. intros [= <-]. cbn. exact (Ho key a Ha).
      * rewrite lookup_insert_ne by assumption. apply Ho.
  - apply not_include_count in Hinc.
    split.
    + intros k. rewrite Hcnt, Hmap.
      destruct (decide (key = k)) as [<-|Hne].
      * rewrite lookup_delete_eq, Hinc. split; [intros [? ?]; discriminate|lia].
      * rewrite lookup_delete_ne, count_remove_ne by assumption. apply Hc.
    + intros k a0. rewrite Hmap. intros H.
      apply lookup_delete_Some in H as [_ H]. exact (Ho k a0 H).
Qed.

Lemma close_consistent s d :
  consistent s -> consistent (Js.state (close d s)).
Proof.
  intros H.
  destruct (AbstractAscoltatore._closed (base s)) eqn:E.
  - now rewrite redis_close_after_closed.
  - rewrite redis_close_first by assumption. exact (empty_consistent _ _).
Qed.

Lemma publish_state s topic m done :
  Js.state (publish topic m done s) = s.
Proof.
  destruct (AbstractAscoltatore.close_begun (base s)) eqn:Hcb.
  - now rewrite redis_publish_rejected.
  - apply orb_false_elim in Hcb as [H1 H2].
    now rewrite redis_publish_run.
Qed.

Lemma step_consistent o s :
  consistent s -> consistent (Js.state (step o s)).
Proof.
  intros H. destruct o; cbn [step].
  - now apply subscribe_consistent.
  - now apply unsubscribe_consistent.
  - now rewrite publish_state.
  - now apply close_consistent.
  - destruct H as [Hc Ho]. destruct s as [b m dom cnt]. split.
    + intros key. cbn. rewrite lookup_fmap, <- (Hc key). cbn.
      now rewrite fmap_is_Some.
    + intros key a. cbn. rewrite lookup_fmap. intros Hl.
      apply fmap_Some in Hl as [a0 [Ha0 ->]]. cbn. exact (Ho key a0 Ha0).
  - destruct s as [b m dom cnt]. destruct e; try exact H.
    unfold on_event, deliver. js_unfold. js_cbn.
    destruct (m !! sub); exact H.
Qed.

Lemma run_consistent ops s :
  consistent s -> consistent (run ops s).1.
Proof.
  revert s. induction ops as [|o ops IH]; intros s H; [exact H|].
  cbn [run]. pose proof (step_consistent o s H) as H1.
  destruct (step o s) as [[r s1] l1].
  pose proof (IH s1 H1) as H2.
  destruct (run ops s1) as [s2 rest]. exact H2.
Qed.

End RedisInvariant.

(** ** Readiness is never consulted *)

Ltac ready_cbn :=
  cbn -[SubsCounter.include SubsCounter.add SubsCounter.remove
        Topic.valid_pattern AbstractAscoltatore._subTopic
        AbstractAscoltatore._pubTopic Str.split AMQPAscoltatore.endsWith
        AMQPAscoltatore.equals Js.String_
        RedisClusterAscoltatore.ends_in_slash
        RedisClusterAscoltatore.ends_in_slash_or_star
        Str.includes TrieAscoltatore.remove_first lookup insert delete].


Ltac ready_unfold :=
  unfold AMQPAscoltatore.marking_ready, AMQPAscoltatore.mark_ready,
    RedisClusterAscoltatore.marking_ready, RedisClusterAscoltatore.mark_ready,
    RedisClusterAscoltatore.at_key,
    RedisClusterAscoltatore.subscription_key,
    RedisClusterAscoltatore._containsWildcard,
    AbstractAscoltatore._raiseIfClosed, AbstractAscoltatore.state,
    AbstractAscoltatore._subTopic, AbstractAscoltatore._pubTopic,
    TrieAscoltatore.subscribe, TrieAscoltatore.unsubscribe;
  js_unfold; ready_cbn.









(** ** Substrings and suffixes *)

Lemma prefix_split (w t : string) :
  String.prefix w t = true <-> exists post, t = w +:+ post.
Proof.
  revert t. induction w as [|a w IH]; intros t.
  - split; [intros _; now exists t | intros _; now destruct t].
  - destruct t as [|b t]; cbn.
    + split; [discriminate | intros [post H]; discriminate].
    + destruct (ascii_dec a b) as [->|Hne].
      * rewrite IH. split; intros [post H]; exists post.
        -- now subst.
        -- change (String b t = String b (w +:+ post)) in H. congruence.
      * split; [discriminate | intros [post H]].
        change (String b t = String a (w +:+ post)) in H. congruence.
Qed.

Lemma index_split (t w : string) :
  is_Some (String.index 0 w t) <-> exists pre post, t = pre +:+ w +:+ post.
Proof.
  induction t as [|c t IH].
  - cbn. destruct w as [|a w].
    + split; [intros _; now exists EmptyString, EmptyString | eauto].
    + split; [intros [? ?]; discriminate|].
      intros [pre [post H]]. destruct pre; discriminate.
  - cbn [String.index].
    destruct (String.prefix w (String c t)) eqn:Hp.
    + split; [intros _ | eauto].
      apply prefix_split in Hp as [post Hp].
      now exists EmptyString, post.
    + split.
      * intros H.
        assert (Hi : is_Some (String.index 0 w t))
          by (destruct (String.index 0 w t); [eauto | destruct H; discriminate]).
        apply IH in Hi as [pre [post ->]].
        now exists (String c pre), post.
      * intros [pre [post H]]. destruct pre as [|c' pre].
        -- change (String c t = w +:+ post) in H.
           assert (String.prefix w (String c t) = true)
             by (apply prefix_split; eauto).
           congruence.
        -- change (String c t = String c' (pre +:+ w +:+ post)) in H.
           injection H as -> ->.
           assert (Hi : is_Some (String.index 0 w (pre +:+ w +:+ post)))
             by (apply IH; eauto).
           destruct Hi as [n ->]. eauto.
Qed.

Lemma includes_split (t w : string) :
  Str.includes t w = true <-> exists pre post, t = pre +:+ w +:+ post.
Proof.
  rewrite <- index_split. unfold Str.includes, Str.indexOf.
  cbn [Nat.min]. destruct (String.index 0 w t).
  - split; eauto.
  - split; [discriminate | intros [? ?]; discriminate].
Qed.

Lemma ends_with_char (c : ascii) (s : string) :
  Str.ends_with (String c EmptyString) s
  = match Str.last_char s with
    | Some c' => Ascii.eqb c' c
    | None => false
    end.
Proof.
  induction s as [|a s IH]; [reflexivity|].
  cbn [Str.ends_with Str.last_char]. rewrite IH.
  destruct s as [|a' s].
  - cbn. rewrite Ascii.eqb_sym. now destruct (Ascii.eqb a c).
  - cbn [String.eqb]. now destruct (Ascii.eqb c a).
Qed.

(** ** Redis cluster: the claims on the counter and the transport calls *)

(** C9: whatever subscribes, unsubscribes, closes and other steps a
    Redis-cluster instance has gone through, a local ascoltatore exists for
    a key exactly when the counter counts the key; an unsubscribe that
    brings the count of its key to zero leaves no local ascoltatore under
    the key, having closed the one that was there; and a [close()] of an
    instance that is not closed brings every count to zero and leaves no
    local ascoltatore, having closed exactly the ones that were there. *)
Theorem redis_cluster_ascoltatores_follow_counter
    (opts : Topic.Syntax) (ops : list RedisClusterAscoltatore.Op) :
  let s := (RedisClusterAscoltatore.run ops
              (RedisClusterAscoltatore.new opts)).1 in
  (forall key,
     is_Some (RedisClusterAscoltatore._ascoltatores s !! key)
     <-> 0 < SubsCounter.count (RedisClusterAscoltatore._subs_counter s) key)
  /\ (forall topic cb done,
        let key := RedisClusterAscoltatore.subscription_key s topic in
        let r := RedisClusterAscoltatore.unsubscribe topic cb done s in
        AbstractAscoltatore.close_begun (RedisClusterAscoltatore.base s)
        = false ->
        SubsCounter.count
          (RedisClusterAscoltatore._subs_counter (Js.state r)) key = 0 ->
        RedisClusterAscoltatore._ascoltatores (Js.state r) !! key = None
        /\ (is_Some (RedisClusterAscoltatore._ascoltatores s !! key) ->
            In (Ext.trie_close key) (Js.calls r)))
  /\ (forall done key,
        let r := RedisClusterAscoltatore.close done s in
        AbstractAscoltatore._closed (RedisClusterAscoltatore.base s)
        = false ->
        SubsCounter.count
          (RedisClusterAscoltatore._subs_counter (Js.state r)) key = 0
        /\ RedisClusterAscoltatore._ascoltatores (Js.state r) !! key = None
        /\ (is_Some (RedisClusterAscoltatore._ascoltatores s !! key)
            <-> In (Ext.trie_close key) (Js.calls r))).
Proof.
  intros s.
  assert (Hs : RedisClusterAscoltatore.consistent s)
    by apply run_consistent, new_consistent.
  split; [exact (proj1 Hs)|]. split.
  - intros topic cb done key r Hcb Hzero.
    assert (Hr : RedisClusterAscoltatore.consistent (Js.state r))
      by now apply unsubscribe_consistent.
    split.
    + destruct (RedisClusterAscoltatore._ascoltatores (Js.state r) !! key)
        eqn:E; [|reflexivity].
      assert (0 < SubsCounter.count
                    (RedisClusterAscoltatore._subs_counter (Js.state r)) key)
        by (apply (proj1 Hr); eauto).
      lia.
    + intros [a Ha].
      destruct (redis_unsubscribe_run s topic cb done Hcb (proj2 Hs))
        as (_ & _ & _ & Hcnt & Hcase).
      fold key in Hcnt, Hcase. fold r in Hcnt, Hcase.
      rewrite Hcnt in Hzero. apply not_include_count in Hzero.
      rewrite Hzero in Hcase. destruct Hcase as [-> _].
      rewrite Ha. now left.
  - intros done key r Hcd. subst r.
    rewrite redis_close_first by assumption.
    cbn [Js.state Js.calls fst snd].
    split; [|split].
    + destruct s as [b mp dom cnt]. cbn. apply count_clear.
    + destruct s as [b mp dom cnt]. cbn. apply lookup_empty.
    + split.
      * intros [a Ha]. right. apply in_or_app. left.
        apply in_map, in_map_iff. exists (key, a). split; [reflexivity|].
        apply list_elem_of_In, elem_of_map_to_list. exact Ha.
      * intros [Hin|Hin]; [discriminate|].
        apply in_app_or in Hin as [Hin|[Hin|Hin]]; [|discriminate|].
        -- apply in_map_iff in Hin as [k [[= ->] Hin]].
           apply in_map_iff in Hin as [[k' a] [Hk Hin]]. cbn in Hk. subst k'.
           apply list_elem_of_In, elem_of_map_to_list in Hin. eauto.
        -- apply in_map_iff in Hin as [? [? _]]. discriminate.
Qed.

Lemma redis_cluster_ascoltatores_follow_counter_witness :
  let s := (RedisClusterAscoltatore.run
              [RedisClusterAscoltatore.Subscribe "sensors/+/temp" 1 None;
               RedisClusterAscoltatore.Subscribe "hello" 2 None]
              (RedisClusterAscoltatore.new Topic.mqtt)).1 in
  let r := RedisClusterAscoltatore.unsubscribe "sensors/+/temp" 1 None s in
  let c := RedisClusterAscoltatore.close None s in
  is_Some (RedisClusterAscoltatore._ascoltatores s !! "sensors/*/temp/")
  /\ RedisClusterAscoltatore._ascoltatores (Js.state r) !! "sensors/*/temp/"
     = None
  /\ In (Ext.trie_close "sensors/*/temp/") (Js.calls r)
  /\ RedisClusterAscoltatore._ascoltatores (Js.state c) !! "hello/" = None
  /\ In (Ext.trie_close "hello/") (Js.calls c).
Proof.
  pose proof (redis_cluster_ascoltatores_follow_counter Topic.mqtt
                [RedisClusterAscoltatore.Subscribe "sensors/+/temp" 1 None;
                 RedisClusterAscoltatore.Subscribe "hello" 2 None])
    as (Hcounted & Hunsub & Hclose).
  intros s r c.
  assert (Hsome : is_Some (RedisClusterAscoltatore._ascoltatores s
                           !! "sensors/*/temp/"))
    by (apply Hcounted; vm_compute; lia).
  assert (Hhello : is_Some (RedisClusterAscoltatore._ascoltatores s
                            !! "hello/"))
    by (apply Hcounted; vm_compute; lia).
  destruct (Hunsub "sensors/+/temp" 1 None eq_refl eq_refl) as [Hnone Hin].
  destruct (Hclose None "hello/" eq_refl) as (_ & Hgone & Hclosed).
  split; [exact Hsome|]. split; [exact Hnone|]. split; [exact (Hin Hsome)|].
  split; [exact Hgone|]. exact (proj1 Hclosed Hhello).
Defined.

(** C10: on a Redis-cluster instance that is not closed, subscribe issues
    [psubscribe] exactly when the topic contains one of the canonical
    wildcard symbols and [subscribe] otherwise; an unsubscribe that is the
    last reference issues [punsubscribe], respectively [unsubscribe], by the
    same test; and both use as key the translated topic, with the
    transport's separator appended unless the translated topic already ends
    in that separator or in one of the transport's wildcard symbols. *)
Theorem redis_cluster_transport_calls
    (opts : Topic.Syntax) (ops : list RedisClusterAscoltatore.Op)
    (topic : string) (cb : Js.Callback) (done : option Js.Callback) :
  let s := (RedisClusterAscoltatore.run ops
              (RedisClusterAscoltatore.new opts)).1 in
  let canonical :=
    AbstractAscoltatore.settings (RedisClusterAscoltatore.base s) in
  let native := RedisClusterAscoltatore.nativeSettings in
  let sub :=
    AbstractAscoltatore._subTopic (RedisClusterAscoltatore.base s) topic in
  let key := RedisClusterAscoltatore.subscription_key s topic in
  let wildcard := RedisClusterAscoltatore._containsWildcard s topic in
  AbstractAscoltatore.close_begun (RedisClusterAscoltatore.base s) = false ->
  Js.calls (RedisClusterAscoltatore.subscribe topic cb done s)
  = [if wildcard then Ext.rc_psubscribe key done
     else Ext.rc_subscribe key done]
  /\ (SubsCounter.count (RedisClusterAscoltatore._subs_counter s) key <= 1 ->
      List.filter Ext.is_transport
        (Js.calls (RedisClusterAscoltatore.unsubscribe topic cb done s))
      = [if wildcard then Ext.rc_punsubscribe key done
         else Ext.rc_unsubscribe key done])
  /\ (wildcard = true
      <-> (exists pre post,
             topic = pre +:+ Topic.wildcardOne canonical +:+ post)
          \/ (exists pre post,
                topic = pre +:+ Topic.wildcardSome canonical +:+ post))
  /\ key
     = if Str.ends_with (String (Topic.separator native) EmptyString) sub
          || Str.ends_with (Topic.wildcardOne native) sub
          || Str.ends_with (Topic.wildcardSome native) sub
       then sub
       else sub +:+ String (Topic.separator native) EmptyString.
Proof.
  intros s canonical native sub key wildcard Hcb.
  assert (Hs : RedisClusterAscoltatore.consistent s)
    by apply run_consistent, new_consistent.
  split; [|split; [|split]].
  - exact (proj1 (redis_subscribe_run s topic cb done Hcb (proj2 Hs))).
  - intros Hlast.
    destruct (redis_unsubscribe_run s topic cb done Hcb (proj2 Hs))
      as (_ & _ & _ & _ & Hcase).
    fold key in Hcase.
    assert (Hinc : SubsCounter.include
                     (SubsCounter.remove key
                        (RedisClusterAscoltatore._subs_counter s)) key
                   = false)
      by (apply not_include_count; rewrite count_remove_eq; lia).
    rewrite Hinc in Hcase. destruct Hcase as [-> _].
    unfold RedisClusterAscoltatore.retraction_call. fold wildcard key.
    destruct (RedisClusterAscoltatore._ascoltatores s !! key);
      destruct wildcard; reflexivity.
  - unfold wildcard, RedisClusterAscoltatore._containsWildcard.
    fold canonical. now rewrite orb_true_iff, !includes_split.
  - unfold key, RedisClusterAscoltatore.subscription_key,
      RedisClusterAscoltatore.ends_in_slash_or_star.
    fold sub. subst native. cbn [RedisClusterAscoltatore.nativeSettings
      Topic.separator Topic.wildcardOne Topic.wildcardSome].
    rewrite !ends_with_char.
    destruct (Str.last_char sub) as [c|]; [|reflexivity].
    destruct (Ascii.eqb c "/"), (Ascii.eqb c "*"); reflexivity.
Qed.

Lemma redis_cluster_transport_calls_witness :
  let s := RedisClusterAscoltatore.started Topic.mqtt in
  Js.calls (RedisClusterAscoltatore.subscribe "sensors/+/temp" 1 None s)
  = [Ext.rc_psubscribe "sensors/*/temp/" None]
  /\ List.filter Ext.is_transport
       (Js.calls (RedisClusterAscoltatore.unsubscribe "hello" 1 None s))
     = [Ext.rc_unsubscribe "hello/" None].
Proof.
  pose proof (redis_cluster_transport_calls Topic.mqtt
                [RedisClusterAscoltatore.Notify RedisClusterAscoltatore.RcReady]
                "sensors/+/temp" 1 None eq_refl) as (H1 & _).
  pose proof (redis_cluster_transport_calls Topic.mqtt
                [RedisClusterAscoltatore.Notify RedisClusterAscoltatore.RcReady]
                "hello" 1 None eq_refl) as (_ & H2 & _).
  split; [exact H1|]. apply H2. vm_compute. lia.
Defined.

(** * Further properties of the adapters *)

(** ** Suffixes *)

Lemma append_cons (c : ascii) (s t : string) :
  String c s +:+ t = String c (s +:+ t).
Proof. reflexivity. Qed.

Lemma append_nil_r (s : string) : s +:+ EmptyString = s.
Proof.
  induction s as [|c s IH]; [reflexivity|]. now rewrite append_cons, IH.
Qed.

Lemma length_append (s t : string) :
  String.length (s +:+ t) = String.length s + String.length t.
Proof.
  induction s as [|c s IH]; [reflexivity|].
  rewrite append_cons. cbn [String.length]. now rewrite IH.
Qed.

Lemma length_zero (s : string) : String.length s = 0 -> s = EmptyString.
Proof. now destruct s. Qed.

Lemma index_from_split (w t : string) (n : nat) :
  is_Some (String.index n w t)
  <-> exists pre post, t = pre +:+ w +:+ post /\ n <= String.length pre.
Proof.
  revert n. induction t as [|c t IH]; intros n.
  - destruct n as [|n].
    + rewrite index_split. split.
      * intros [pre [post H]]. exists pre, post. split; [exact H|lia].
      * intros [pre [post [H _]]]. eauto.
    + cbn. split; [intros [? ?]; discriminate|].
      intros [pre [post [H Hn]]]. destruct pre; [cbn in Hn; lia|discriminate].
  - destruct n as [|n].
    + rewrite index_split. split.
      * intros [pre [post H]]. exists pre, post. split; [exact H|lia].
      * intros [pre [post [H _]]]. eauto.
    + cbn [String.index]. split.
      * intros H.
        assert (Hi : is_Some (String.index n w t))
          by (destruct (String.index n w t); [eauto|destruct H; discriminate]).
        apply IH in Hi as [pre [post [-> Hn]]].
        exists (String c pre), post. split; [reflexivity|cbn; lia].
      * intros [pre [post [H Hn]]].
        destruct pre as [|c' pre]; [cbn in Hn; lia|].
        rewrite append_cons in H. injection H as -> ->.
        assert (Hi : is_Some (String.index n w (pre +:+ w +:+ post)))
          by (apply IH; exists pre, post; split; [reflexivity|cbn in Hn; lia]).
        destruct Hi as [k ->]. eauto.
Qed.

Lemma endsWith_iff (str suffix : string) :
  AMQPAscoltatore.endsWith str suffix = true
  <-> exists pre, str = pre +:+ suffix.
Proof.
  unfold AMQPAscoltatore.endsWith, Str.indexOf.
  rewrite Nat.min_l by lia.
  set (n := String.length str - String.length suffix).
  assert (H : is_Some (String.index n suffix str)
              <-> exists pre, str = pre +:+ suffix).
  { rewrite index_from_split. split.
    - intros [pre [post [E Hn]]]. exists pre.
      assert (Hl := f_equal String.length E).
      rewrite !length_append in Hl. subst n.
      assert (String.length post = 0) by lia.
      rewrite (length_zero post) in E by assumption.
      now rewrite append_nil_r in E.
    - intros [pre E]. exists pre, EmptyString. split.
      + now rewrite append_nil_r.
      + assert (Hl := f_equal String.length E).
        rewrite length_append in Hl. subst n. lia. }
  rewrite <- H. destruct (String.index n suffix str).
  - split; eauto.
  - split; [discriminate|intros [? ?]; discriminate].
Qed.

(** X1: [endsWith] is true exactly when the string ends with the suffix:
    the index search from [length str - length suffix] onwards can only
    succeed at that very position. *)
Theorem endsWith_suffix (str suffix : string) :
  AMQPAscoltatore.endsWith str suffix = true
  <-> exists pre, str = pre +:+ suffix.
Proof. exact (endsWith_iff str suffix). Qed.

(** ** AMQP: where publish forwards *)

Section AMQPForwarding.

Import AMQPAscoltatore.

Variable rt : Js.Runtime.

(** The auxiliary-queue call of [publish], read off its cascade of tests. *)
Lemma publish_cascade s topic m done :
  operational s = true ->
  let parts := Str.split "/" topic in
  let to queue key id :=
    [Ext.conn_publish queue m [(key, id); ("mqttTopic", Some topic)]
       oneMinute] in
  publish rt topic m done s
  = (Js.Ok tt, s,
     (if equals (parts !! 1) "v1" then
        if endsWith topic "/data"
        then to dataV1Queue "deviceId" (parts !! 2)
        else if endsWith topic "/data/power"
        then to powerQueue "deviceId" (parts !! 2)
        else []
      else if equals (parts !! 1) "v2" then
        if equals (parts !! 3) "transmitter"
           && equals (parts !! 4) "presence"
           && equals (parts !! 5) "connect"
        then to transmitterConnectQueue "transmitterId" (parts !! 2)
        else if equals (parts !! 3) "device"
                && equals (parts !! 4) "presence"
                && equals (parts !! 5) "connect"
        then to deviceConnectQueue "deviceId" (parts !! 2)
        else if equals (parts !! 3) "device" && equals (parts !! 4) "data"
        then to dataV2Queue "deviceId" (parts !! 2)
        else []
      else [])
     ++ [Ext.exchange_publish (AbstractAscoltatore._pubTopic (base s) topic)
           (Js.String_ rt m) oneMinute;
         Ext.defer done]).
Proof.
  intros Hop parts to. subst parts to. amqp_open s Hop.
  unfold publish. js_unfold. js_cbn.
  rewrite raiseIfClosed_open by assumption. js_cbn.
  repeat match goal with
         | |- context [equals ?x ?y] => destruct (equals x y)
         | |- context [endsWith ?x ?y] => destruct (endsWith x y)
         end;
    reflexivity.
Qed.

Lemma equals_Some (part : option string) (lit : string) :
  equals part lit = true <-> part = Some lit.
Proof.
  destruct part as [p|]; cbn.
  - rewrite String.eqb_eq. split; congruence.
  - split; discriminate.
Qed.

Lemma equals_other (part : option string) (lit : string) :
  part <> Some lit -> equals part lit = false.
Proof.
  intros H. destruct (equals part lit) eqn:E; [|reflexivity].
  apply equals_Some in E. contradiction.
Qed.

End AMQPForwarding.

Lemma last_char_append (s t : string) :
  t <> EmptyString -> Str.last_char (s +:+ t) = Str.last_char t.
Proof.
  intros Ht. induction s as [|c s IH]; [reflexivity|].
  rewrite append_cons. cbn [Str.last_char]. rewrite IH.
  destruct (s +:+ t) eqn:E; [|reflexivity].
  destruct s; [cbn in E; contradiction|discriminate].
Qed.

Lemma data_power_is_not_data (topic : string) :
  (exists pre, topic = pre +:+ "/data/power") ->
  ~ exists pre, topic = pre +:+ "/data".
Proof.
  intros [pre ->] [pre' E].
  apply (f_equal Str.last_char) in E.
  rewrite !last_char_append in E by discriminate. discriminate.
Qed.

(** X2: a topic whose second part is neither [v1] nor [v2] goes to the
    exchange only; nothing is forwarded to an auxiliary queue. *)
Theorem publish_unversioned_not_forwarded
    (rt : Js.Runtime) (s : AMQPAscoltatore.t) (topic : string)
    (m : Js.Value) (done : option Js.Callback) :
  AMQPAscoltatore.operational s = true ->
  Str.split "/" topic !! 1 <> Some "v1" ->
  Str.split "/" topic !! 1 <> Some "v2" ->
  AMQPAscoltatore.publish rt topic m done s
  = (Js.Ok tt, s,
     [Ext.exchange_publish
        (AbstractAscoltatore._pubTopic (AMQPAscoltatore.base s) topic)
        (Js.String_ rt m) AMQPAscoltatore.oneMinute;
      Ext.defer done]).
Proof.
  intros Hop H1 H2. rewrite publish_cascade by assumption. cbv zeta.
  now rewrite !equals_other by assumption.
Qed.

Lemma publish_unversioned_not_forwarded_witness :
  Js.calls (AMQPAscoltatore.publish Js.example_runtime "hello" (Js.Str "x")
              None (AMQPAscoltatore.started Topic.mqtt))
  = [Ext.exchange_publish "hello" "x" "60000"; Ext.defer None].
Proof.
  exact (f_equal Js.calls
           (publish_unversioned_not_forwarded Js.example_runtime
              (AMQPAscoltatore.started Topic.mqtt) "hello" (Js.Str "x") None
              eq_refl ltac:(discriminate) ltac:(discriminate))).
Defined.

(** X3: a topic whose second part is [v1] is forwarded to the data queue
    when it ends in [/data], to the power queue when it ends in
    [/data/power], and to no queue otherwise; the forwarded message carries
    the third part as [deviceId] and the topic as [mqttTopic]. *)
Theorem publish_v1_forwarding
    (rt : Js.Runtime) (s : AMQPAscoltatore.t) (topic : string)
    (m : Js.Value) (done : option Js.Callback) :
  AMQPAscoltatore.operational s = true ->
  Str.split "/" topic !! 1 = Some "v1" ->
  let forwarded queue :=
    Ext.conn_publish queue m
      [("deviceId", Str.split "/" topic !! 2); ("mqttTopic", Some topic)]
      AMQPAscoltatore.oneMinute in
  let to_exchange :=
    [Ext.exchange_publish
       (AbstractAscoltatore._pubTopic (AMQPAscoltatore.base s) topic)
       (Js.String_ rt m) AMQPAscoltatore.oneMinute;
     Ext.defer done] in
  let calls := Js.calls (AMQPAscoltatore.publish rt topic m done s) in
  ((exists pre, topic = pre +:+ "/data") ->
   calls = forwarded AMQPAscoltatore.dataV1Queue :: to_exchange)
  /\ ((exists pre, topic = pre +:+ "/data/power") ->
      calls = forwarded AMQPAscoltatore.powerQueue :: to_exchange)
  /\ (~ (exists pre, topic = pre +:+ "/data") ->
      ~ (exists pre, topic = pre +:+ "/data/power") ->
      calls = to_exchange).
Proof.
  intros Hop Hv forwarded to_exchange calls. subst calls.
  rewrite publish_cascade by assumption. cbv zeta. cbn [Js.calls snd].
  rewrite (proj2 (equals_Some _ _) Hv).
  destruct (AMQPAscoltatore.endsWith topic "/data") eqn:Ed;
    destruct (AMQPAscoltatore.endsWith topic "/data/power") eqn:Ep.
  - apply endsWith_iff in Ed, Ep.
    now destruct (data_power_is_not_data topic).
  - apply endsWith_iff in Ed.
    split; [reflexivity|]. split; [|contradiction].
    intros Hp. apply endsWith_iff in Hp. congruence.
  - apply endsWith_iff in Ep.
    split; [|split; [reflexivity|contradiction]].
    intros Hd. apply endsWith_iff in Hd. congruence.
  - split; [|split; [|reflexivity]].
    + intros Hd. apply endsWith_iff in Hd. congruence.
    + intros Hp. apply endsWith_iff in Hp. congruence.
Qed.

Lemma publish_v1_forwarding_witness :
  Js.calls (AMQPAscoltatore.publish Js.example_runtime
              "acme/v1/dev7/data/power" (Js.Str "on") None
              (AMQPAscoltatore.started Topic.mqtt))
  = [Ext.conn_publish "mqtt-broker:device:power" (Js.Str "on")
       [("deviceId", Some "dev7");
        ("mqttTopic", Some "acme/v1/dev7/data/power")] "60000";
     Ext.exchange_publish "acme.v1.dev7.data.power" "on" "60000";
     Ext.defer None].
Proof.
  apply (proj1 (proj2 (publish_v1_forwarding Js.example_runtime
                         (AMQPAscoltatore.started Topic.mqtt)
                         "acme/v1/dev7/data/power" (Js.Str "on") None
                         eq_refl eq_refl))).
  now exists "acme/v1/dev7".
Defined.

(** X4: a topic [ns/v2/id/...] is forwarded by what follows the id:
    [device/data] goes to the v2 data queue, [device/presence/connect] to
    the device connect queue and [transmitter/presence/connect] to the
    transmitter connect queue; the forwarded message carries the id and the
    topic. *)
Theorem publish_v2_forwarding
    (rt : Js.Runtime) (s : AMQPAscoltatore.t) (ns id : string)
    (rest : list string) (m : Js.Value) (done : option Js.Callback) :
  AMQPAscoltatore.operational s = true ->
  Forall (fun seg => Str.has_char "/" seg = false) (ns :: id :: rest) ->
  let forwards segments queue key :=
    let topic := Str.join "/" (ns :: "v2" :: id :: segments ++ rest) in
    Js.calls (AMQPAscoltatore.publish rt topic m done s)
    = [Ext.conn_publish queue m [(key, Some id); ("mqttTopic", Some topic)]
         AMQPAscoltatore.oneMinute;
       Ext.exchange_publish
         (AbstractAscoltatore._pubTopic (AMQPAscoltatore.base s) topic)
         (Js.String_ rt m) AMQPAscoltatore.oneMinute;
       Ext.defer done] in
  forwards ["device"; "data"] AMQPAscoltatore.dataV2Queue "deviceId"
  /\ forwards ["device"; "presence"; "connect"]
       AMQPAscoltatore.deviceConnectQueue "deviceId"
  /\ forwards ["transmitter"; "presence"; "connect"]
       AMQPAscoltatore.transmitterConnectQueue "transmitterId".
Proof.
  intros Hop Hclean forwards. subst forwards. cbv beta zeta.
  inversion Hclean as [|? ? Hns Hrest]; subst.
  inversion Hrest as [|? ? Hid Hrest']; subst.
  assert (Hsplit : forall segments,
             Forall (fun seg => Str.has_char "/" seg = false) segments ->
             Str.split "/" (Str.join "/" (ns :: "v2" :: id :: segments ++ rest))
             = ns :: "v2" :: id :: segments ++ rest).
  { intros segments Hseg. apply split_join; [discriminate|].
    repeat constructor; try assumption.
    apply Forall_app. now split. }
  repeat split; rewrite publish_cascade by assumption; cbv zeta;
    rewrite Hsplit by (repeat constructor); reflexivity.
Qed.

Lemma publish_v2_forwarding_witness :
  Js.calls (AMQPAscoltatore.publish Js.example_runtime
              "acme/v2/t9/transmitter/presence/connect" Js.Null None
              (AMQPAscoltatore.started Topic.mqtt))
  = [Ext.conn_publish "mqtt-broker:transmitter:v2:connect" Js.Null
       [("transmitterId", Some "t9");
        ("mqttTopic", Some "acme/v2/t9/transmitter/presence/connect")]
       "60000";
     Ext.exchange_publish "acme.v2.t9.transmitter.presence.connect" "null"
       "60000";
     Ext.defer None].
Proof.
  exact (proj2 (proj2 (publish_v2_forwarding Js.example_runtime
                         (AMQPAscoltatore.started Topic.mqtt) "acme" "t9" []
                         Js.Null None eq_refl
                         ltac:(repeat constructor)))).
Defined.

(** X5: while the exchange does not exist yet, publish throws a
    [TypeError]: nothing reaches the exchange and [done] is never
    scheduled, although the message may already have been forwarded to an
    auxiliary queue. *)
Theorem publish_without_exchange
    (rt : Js.Runtime) (s : AMQPAscoltatore.t) (topic : string)
    (m : Js.Value) (done : option Js.Callback) :
  AbstractAscoltatore.close_begun (AMQPAscoltatore.base s) = false ->
  AMQPAscoltatore._exchange s = None ->
  let r := AMQPAscoltatore.publish rt topic m done s in
  Js.result r = Js.Throw (Js.TypeError "publish")
  /\ Js.state r = s
  /\ (Js.calls r = []
      \/ exists queue headers,
           Js.calls r
           = [Ext.conn_publish queue m headers AMQPAscoltatore.oneMinute]).
Proof.
  intros Hcb Hex r. subst r.
  apply orb_false_elim in Hcb as [H1 H2].
  destruct s as [b c e q a cnt ls st].
  cbn [AMQPAscoltatore.base AMQPAscoltatore._exchange] in *. subst e.
  unfold AMQPAscoltatore.publish. js_unfold. js_cbn.
  rewrite raiseIfClosed_open by assumption. js_cbn.
  destruct c as [[]|];
    repeat match goal with
           | |- context [AMQPAscoltatore.equals ?x ?y] =>
               destruct (AMQPAscoltatore.equals x y)
           | |- context [AMQPAscoltatore.endsWith ?x ?y] =>
               destruct (AMQPAscoltatore.endsWith x y)
           end;
    js_cbn; (split; [reflexivity|split; [reflexivity|]]);
    first [now left | right; eauto].
Qed.

Lemma publish_without_exchange_witness :
  let r := AMQPAscoltatore.publish Js.example_runtime "acme/v1/dev7/data"
             (Js.Str "21.5") (Some 3) (AMQPAscoltatore.new Topic.mqtt) in
  Js.result r = Js.Throw (Js.TypeError "publish")
  /\ Js.calls r
     = [Ext.conn_publish "mqtt-broker:device:data" (Js.Str "21.5")
          [("deviceId", Some "dev7"); ("mqttTopic", Some "acme/v1/dev7/data")]
          "60000"].
Proof.
  pose proof (publish_without_exchange Js.example_runtime
                (AMQPAscoltatore.new Topic.mqtt) "acme/v1/dev7/data"
                (Js.Str "21.5") (Some 3) eq_refl eq_refl) as [H _].
  split; [exact H|reflexivity].
Defined.

(** ** AMQP: the wiring of an instance *)

Section AMQPWiring.

Import AMQPAscoltatore.

Ltac wiring_cases :=
  repeat (first
    [ solve [repeat split; try reflexivity; intros; assumption]
    | match goal with
      | |- context [match ?x with _ => _ end] => is_var x; destruct x
      | |- context [SubsCounter.include ?c ?p] =>
          destruct (SubsCounter.include c p)
      | |- context [Topic.valid_pattern ?c ?p] =>
          destruct (Topic.valid_pattern c p)
      | |- context [equals ?c ?p] => destruct (equals c p)
      | |- context [endsWith ?c ?p] => destruct (endsWith c p)
      end; ready_cbn ]).

Lemma subscribe_keeps_wiring s topic cb done :
  keeps_wiring s (Js.state (subscribe topic cb done s)).
Proof.
  destruct s as [[syn nat rdy cl cd lst] c e q [tsyn subs dom tcl] cnt ls st].
  unfold keeps_wiring, subscribe. ready_unfold. wiring_cases.
Qed.

Lemma unsubscribe_keeps_wiring s topic cb done :
  keeps_wiring s (Js.state (unsubscribe topic cb done s)).
Proof.
  destruct s as [[syn nat rdy cl cd lst] c e q [tsyn subs dom tcl] cnt ls st].
  unfold keeps_wiring, unsubscribe. ready_unfold. wiring_cases.
Qed.

Lemma publish_keeps_wiring rt s topic m done :
  keeps_wiring s (Js.state (publish rt topic m done s)).
Proof.
  destruct s as [[syn nat rdy cl cd lst] c e q [tsyn subs dom tcl] cnt ls st].
  unfold keeps_wiring, publish. ready_unfold. wiring_cases.
Qed.

End AMQPWiring.

Section AMQPWired.

Import AMQPAscoltatore.

Lemma keeps_wiring_refl s : keeps_wiring s s.
Proof. repeat split; auto. Qed.

Lemma keeps_wiring_trans s1 s2 s3 :
  keeps_wiring s1 s2 -> keeps_wiring s2 s3 -> keeps_wiring s1 s3.
Proof.
  unfold keeps_wiring.
  intros (A8 & A9 & A1 & A2 & A3 & A4 & A5 & A6 & A10 & A7)
    (B8 & B9 & B1 & B2 & B3 & B4 & B5 & B6 & B10 & B7).
  repeat split; try congruence. auto.
Qed.

Lemma wired_kept s s' : keeps_wiring s s' -> wired s -> wired s'.
Proof.
  unfold keeps_wiring, wired.
  intros (_ & _ & A1 & A2 & A3 & A4 & A5 & A6 & _ & A7) (W1 & W2 & W3).
  split; [congruence|]. split; [intros H; rewrite A4; apply W2; congruence|].
  intros Hcb.
  assert (Hs : AbstractAscoltatore.close_begun (base s) = false).
  { destruct (AbstractAscoltatore.close_begun (base s)); [|reflexivity].
    rewrite A7 in Hcb by reflexivity. discriminate. }
  destruct (W3 Hs) as (C1 & C2 & C3).
  rewrite A1, A2, A3, A4. auto.
Qed.

Lemma run_listener_keeps_wiring s cause l :
  keeps_wiring s (Js.state (run_listener cause l s)).
Proof.
  destruct l as [|d].
  - destruct s, cause; apply keeps_wiring_refl.
  - destruct (AbstractAscoltatore._closed (base s)) eqn:E.
    + rewrite do_close_twice by assumption. apply keeps_wiring_refl.
    + rewrite do_close_run by assumption. destruct s.
      repeat split. intros _. apply orb_true_r.
Qed.

Lemma listeners_keep_wiring cause (l : list Listener) s :
  keeps_wiring s (Js.state (Js.for_each (run_listener cause) l s)).
Proof.
  revert s. induction l as [|x l IH]; intros s; [apply keeps_wiring_refl|].
  cbn [Js.for_each]. unfold Js.bind.
  pose proof (run_listener_keeps_wiring s cause x) as H1.
  destruct (run_listener cause x s) as [[[u|err] s1] l1].
  - pose proof (IH s1) as H2.
    destruct (Js.for_each (run_listener cause) l s1) as [[r s2] l2].
    exact (keeps_wiring_trans _ _ _ H1 H2).
  - exact H1.
Qed.

Lemma close_wired s d : wired s -> wired (Js.state (close d s)).
Proof.
  intros (W1 & W2 & W3).
  pose proof (amqp_close_begins s d) as Hb.
  pose proof (close_same_subscriptions s d) as [_ Ha].
  assert (Hk : stage (Js.state (close d s)) = stage s
               /\ AbstractAscoltatore._ready (base (Js.state (close d s)))
                  = AbstractAscoltatore._ready (base s)).
  { destruct s as [b c e q a cnt ls st]. unfold close. js_unfold. js_cbn.
    destruct (AbstractAscoltatore._closed b); [now split|].
    destruct (AbstractAscoltatore._closing b).
    - destruct d; now split.
    - js_cbn. destruct c; [|now split]. js_cbn. destruct q; now split. }
  destruct Hk as [Hst Hrd].
  split; [now rewrite Ha|]. split; [rewrite Hst, Hrd; exact W2|].
  intros Hcb. rewrite Hb in Hcb. discriminate.
Qed.

Lemma on_event_wired s ev : wired s -> wired (Js.state (on_event ev s)).
Proof.
  intros W. unfold on_event. unfold Js.bind at 1. cbn [Js.get].
  destruct ev.
  1-5: destruct s as [[syn nat rdy cl cd lst] c e q a cnt ls []];
       try exact W; js_unfold; js_cbn;
       try (destruct q as [[]|]; try exact W);
       destruct W as (W1 & W2 & W3); unfold wired in *;
       cbn [base _client_conn _exchange _queue _ascoltatore stage
            stage_index AbstractAscoltatore._ready
            AbstractAscoltatore.close_begun AbstractAscoltatore._closing
            AbstractAscoltatore._closed AbstractAscoltatore.set_ready
            with_stage with_handles with_base Js.state fst snd] in *;
       (split; [exact W1|]);
       (split; [try (intros H; specialize (W2 H); discriminate); auto|]);
       intros Hcb; destruct (W3 Hcb) as (C1 & C2 & C3);
       repeat split; auto; intros; try (apply C2; lia); try (apply C3; lia).
  - assert (H := listeners_keep_wiring (Some cause) (listeners_for "error" s) s).
    apply (wired_kept s); [|exact W].
    destruct (stage s); destruct (Js.for_each _ _ s) as [[r s1] l1]; exact H.
  - assert (H := listeners_keep_wiring None (listeners_for "close" s) s).
    apply (wired_kept s); [|exact W].
    destruct (stage s); destruct (Js.for_each _ _ s) as [[r s1] l1]; exact H.
  - destruct s as [b c e q a cnt ls st]. js_unfold. js_cbn.
    destruct st; destruct q; exact W.
Qed.

Lemma step_wired rt o s : wired s -> wired (Js.state (step rt o s)).
Proof.
  intros W. destruct o; cbn [step].
  - exact (wired_kept _ _ (subscribe_keeps_wiring s topic callback done) W).
  - exact (wired_kept _ _ (unsubscribe_keeps_wiring s topic callback done) W).
  - exact (wired_kept _ _ (publish_keeps_wiring rt s topic message done) W).
  - now apply close_wired.
  - now apply on_event_wired.
Qed.

Lemma run_wired rt ops s : wired s -> wired (run rt ops s).1.
Proof.
  revert s. induction ops as [|o ops IH]; intros s W; [exact W|].
  cbn [run]. pose proof (step_wired rt o s W) as W1.
  destruct (step rt o s) as [[r s1] l1].
  pose proof (IH s1 W1) as W2.
  destruct (run rt ops s1) as [s2 rest]. exact W2.
Qed.

Lemma new_wired opts : wired (new opts).
Proof.
  repeat split; cbn; try discriminate; intros; lia.
Qed.

End AMQPWired.

(** X6: whatever an AMQP instance has gone through since its construction,
    if readiness has been notified and close has not begun then its
    connection, exchange and queue exist and its local index is open, so a
    subscribe of a pattern the index accepts returns normally. *)
Theorem amqp_ready_means_operational
    (rt : Js.Runtime) (opts : Topic.Syntax) (ops : list AMQPAscoltatore.Op) :
  let s := (AMQPAscoltatore.run rt ops (AMQPAscoltatore.new opts)).1 in
  AbstractAscoltatore._ready (AMQPAscoltatore.base s) = true ->
  AbstractAscoltatore.close_begun (AMQPAscoltatore.base s) = false ->
  AMQPAscoltatore.operational s = true
  /\ forall p cb done,
       AMQPAscoltatore.accepts s p = true ->
       Js.result (AMQPAscoltatore.subscribe p cb done s) = Js.Ok tt.
Proof.
  intros s Hready Hcb.
  assert (W : AMQPAscoltatore.wired s) by apply run_wired, new_wired.
  destruct W as (W1 & W2 & W3).
  destruct (W3 Hcb) as (C1 & C2 & C3).
  rewrite (W2 Hready) in C2, C3. cbn in C2, C3.
  assert (Hop : AMQPAscoltatore.operational s = true).
  { unfold AMQPAscoltatore.operational.
    apply orb_false_elim in Hcb as [-> ->].
    rewrite C1, C2, C3, W1 by lia. reflexivity. }
  split; [exact Hop|].
  intros p cb done Hacc.
  destruct (SubsCounter.include (AMQPAscoltatore._subs_counter s) p) eqn:Hinc.
  - now rewrite subscribe_again.
  - now rewrite subscribe_first.
Qed.

Lemma amqp_ready_means_operational_witness :
  let s := (AMQPAscoltatore.run Js.example_runtime
              (map AMQPAscoltatore.Notify AMQPAscoltatore.startup
               ++ [AMQPAscoltatore.Subscribe "hello" 1 None;
                   AMQPAscoltatore.Notify
                     (AMQPAscoltatore.ConnError (Ext.StringCause "x"))])
              (AMQPAscoltatore.new Topic.mqtt)).1 in
  AMQPAscoltatore.operational s = true.
Proof.
  exact (proj1 (amqp_ready_means_operational Js.example_runtime Topic.mqtt
                  (map AMQPAscoltatore.Notify AMQPAscoltatore.startup
                   ++ [AMQPAscoltatore.Subscribe "hello" 1 None;
                       AMQPAscoltatore.Notify
                         (AMQPAscoltatore.ConnError (Ext.StringCause "x"))])
                  eq_refl eq_refl)).
Defined.

(** X7: a [close()] issued before the queue exists throws a [TypeError]
    after it has marked the instance closing and put its listener on the
    connection: neither [queue.destroy] nor [connection.end] is called and
    the connection, exchange and queue fields are left as they were. *)
Theorem close_before_queue
    (s : AMQPAscoltatore.t) (d : option Js.Callback) :
  AbstractAscoltatore.close_begun (AMQPAscoltatore.base s) = false ->
  AMQPAscoltatore._client_conn s = Some tt ->
  AMQPAscoltatore._queue s = None ->
  AMQPAscoltatore.close d s
  = (Js.Throw (Js.TypeError "destroy"),
     AMQPAscoltatore.with_conn_listeners
       (AMQPAscoltatore.conn_listeners s
        ++ [("close", AMQPAscoltatore.DoClose d)])
       (AMQPAscoltatore.with_base
          (AbstractAscoltatore.set_closing true (AMQPAscoltatore.base s)) s),
     []).
Proof.
  intros Hcb Hc Hq. apply orb_false_elim in Hcb as [H1 H2].
  destruct s as [b c e q a cnt ls st].
  cbn [AMQPAscoltatore.base AMQPAscoltatore._client_conn
       AMQPAscoltatore._queue] in *. subst c q.
  unfold AMQPAscoltatore.close. js_unfold. js_cbn.
  rewrite H1, H2. reflexivity.
Qed.

Lemma close_before_queue_witness :
  let r := AMQPAscoltatore.close (Some 1) (AMQPAscoltatore.new Topic.mqtt) in
  Js.result r = Js.Throw (Js.TypeError "destroy")
  /\ Js.calls r = []
  /\ AbstractAscoltatore.state (AMQPAscoltatore.base (Js.state r))
     = AbstractAscoltatore.closing
  /\ AMQPAscoltatore._client_conn (Js.state r) = Some tt.
Proof.
  pose proof (close_before_queue (AMQPAscoltatore.new Topic.mqtt) (Some 1)
                eq_refl eq_refl eq_refl) as H.
  rewrite H. repeat split.
Defined.

Section Finalization.

Import AMQPAscoltatore.

Lemma finalized_ignores s e d :
  AbstractAscoltatore._closed (base s) = true ->
  listeners_for "close" s = [DoClose d] ->
  listeners_for "error" s = [DoClose d] ->
  ends_connection e = true ->
  on_event e s = (Js.Ok tt, s, []).
Proof.
  intros Hc Hlc Hle He. unfold on_event. unfold Js.bind at 1. cbn [Js.get].
  destruct e; try discriminate.
  - rewrite Hle. cbn [Js.for_each]. unfold Js.bind.
    rewrite do_close_twice by assumption. cbn [Js.ret].
    now destruct (stage s).
  - rewrite Hlc. cbn [Js.for_each]. unfold Js.bind.
    rewrite do_close_twice by assumption. cbn [Js.ret].
    now destruct (stage s).
Qed.

Lemma finalized_run rt es s d :
  AbstractAscoltatore._closed (base s) = true ->
  listeners_for "close" s = [DoClose d] ->
  listeners_for "error" s = [DoClose d] ->
  forallb ends_connection es = true ->
  all_calls (run rt (map Notify es) s).2 = [].
Proof.
  intros Hc Hlc Hle. induction es as [|e es IH]; intros Hes; [reflexivity|].
  cbn [forallb] in Hes. apply andb_prop in Hes as [He Hes].
  cbn [map run step]. rewrite (finalized_ignores s e d) by assumption.
  specialize (IH Hes).
  destruct (run rt (map Notify es) s) as [s2 rest].
  unfold all_calls in *. cbn [snd map concat app] in *. exact IH.
Qed.

End Finalization.

(** X8: after [close()] on an open instance, however many times and in
    whatever order the connection then reports [close] and [error], the
    shutdown is finalized once: the completion is scheduled once, the closed
    notification is sent once, and every later report does nothing. *)
Theorem close_finalized_once
    (rt : Js.Runtime) (s : AMQPAscoltatore.t) (d : option Js.Callback)
    (e : AMQPAscoltatore.Event) (es : list AMQPAscoltatore.Event) :
  AMQPAscoltatore.operational s = true ->
  AMQPAscoltatore.conn_listeners s = [("error", AMQPAscoltatore.EmitError)] ->
  AMQPAscoltatore.ends_connection e = true ->
  forallb AMQPAscoltatore.ends_connection es = true ->
  let s1 := Js.state (AMQPAscoltatore.close d s) in
  AMQPAscoltatore.all_calls
    (AMQPAscoltatore.run rt (map AMQPAscoltatore.Notify (e :: es)) s1).2
  = Ext.defer d :: Ext.emit "closed" None
      :: map (fun d => Ext.invoke (Some d))
           (AbstractAscoltatore.closed_listeners (AMQPAscoltatore.base s)).
Proof.
  intros Hop Hls He Hes.
  assert (Hclosed : AbstractAscoltatore._closed (AMQPAscoltatore.base s) = false).
  { clear -Hop. amqp_open s Hop. assumption. }
  cbv zeta. rewrite (close_first s d Hop). cbn [Js.state fst snd].
  set (s1 := AMQPAscoltatore.with_handles None None None _).
  assert (Hlc : AMQPAscoltatore.listeners_for "close" s1
                = [AMQPAscoltatore.DoClose d]).
  { subst s1. unfold AMQPAscoltatore.listeners_for.
    cbn [AMQPAscoltatore.conn_listeners AMQPAscoltatore.with_handles
         AMQPAscoltatore.with_conn_listeners AMQPAscoltatore.with_base].
    now rewrite Hls. }
  assert (Hle : AMQPAscoltatore.listeners_for "error" s1
                = [AMQPAscoltatore.DoClose d]).
  { subst s1. unfold AMQPAscoltatore.listeners_for.
    cbn [AMQPAscoltatore.conn_listeners AMQPAscoltatore.with_handles
         AMQPAscoltatore.with_conn_listeners AMQPAscoltatore.with_base].
    now rewrite Hls. }
  assert (Hc1 : AbstractAscoltatore._closed (AMQPAscoltatore.base s1) = false)
    by exact Hclosed.
  assert (E : AMQPAscoltatore.on_event e s1
              = (Js.Ok tt,
                 AMQPAscoltatore.with_base
                   (AbstractAscoltatore.set_closed true
                      (AMQPAscoltatore.base s1)) s1,
                 Ext.defer d :: Ext.emit "closed" None
                   :: map (fun d => Ext.invoke (Some d))
                        (AbstractAscoltatore.closed_listeners
                           (AMQPAscoltatore.base s1)))).
  { destruct e; try discriminate.
    - now apply conn_error_finalizes.
    - now apply conn_close_finalizes. }
  cbn [map AMQPAscoltatore.run AMQPAscoltatore.step]. rewrite E.
  pose proof (finalized_run rt es
                (AMQPAscoltatore.with_base
                   (AbstractAscoltatore.set_closed true
                      (AMQPAscoltatore.base s1)) s1) d
                eq_refl Hlc Hle Hes) as Hrest.
  destruct (AMQPAscoltatore.run rt (map AMQPAscoltatore.Notify es) _)
    as [s2 rest].
  unfold AMQPAscoltatore.all_calls in *. cbn [snd map concat] in *.
  rewrite Hrest, app_nil_r. reflexivity.
Qed.

Lemma close_finalized_once_witness :
  AMQPAscoltatore.all_calls
    (AMQPAscoltatore.run Js.example_runtime
       (map AMQPAscoltatore.Notify
          [AMQPAscoltatore.ConnError (Ext.StringCause "reset");
           AMQPAscoltatore.ConnClose; AMQPAscoltatore.ConnClose])
       (Js.state (AMQPAscoltatore.close (Some 4)
                    (AMQPAscoltatore.started Topic.mqtt)))).2
  = [Ext.defer (Some 4); Ext.emit "closed" None].
Proof.
  exact (close_finalized_once Js.example_runtime
           (AMQPAscoltatore.started Topic.mqtt) (Some 4)
           (AMQPAscoltatore.ConnError (Ext.StringCause "reset"))
           [AMQPAscoltatore.ConnClose; AMQPAscoltatore.ConnClose]
           eq_refl eq_refl eq_refl eq_refl).
Defined.

(** ** AMQP: unsubscribes that match no subscription *)

Lemma remove_uncounted (c : gmap string nat) (p : string) :
  SubsCounter.include c p = false -> SubsCounter.remove p c = c.
Proof.
  intros H. apply not_include_count in H. unfold SubsCounter.remove.
  now rewrite H.
Qed.

Lemma remove_first_keeps (topic : string) (callback : Js.Callback)
    (x : string * Js.Callback) (l : list (string * Js.Callback)) :
  In x l -> x <> (topic, callback) ->
  In x (TrieAscoltatore.remove_first topic callback l).
Proof.
  intros Hin Hne. induction l as [|[p cb] l IH]; [contradiction|].
  cbn [TrieAscoltatore.remove_first].
  destruct (String.eqb p topic && Nat.eqb cb callback) eqn:E.
  - destruct Hin as [<-|Hin]; [|exact Hin].
    apply andb_prop in E as [E1 E2].
    apply String.eqb_eq in E1. apply Nat.eqb_eq in E2. congruence.
  - destruct Hin as [<-|Hin]; [now left|right; auto].
Qed.

(** X9: unsubscribing a topic the counter does not include still unbinds
    the queue from it, and leaves the counter as it was. *)
Theorem amqp_unsubscribe_uncounted
    (s : AMQPAscoltatore.t) (p : string) (cb : Js.Callback)
    (d : option Js.Callback) :
  AMQPAscoltatore.operational s = true ->
  SubsCounter.include (AMQPAscoltatore._subs_counter s) p = false ->
  let r := AMQPAscoltatore.unsubscribe p cb d s in
  Js.result r = Js.Ok tt
  /\ Js.calls r
     = [Ext.queue_once "queueUnbindOk" d;
        Ext.queue_unbind
          (AbstractAscoltatore._subTopic (AMQPAscoltatore.base s) p)]
  /\ AMQPAscoltatore._subs_counter (Js.state r)
     = AMQPAscoltatore._subs_counter s.
Proof.
  intros Hop Hinc r. subst r.
  rewrite unsubscribe_last
    by (try assumption; apply not_include_count in Hinc; lia).
  repeat split. cbn. now apply remove_uncounted.
Qed.

Lemma amqp_unsubscribe_uncounted_witness :
  Js.calls (AMQPAscoltatore.unsubscribe "never/subscribed" 1 None
              (AMQPAscoltatore.started Topic.mqtt))
  = [Ext.queue_once "queueUnbindOk" None;
     Ext.queue_unbind "never.subscribed"].
Proof.
  exact (proj1 (proj2 (amqp_unsubscribe_uncounted
                         (AMQPAscoltatore.started Topic.mqtt)
                         "never/subscribed" 1 None eq_refl eq_refl))).
Defined.

(** X10: the counter counts calls, not subscribers: after one subscribe of
    a pattern, an unsubscribe of the same pattern naming another delivery
    target unbinds the queue and empties the count, while the subscription
    of the first target is still in the local index. *)
Theorem amqp_unsubscribe_other_target
    (s : AMQPAscoltatore.t) (p : string) (cb1 cb2 : Js.Callback)
    (d1 d2 : option Js.Callback) :
  AMQPAscoltatore.operational s = true ->
  AMQPAscoltatore.accepts s p = true ->
  SubsCounter.include (AMQPAscoltatore._subs_counter s) p = false ->
  cb2 <> cb1 ->
  let s1 := Js.state (AMQPAscoltatore.subscribe p cb1 d1 s) in
  let r := AMQPAscoltatore.unsubscribe p cb2 d2 s1 in
  Js.calls r
  = [Ext.queue_once "queueUnbindOk" d2;
     Ext.queue_unbind
       (AbstractAscoltatore._subTopic (AMQPAscoltatore.base s) p)]
  /\ SubsCounter.include (AMQPAscoltatore._subs_counter (Js.state r)) p
     = false
  /\ In (p, cb1)
       (TrieAscoltatore.subscriptions
          (AMQPAscoltatore._ascoltatore (Js.state r))).
Proof.
  intros Hop Hacc Hinc Hne. cbv zeta.
  rewrite subscribe_first by assumption. cbn [Js.state fst snd].
  rewrite unsubscribe_last;
    [| exact Hop
     | cbn [AMQPAscoltatore._subs_counter AMQPAscoltatore.with_subs_counter
            AMQPAscoltatore.with_ascoltatore];
       rewrite count_add_eq; apply not_include_count in Hinc; lia].
  split; [reflexivity|]. split.
  - cbn. apply not_include_count. rewrite count_remove_eq, count_add_eq.
    apply not_include_count in Hinc. lia.
  - cbn. apply remove_first_keeps; [|congruence].
    apply in_or_app. right. now left.
Qed.

Lemma amqp_unsubscribe_other_target_witness :
  let s1 := Js.state (AMQPAscoltatore.subscribe "hello" 1 None
                        (AMQPAscoltatore.started Topic.mqtt)) in
  let r := AMQPAscoltatore.unsubscribe "hello" 2 None s1 in
  Js.calls r
  = [Ext.queue_once "queueUnbindOk" None; Ext.queue_unbind "hello"]
  /\ In ("hello", 1)
       (TrieAscoltatore.subscriptions
          (AMQPAscoltatore._ascoltatore (Js.state r))).
Proof.
  pose proof (amqp_unsubscribe_other_target
                (AMQPAscoltatore.started Topic.mqtt) "hello" 1 2 None None
                eq_refl eq_refl eq_refl ltac:(discriminate)) as (H1 & _ & H3).
  split; [exact H1|exact H3].
Defined.

(** ** Redis cluster: keys, channels and delivery *)

Lemma strip_trailing_append (c : ascii) (s : string) :
  Str.strip_trailing c (s +:+ String c EmptyString) = s.
Proof.
  induction s as [|a s IH].
  - change (Str.strip_trailing c (String c EmptyString) = EmptyString).
    cbn. now rewrite Ascii.eqb_refl.
  - rewrite append_cons. cbn [Str.strip_trailing]. rewrite IH.
    destruct (s +:+ String c EmptyString) eqn:E; [|reflexivity].
    destruct s; discriminate.
Qed.

Lemma last_char_snoc (c : ascii) (s : string) :
  Str.last_char (s +:+ String c EmptyString) = Some c.
Proof. now rewrite last_char_append. Qed.

Section RedisFrames.

Import RedisClusterAscoltatore.

Ltac frame_cases :=
  repeat (first
    [ solve [repeat split; reflexivity]
    | match goal with
      | |- context [match ?x with _ => _ end] => is_var x; destruct x
      | |- context [SubsCounter.include ?c ?p] =>
          destruct (SubsCounter.include c p)
      | |- context [Topic.valid_pattern ?c ?p] =>
          destruct (Topic.valid_pattern c p)
      | |- context [Str.includes ?c ?p] => destruct (Str.includes c p)
      | |- context [ends_in_slash ?c] => destruct (ends_in_slash c)
      | |- context [ends_in_slash_or_star ?c] =>
          destruct (ends_in_slash_or_star c)
      | |- context [@lookup ?K ?A ?M ?L ?k ?m] =>
          destruct (@lookup K A M L k m) as [[? ? ? []]|]
      end; ready_cbn ]).

(** The symbols an instance translates between are fixed at construction. *)
Lemma step_configured opts o s :
  configured opts s -> configured opts (Js.state (step o s)).
Proof.
  unfold configured. intros [<- H2].
  destruct s as [[syn nat rdy cl cd lst] mp dom cnt].
  cbn [base AbstractAscoltatore.settings
       AbstractAscoltatore._nativeSettings] in *. subst nat.
  destruct o as [topic cb done|topic cb done|topic m done|done|d|[]];
    cbn [step on_event].
  - unfold subscribe. ready_unfold. frame_cases.
  - unfold unsubscribe. ready_unfold. frame_cases.
  - unfold publish. ready_unfold. frame_cases.
  - destruct cd.
    + now rewrite redis_close_after_closed.
    + now rewrite redis_close_first.
  - now split.
  - now split.
  - now split.
  - now split.
  - unfold deliver. ready_unfold. frame_cases.
Qed.

Lemma run_configured opts ops s :
  configured opts s -> configured opts (run ops s).1.
Proof.
  revert s. induction ops as [|o ops IH]; intros s H; [exact H|].
  cbn [run]. pose proof (step_configured opts o s H) as H1.
  destruct (step o s) as [[r s1] l1].
  pose proof (IH s1 H1) as H2.
  destruct (run ops s1) as [s2 rest]. exact H2.
Qed.

Lemma new_configured opts : configured opts (new opts).
Proof. now split. Qed.

End RedisFrames.

Section RedisRoundTrips.

Import RedisClusterAscoltatore.

Lemma subscription_key_base s s' topic :
  base s' = base s -> subscription_key s' topic = subscription_key s topic.
Proof. unfold subscription_key. now intros ->. Qed.

Lemma retraction_call_base s s' topic done :
  base s' = base s -> retraction_call s' topic done = retraction_call s topic done.
Proof.
  intros H. unfold retraction_call, _containsWildcard.
  now rewrite (subscription_key_base s s' topic H), H.
Qed.

Lemma state_eq (s s' : t) :
  base s' = base s -> _ascoltatores s' = _ascoltatores s ->
  _domain s' = _domain s -> _subs_counter s' = _subs_counter s -> s' = s.
Proof. destruct s, s'. cbn. now intros -> -> -> ->. Qed.

End RedisRoundTrips.

(** X11: on a Redis-cluster instance that is not closed, unsubscribing a
    topic whose key the counter does not count leaves the instance exactly
    as it was, and still asks the cluster to retract the subscription. *)
Theorem redis_unsubscribe_uncounted
    (opts : Topic.Syntax) (ops : list RedisClusterAscoltatore.Op)
    (topic : string) (cb : Js.Callback) (done : option Js.Callback) :
  let s := (RedisClusterAscoltatore.run ops
              (RedisClusterAscoltatore.new opts)).1 in
  let key := RedisClusterAscoltatore.subscription_key s topic in
  let r := RedisClusterAscoltatore.unsubscribe topic cb done s in
  AbstractAscoltatore.close_begun (RedisClusterAscoltatore.base s) = false ->
  SubsCounter.count (RedisClusterAscoltatore._subs_counter s) key = 0 ->
  r = (Js.Ok tt, s, [RedisClusterAscoltatore.retraction_call s topic done]).
Proof.
  intros s key r Hcb Hzero.
  assert (Hs : RedisClusterAscoltatore.consistent s)
    by apply run_consistent, new_consistent.
  destruct (redis_unsubscribe_run s topic cb done Hcb (proj2 Hs))
    as (Hres & Hbase & Hdom & Hcnt & Hcase).
  fold key in Hcnt, Hcase. fold r in Hres, Hbase, Hdom, Hcnt, Hcase.
  assert (Hinc : SubsCounter.include
                   (RedisClusterAscoltatore._subs_counter s) key = false)
    by now apply not_include_count.
  rewrite (remove_uncounted _ _ Hinc) in Hcnt, Hcase.
  rewrite Hinc in Hcase.
  assert (Hnone : RedisClusterAscoltatore._ascoltatores s !! key = None).
  { destruct (RedisClusterAscoltatore._ascoltatores s !! key) eqn:E;
      [|reflexivity].
    assert (0 < SubsCounter.count
                  (RedisClusterAscoltatore._subs_counter s) key)
      by (apply (proj1 Hs); eauto).
    lia. }
  rewrite Hnone in Hcase. destruct Hcase as [Hcalls Hmap].
  rewrite (delete_id _ _ Hnone) in Hmap.
  destruct r as [[res s'] calls]. cbn [Js.result Js.state Js.calls fst snd] in *.
  subst res calls. now rewrite (state_eq s s').
Qed.

Lemma redis_unsubscribe_uncounted_witness :
  RedisClusterAscoltatore.unsubscribe "never/+" 1 None
    (RedisClusterAscoltatore.started Topic.mqtt)
  = (Js.Ok tt, RedisClusterAscoltatore.started Topic.mqtt,
     [Ext.rc_punsubscribe "never/*" None]).
Proof.
  exact (redis_unsubscribe_uncounted Topic.mqtt
           [RedisClusterAscoltatore.Notify RedisClusterAscoltatore.RcReady]
           "never/+" 1 None eq_refl eq_refl).
Defined.

(** X12: on a Redis-cluster instance that is not closed, subscribing a
    topic whose key is not counted yet and then unsubscribing it again
    brings back the map of local ascoltatores and every count: the
    subscribe reaches the cluster, the unsubscribe closes the local
    ascoltatore it had created and retracts the subscription. *)
Theorem redis_subscribe_unsubscribe_restores
    (opts : Topic.Syntax) (ops : list RedisClusterAscoltatore.Op)
    (topic : string) (cb : Js.Callback) (d1 d2 : option Js.Callback) :
  let s := (RedisClusterAscoltatore.run ops
              (RedisClusterAscoltatore.new opts)).1 in
  let key := RedisClusterAscoltatore.subscription_key s topic in
  let r1 := RedisClusterAscoltatore.subscribe topic cb d1 s in
  let r2 := RedisClusterAscoltatore.unsubscribe topic cb d2 (Js.state r1) in
  AbstractAscoltatore.close_begun (RedisClusterAscoltatore.base s) = false ->
  SubsCounter.count (RedisClusterAscoltatore._subs_counter s) key = 0 ->
  Js.calls r1 = [RedisClusterAscoltatore.subscription_call s topic d1]
  /\ Js.calls r2
     = [Ext.trie_close key;
        RedisClusterAscoltatore.retraction_call s topic d2]
  /\ RedisClusterAscoltatore._ascoltatores (Js.state r2)
     = RedisClusterAscoltatore._ascoltatores s
  /\ (forall k,
        SubsCounter.count
          (RedisClusterAscoltatore._subs_counter (Js.state r2)) k
        = SubsCounter.count (RedisClusterAscoltatore._subs_counter s) k)
  /\ RedisClusterAscoltatore.base (Js.state r2)
     = RedisClusterAscoltatore.base s.
Proof.
  intros s key r1 r2 Hcb Hzero.
  assert (Hs : RedisClusterAscoltatore.consistent s)
    by apply run_consistent, new_consistent.
  destruct (redis_subscribe_run s topic cb d1 Hcb (proj2 Hs))
    as (Hcalls1 & Hbase1 & Hdom1 & Hcnt1 & a & Hmap1 & Ha).
  fold key in Hcnt1, Hmap1. fold r1 in Hcalls1, Hbase1, Hdom1, Hcnt1, Hmap1.
  assert (Hs1 : RedisClusterAscoltatore.consistent (Js.state r1))
    by now apply subscribe_consistent.
  assert (Hcb1 : AbstractAscoltatore.close_begun
                   (RedisClusterAscoltatore.base (Js.state r1)) = false)
    by now rewrite Hbase1.
  destruct (redis_unsubscribe_run (Js.state r1) topic cb d2 Hcb1 (proj2 Hs1))
    as (_ & Hbase2 & _ & Hcnt2 & Hcase).
  rewrite (subscription_key_base s (Js.state r1) topic Hbase1) in Hcnt2, Hcase.
  rewrite (retraction_call_base s (Js.state r1) topic d2 Hbase1) in Hcase.
  fold key in Hcnt2, Hcase. fold r2 in Hbase2, Hcnt2, Hcase.
  rewrite Hcnt1, Hmap1 in Hcase. rewrite Hcnt1 in Hcnt2.
  assert (Hinc : SubsCounter.include
                   (SubsCounter.remove key
                      (SubsCounter.add key
                         (RedisClusterAscoltatore._subs_counter s))) key
                 = false)
    by (apply not_include_count; rewrite count_remove_eq, count_add_eq; lia).
  rewrite Hinc, lookup_insert_eq, delete_insert_eq in Hcase.
  destruct Hcase as [Hcalls2 Hmap2].
  assert (Hnone : RedisClusterAscoltatore._ascoltatores s !! key = None).
  { destruct (RedisClusterAscoltatore._ascoltatores s !! key) eqn:E;
      [|reflexivity].
    assert (0 < SubsCounter.count
                  (RedisClusterAscoltatore._subs_counter s) key)
      by (apply (proj1 Hs); eauto).
    lia. }
  rewrite (delete_id _ _ Hnone) in Hmap2.
  split; [exact Hcalls1|]. split; [exact Hcalls2|]. split; [exact Hmap2|].
  split; [|congruence].
  intros k. rewrite Hcnt2.
  destruct (decide (key = k)) as [<-|Hne].
  - rewrite count_remove_eq, count_add_eq. lia.
  - now rewrite count_remove_ne, count_add_ne.
Qed.

Lemma redis_subscribe_unsubscribe_restores_witness :
  let s := RedisClusterAscoltatore.started Topic.mqtt in
  let r1 := RedisClusterAscoltatore.subscribe "hello" 1 None s in
  let r2 := RedisClusterAscoltatore.unsubscribe "hello" 1 None (Js.state r1) in
  Js.calls r1 = [Ext.rc_subscribe "hello/" None]
  /\ Js.calls r2 = [Ext.trie_close "hello/"; Ext.rc_unsubscribe "hello/" None]
  /\ RedisClusterAscoltatore._ascoltatores (Js.state r2) = ∅.
Proof.
  pose proof (redis_subscribe_unsubscribe_restores Topic.mqtt
                [RedisClusterAscoltatore.Notify RedisClusterAscoltatore.RcReady]
                "hello" 1 None None eq_refl eq_refl) as (H1 & H2 & H3 & _).
  split; [exact H1|]. split; [exact H2|exact H3].
Defined.

(** ** Redis cluster: the registered domain *)

Section RedisDomain.

Import RedisClusterAscoltatore.

Lemma subscribe_entry_domain s topic cb done :
  AbstractAscoltatore.close_begun (base s) = false ->
  let key := subscription_key s topic in
  let r := subscribe topic cb done s in
  _domain (Js.state r) = _domain s
  /\ exists a,
       _ascoltatores (Js.state r) = <[key := a]> (_ascoltatores s)
       /\ TrieAscoltatore.domain a
          = match _ascoltatores s !! key with
            | Some a0 => TrieAscoltatore.domain a0
            | None => _domain s
            end.
Proof.
  intros Hcb key r. subst r.
  apply orb_false_elim in Hcb as [H1 H2].
  destruct s as [b m dom cnt].
  cbn [base _ascoltatores _subs_counter _domain] in *.
  unfold subscribe, at_key. js_unfold. redis_norm.
  rewrite raiseIfClosed_open by assumption. redis_norm. fold key.
  destruct (_containsWildcard _ topic); redis_norm;
    (destruct (m !! key) as [a|] eqn:Em; redis_norm;
     [ rewrite Em;
       unfold TrieAscoltatore.subscribe, Js.bind, Js.get, Js.throw, Js.modify;
       destruct (TrieAscoltatore.closed a);
       [|destruct (Topic.valid_pattern _ topic)];
       redis_norm; cbn [negb app];
       (split; [reflexivity|]); eexists; split; reflexivity
     | rewrite lookup_insert_eq;
       unfold TrieAscoltatore.subscribe, Js.bind, Js.get, Js.throw, Js.modify;
       destruct dom;
       cbn [TrieAscoltatore.closed TrieAscoltatore.registerDomain
            TrieAscoltatore.new TrieAscoltatore.syntax];
       destruct (Topic.valid_pattern _ topic); redis_norm; cbn [negb app];
       (split; [reflexivity|]); eexists; rewrite insert_insert_eq;
       split; reflexivity ]).
Qed.

Lemma domain_insert (m : gmap string TrieAscoltatore.t) key a d :
  (forall k a0, m !! k = Some a0 -> TrieAscoltatore.domain a0 = d) ->
  TrieAscoltatore.domain a = d ->
  forall k a0, <[key := a]> m !! k = Some a0 -> TrieAscoltatore.domain a0 = d.
Proof.
  intros Hm Ha k a0. destruct (decide (key = k)) as [<-|Hne].
  - rewrite lookup_insert_eq. now intros [= <-].
  - rewrite lookup_insert_ne by assumption. apply Hm.
Qed.

Lemma step_domain_registered o s :
  consistent s -> domain_registered s ->
  domain_registered (Js.state (step o s)).
Proof.
  intros Hs Hd. destruct o as [topic cb done|topic cb done|topic m done|done|d|e];
    cbn [step].
  - destruct (AbstractAscoltatore.close_begun (base s)) eqn:Hcb.
    { now rewrite redis_subscribe_rejected. }
    destruct (subscribe_entry_domain s topic cb done Hcb)
      as (Hdom & a & Hmap & Ha).
    unfold domain_registered. rewrite Hdom, Hmap.
    apply domain_insert; [exact Hd|]. rewrite Ha.
    destruct (_ascoltatores s !! subscription_key s topic) eqn:E;
      [exact (Hd _ _ E)|reflexivity].
  - destruct (AbstractAscoltatore.close_begun (base s)) eqn:Hcb.
    { now rewrite redis_unsubscribe_rejected. }
    destruct (redis_unsubscribe_run s topic cb done Hcb (proj2 Hs))
      as (_ & _ & Hdom & _ & Hcase).
    unfold domain_registered. rewrite Hdom.
    destruct (SubsCounter.include _ _); destruct Hcase as [_ ->].
    + destruct (_ascoltatores s !! subscription_key s topic) eqn:E;
        [|exact Hd].
      apply domain_insert; [exact Hd|]. cbn. exact (Hd _ _ E).
    + intros k a0 H. apply lookup_delete_Some in H as [_ H]. exact (Hd k a0 H).
  - now rewrite publish_state.
  - destruct (AbstractAscoltatore._closed (base s)) eqn:E.
    + now rewrite redis_close_after_closed.
    + rewrite redis_close_first by assumption.
      intros k a0. cbn. rewrite lookup_empty. discriminate.
  - destruct s as [b m dom cnt]. intros k a0. cbn. rewrite lookup_fmap.
    intros H. apply fmap_Some in H as [a1 [_ ->]]. reflexivity.
  - destruct s as [b m dom cnt]. destruct e; try exact Hd.
    unfold on_event, deliver. js_unfold. js_cbn.
    destruct (m !! sub); exact Hd.
Qed.

Lemma run_domain_registered ops s :
  consistent s -> domain_registered s -> domain_registered (run ops s).1.
Proof.
  revert s. induction ops as [|o ops IH]; intros s Hs Hd; [exact Hd|].
  cbn [run]. pose proof (step_consistent o s Hs) as Hs1.
  pose proof (step_domain_registered o s Hs Hd) as Hd1.
  destruct (step o s) as [[r s1] l1].
  pose proof (IH s1 Hs1 Hd1) as H2.
  destruct (run ops s1) as [s2 rest]. exact H2.
Qed.

End RedisDomain.

(** X13: whatever a Redis-cluster instance has gone through, every local
    ascoltatore it holds carries the domain registered on the instance last,
    whether the ascoltatore existed when the domain was registered or was
    created by a later subscribe. *)
Theorem redis_domain_registered_everywhere
    (opts : Topic.Syntax) (ops : list RedisClusterAscoltatore.Op)
    (key : string) (a : TrieAscoltatore.t) :
  let s := (RedisClusterAscoltatore.run ops
              (RedisClusterAscoltatore.new opts)).1 in
  RedisClusterAscoltatore._ascoltatores s !! key = Some a ->
  TrieAscoltatore.domain a = RedisClusterAscoltatore._domain s.
Proof.
  intros s. apply run_domain_registered.
  - apply new_consistent.
  - intros k a0. cbn. rewrite lookup_empty. discriminate.
Qed.

Lemma redis_domain_registered_everywhere_witness :
  let s := (RedisClusterAscoltatore.run
              [RedisClusterAscoltatore.Subscribe "a" 1 None;
               RedisClusterAscoltatore.RegisterDomain 7;
               RedisClusterAscoltatore.Subscribe "b" 2 None]
              (RedisClusterAscoltatore.new Topic.mqtt)).1 in
  TrieAscoltatore.domain
    {| TrieAscoltatore.syntax := Topic.mqtt;
       TrieAscoltatore.subscriptions := [("a", 1)];
       TrieAscoltatore.domain := Some 7;
       TrieAscoltatore.closed := false |}
  = RedisClusterAscoltatore._domain s.
Proof.
  exact (redis_domain_registered_everywhere Topic.mqtt
           [RedisClusterAscoltatore.Subscribe "a" 1 None;
            RedisClusterAscoltatore.RegisterDomain 7;
            RedisClusterAscoltatore.Subscribe "b" 2 None]
           "a/" _ ltac:(vm_compute; reflexivity)).
Defined.

(** ** Redis cluster: from publish to the local ascoltatore *)

Section RedisDelivery.

Import RedisClusterAscoltatore.

Lemma deliver_known s sub chan m :
  is_Some (_ascoltatores s !! sub) ->
  on_event (Deferred sub chan m) s
  = (Js.Ok tt, s,
     [Ext.trie_publish (Some sub)
        (AbstractAscoltatore._recvTopic (base s) (Str.strip_trailing "/" chan))
        m]).
Proof.
  intros [a Ha]. destruct s as [b mp dom cnt]. cbn [_ascoltatores] in Ha.
  unfold on_event, deliver. js_unfold. js_cbn. now rewrite Ha.
Qed.

Lemma deliver_unknown s sub chan m :
  _ascoltatores s !! sub = None ->
  on_event (Deferred sub chan m) s = (Js.Ok tt, s, []).
Proof.
  intros Ha. destruct s as [b mp dom cnt]. cbn [_ascoltatores] in Ha.
  unfold on_event, deliver. js_unfold. js_cbn. now rewrite Ha.
Qed.

Lemma slash_or_star_last (sub : string) :
  ends_in_slash_or_star sub
  = ends_in_slash sub
    || match Str.last_char sub with
       | Some c => Ascii.eqb c "*"
       | None => false
       end.
Proof.
  unfold ends_in_slash_or_star, ends_in_slash.
  now destruct (Str.last_char sub).
Qed.

End RedisDelivery.

(** X14: a message published on topic [t] by one Redis-cluster instance and
    reported to another one under a key the latter has subscribed is handed
    to that key's local ascoltatore under topic [t] again, provided [t]
    translates back and forth and its translation does not end in the
    separator: the [/] appended on the way out is the one stripped on the
    way in. *)
Theorem redis_message_delivered_under_topic
    (opts : Topic.Syntax)
    (ops pops : list RedisClusterAscoltatore.Op)
    (pattern t : string) (cb : Js.Callback) (m : Js.Value)
    (d d' : option Js.Callback) :
  let s := (RedisClusterAscoltatore.run ops
              (RedisClusterAscoltatore.new opts)).1 in
  let p := (RedisClusterAscoltatore.run pops
              (RedisClusterAscoltatore.new opts)).1 in
  let key := RedisClusterAscoltatore.subscription_key s pattern in
  let s1 := Js.state (RedisClusterAscoltatore.subscribe pattern cb d s) in
  AbstractAscoltatore.close_begun (RedisClusterAscoltatore.base s) = false ->
  AbstractAscoltatore.close_begun (RedisClusterAscoltatore.base p) = false ->
  Topic.translatable opts RedisClusterAscoltatore.nativeSettings t = true ->
  RedisClusterAscoltatore.ends_in_slash
    (Topic.translateOut opts RedisClusterAscoltatore.nativeSettings t)
  = false ->
  let chan :=
    Topic.translateOut opts RedisClusterAscoltatore.nativeSettings t
    +:+ "/" in
  let payload :=
    match m with
    | Js.Undefined | Js.Null => Js.Bool false
    | _ => m
    end in
  Js.calls (RedisClusterAscoltatore.publish t m d' p)
  = [Ext.console_log m; Ext.rc_publish chan payload d']
  /\ RedisClusterAscoltatore.on_event
       (RedisClusterAscoltatore.Deferred key chan payload) s1
     = (Js.Ok tt, s1, [Ext.trie_publish (Some key) t payload]).
Proof.
  intros s p key s1 Hs Hp Htr Hend chan payload.
  assert (Cs : RedisClusterAscoltatore.configured opts s)
    by apply run_configured, new_configured.
  assert (Cp : RedisClusterAscoltatore.configured opts p)
    by apply run_configured, new_configured.
  assert (Is : RedisClusterAscoltatore.consistent s)
    by apply run_consistent, new_consistent.
  destruct Cs as [Cs1 Cs2]. destruct Cp as [Cp1 Cp2].
  apply orb_false_elim in Hp as [Hp1 Hp2].
  pose proof (redis_publish_run p t m d' Hp1 Hp2) as Hpub. cbv zeta in Hpub.
  unfold AbstractAscoltatore._pubTopic in Hpub.
  rewrite Cp1, Cp2, Hend in Hpub. cbn [negb] in Hpub.
  split; [now rewrite Hpub|]. subst chan.
  destruct (redis_subscribe_run s pattern cb d Hs (proj2 Is))
    as (_ & Hbase & _ & _ & a & Hmap & _).
  fold key in Hmap. fold s1 in Hbase, Hmap.
  rewrite deliver_known by (rewrite Hmap, lookup_insert_eq; eauto).
  rewrite strip_trailing_append, Hbase.
  unfold AbstractAscoltatore._recvTopic. rewrite Cs1, Cs2.
  now rewrite translate_roundtrip.
Qed.

Lemma redis_message_delivered_under_topic_witness :
  let s := RedisClusterAscoltatore.started Topic.mqtt in
  let s1 := Js.state (RedisClusterAscoltatore.subscribe "sensors/+/temp" 1
                        None s) in
  Js.calls (RedisClusterAscoltatore.publish "sensors/kitchen/temp"
              (Js.Str "21.5") None s)
  = [Ext.console_log (Js.Str "21.5");
     Ext.rc_publish "sensors/kitchen/temp/" (Js.Str "21.5") None]
  /\ RedisClusterAscoltatore.on_event
       (RedisClusterAscoltatore.Deferred "sensors/*/temp/"
          "sensors/kitchen/temp/" (Js.Str "21.5")) s1
     = (Js.Ok tt, s1,
        [Ext.trie_publish (Some "sensors/*/temp/") "sensors/kitchen/temp"
           (Js.Str "21.5")]).
Proof.
  exact (redis_message_delivered_under_topic Topic.mqtt
           [RedisClusterAscoltatore.Notify RedisClusterAscoltatore.RcReady]
           [RedisClusterAscoltatore.Notify RedisClusterAscoltatore.RcReady]
           "sensors/+/temp" "sensors/kitchen/temp" 1 (Js.Str "21.5")
           None None eq_refl eq_refl eq_refl eq_refl).
Defined.

(** X15: when the translation of topic [t] for subscribing and the one for
    publishing give the same transport topic, the key a Redis-cluster
    subscribe of [t] uses is the channel a publish of [t] sends to, unless
    that transport topic ends in [*]: then the subscribe keeps it as key
    while the publish appends [/] to it. *)
Theorem redis_subscribe_key_is_publish_channel
    (s p : RedisClusterAscoltatore.t)
    (t : string) (m : Js.Value) (done : option Js.Callback) :
  let sub :=
    AbstractAscoltatore._subTopic (RedisClusterAscoltatore.base s) t in
  let key := RedisClusterAscoltatore.subscription_key s t in
  let payload :=
    match m with
    | Js.Undefined | Js.Null => Js.Bool false
    | _ => m
    end in
  AbstractAscoltatore.close_begun (RedisClusterAscoltatore.base p) = false ->
  AbstractAscoltatore._pubTopic (RedisClusterAscoltatore.base p) t = sub ->
  exists chan,
    Js.calls (RedisClusterAscoltatore.publish t m done p)
    = [Ext.console_log m; Ext.rc_publish chan payload done]
    /\ (Str.last_char sub <> Some "*"%char -> chan = key)
    /\ (Str.last_char sub = Some "*"%char ->
        key = sub /\ chan = sub +:+ "/").
Proof.
  intros sub key payload Hp Hsame.
  apply orb_false_elim in Hp as [Hp1 Hp2].
  pose proof (redis_publish_run p t m done Hp1 Hp2) as Hpub.
  cbv zeta in Hpub. rewrite Hsame in Hpub.
  eexists. split; [now rewrite Hpub|].
  unfold key, RedisClusterAscoltatore.subscription_key. fold sub.
  rewrite slash_or_star_last.
  unfold RedisClusterAscoltatore.ends_in_slash.
  destruct (Str.last_char sub) as [c|].
  - destruct (Ascii.eqb_spec c "/") as [Eslash|Hslash];
      destruct (Ascii.eqb_spec c "*") as [Estar|Hstar];
      try (subst c; discriminate); cbn [orb negb]; split; intros H;
      try congruence; try reflexivity; now split.
  - split; [reflexivity|discriminate].
Qed.

Lemma redis_subscribe_key_is_publish_channel_witness :
  exists chan,
    Js.calls (RedisClusterAscoltatore.publish "hello" (Js.Str "x") None
                (RedisClusterAscoltatore.started Topic.mqtt))
    = [Ext.console_log (Js.Str "x"); Ext.rc_publish chan (Js.Str "x") None]
    /\ chan = RedisClusterAscoltatore.subscription_key
                (RedisClusterAscoltatore.new Topic.mqtt) "hello".
Proof.
  destruct (redis_subscribe_key_is_publish_channel
              (RedisClusterAscoltatore.new Topic.mqtt)
              (RedisClusterAscoltatore.started Topic.mqtt)
              "hello" (Js.Str "x") None eq_refl eq_refl)
    as (chan & H1 & H2 & _).
  exists chan. split; [exact H1|].
  apply H2. vm_compute. discriminate.
Defined.

(** X16: once the last reference to a key has been unsubscribed, a message
    the cluster still reports under that key is dropped: nothing is
    published locally and nothing is thrown. *)
Theorem redis_late_message_dropped
    (opts : Topic.Syntax) (ops : list RedisClusterAscoltatore.Op)
    (topic chan : string) (cb : Js.Callback) (done : option Js.Callback)
    (m : Js.Value) :
  let s := (RedisClusterAscoltatore.run ops
              (RedisClusterAscoltatore.new opts)).1 in
  let key := RedisClusterAscoltatore.subscription_key s topic in
  let s1 := Js.state (RedisClusterAscoltatore.unsubscribe topic cb done s) in
  AbstractAscoltatore.close_begun (RedisClusterAscoltatore.base s) = false ->
  SubsCounter.count (RedisClusterAscoltatore._subs_counter s) key <= 1 ->
  RedisClusterAscoltatore.on_event
    (RedisClusterAscoltatore.Deferred key chan m) s1
  = (Js.Ok tt, s1, []).
Proof.
  intros s key s1 Hcb Hlast.
  assert (Hs : RedisClusterAscoltatore.consistent s)
    by apply run_consistent, new_consistent.
  destruct (redis_unsubscribe_run s topic cb done Hcb (proj2 Hs))
    as (_ & _ & _ & _ & Hcase).
  fold key in Hcase. fold s1 in Hcase.
  assert (Hinc : SubsCounter.include
                   (SubsCounter.remove key
                      (RedisClusterAscoltatore._subs_counter s)) key
                 = false)
    by (apply not_include_count; rewrite count_remove_eq; lia).
  rewrite Hinc in Hcase. destruct Hcase as [_ Hmap].
  apply deliver_unknown. rewrite Hmap. apply lookup_delete_eq.
Qed.

Lemma redis_late_message_dropped_witness :
  let s := (RedisClusterAscoltatore.run
              [RedisClusterAscoltatore.Subscribe "hello" 1 None]
              (RedisClusterAscoltatore.new Topic.mqtt)).1 in
  let s1 := Js.state (RedisClusterAscoltatore.unsubscribe "hello" 1 None s) in
  RedisClusterAscoltatore.on_event
    (RedisClusterAscoltatore.Deferred "hello/" "hello/" (Js.Str "late")) s1
  = (Js.Ok tt, s1, []).
Proof.
  exact (redis_late_message_dropped Topic.mqtt
           [RedisClusterAscoltatore.Subscribe "hello" 1 None]
           "hello" "hello/" 1 None (Js.Str "late") eq_refl
           ltac:(vm_compute; lia)).
Defined.

(** X17: [close()] on a Redis-cluster instance that is not closed
    disconnects the cluster client once, closes exactly the local
    ascoltatores the instance holds, and leaves it closed with an empty map
    and an empty counter. *)
Theorem redis_close_releases_everything
    (s : RedisClusterAscoltatore.t) (d : option Js.Callback) :
  AbstractAscoltatore._closed (RedisClusterAscoltatore.base s) = false ->
  let r := RedisClusterAscoltatore.close d s in
  Js.result r = Js.Ok tt
  /\ List.filter Ext.is_transport (Js.calls r) = [Ext.rc_disconnect d]
  /\ (forall key,
        In (Ext.trie_close key) (Js.calls r)
        <-> is_Some (RedisClusterAscoltatore._ascoltatores s !! key))
  /\ AbstractAscoltatore.state (RedisClusterAscoltatore.base (Js.state r))
     = AbstractAscoltatore.closedState
  /\ RedisClusterAscoltatore._ascoltatores (Js.state r) = ∅
  /\ RedisClusterAscoltatore._subs_counter (Js.state r) = ∅.
Proof.
  intros H r. subst r. rewrite redis_close_first by assumption.
  cbn [Js.result Js.calls Js.state fst snd].
  split; [reflexivity|]. split; [|split; [|repeat split]].
  - cbn [List.filter Ext.is_transport]. f_equal.
    rewrite List.filter_app. cbn [List.filter Ext.is_transport].
    now rewrite !filter_map_none.
  - intros key. split.
    + intros [Hin|Hin]; [discriminate|].
      apply in_app_or in Hin as [Hin|[Hin|Hin]]; [|discriminate|].
      * apply in_map_iff in Hin as [k [[= ->] Hin]].
        apply in_map_iff in Hin as [[k' a] [Hk Hin]]. cbn in Hk. subst k'.
        apply list_elem_of_In, elem_of_map_to_list in Hin. eauto.
      * apply in_map_iff in Hin as [? [? _]]. discriminate.
    + intros [a Ha]. right. apply in_or_app. left.
      apply in_map, in_map_iff. exists (key, a). split; [reflexivity|].
      apply list_elem_of_In, elem_of_map_to_list. exact Ha.
Qed.

Lemma redis_close_releases_everything_witness :
  let s := (RedisClusterAscoltatore.run
              [RedisClusterAscoltatore.Subscribe "hello" 1 None]
              (RedisClusterAscoltatore.new Topic.mqtt)).1 in
  List.filter Ext.is_transport
    (Js.calls (RedisClusterAscoltatore.close (Some 5) s))
  = [Ext.rc_disconnect (Some 5)]
  /\ In (Ext.trie_close "hello/")
       (Js.calls (RedisClusterAscoltatore.close (Some 5) s)).
Proof.
  pose proof (redis_close_releases_everything
                (RedisClusterAscoltatore.run
                   [RedisClusterAscoltatore.Subscribe "hello" 1 None]
                   (RedisClusterAscoltatore.new Topic.mqtt)).1 (Some 5)
                eq_refl) as (_ & H2 & H3 & _).
  split; [exact H2|].
  apply H3. vm_compute. eauto.
Defined.

(** ** AMQP: from publish to the local index *)

Section AMQPDelivery.

Import AMQPAscoltatore.

Variable rt : Js.Runtime.

Lemma configured_kept opts s s' :
  keeps_wiring s s' -> configured opts s -> configured opts s'.
Proof.
  intros (A1 & A2 & _) [C1 C2]. split; congruence.
Qed.

Lemma close_configured opts s d :
  configured opts s -> configured opts (Js.state (close d s)).
Proof.
  destruct s as [[syn nat rdy cl cd lst] c e q a cnt ls st].
  unfold configured, close. js_unfold. js_cbn.
  destruct cd; [easy|]. destruct cl.
  - destruct d; easy.
  - js_cbn. destruct c; [|easy]. js_cbn. destruct q; easy.
Qed.

Lemma on_event_configured opts s ev :
  configured opts s -> configured opts (Js.state (on_event ev s)).
Proof.
  intros C. unfold on_event. unfold Js.bind at 1. cbn [Js.get].
  destruct ev.
  1-5: destruct s as [[syn nat rdy cl cd lst] c e q a cnt ls []];
       try exact C; js_unfold; js_cbn;
       try (destruct q as [[]|]; try exact C); exact C.
  - assert (H := listeners_keep_wiring (Some cause) (listeners_for "error" s) s).
    apply (configured_kept opts s); [|exact C].
    destruct (stage s); destruct (Js.for_each _ _ s) as [[r s1] l1]; exact H.
  - assert (H := listeners_keep_wiring None (listeners_for "close" s) s).
    apply (configured_kept opts s); [|exact C].
    destruct (stage s); destruct (Js.for_each _ _ s) as [[r s1] l1]; exact H.
  - destruct s as [b c e q a cnt ls st]. js_unfold. js_cbn.
    destruct st; destruct q; exact C.
Qed.

Lemma amqp_step_configured opts o s :
  configured opts s -> configured opts (Js.state (step rt o s)).
Proof.
  intros C. destruct o; cbn [step].
  - exact (configured_kept _ _ _ (subscribe_keeps_wiring s topic callback done) C).
  - exact (configured_kept _ _ _
             (unsubscribe_keeps_wiring s topic callback done) C).
  - exact (configured_kept _ _ _
             (publish_keeps_wiring rt s topic message done) C).
  - now apply close_configured.
  - now apply on_event_configured.
Qed.

Lemma amqp_run_configured opts ops s :
  configured opts s -> configured opts (run rt ops s).1.
Proof.
  revert s. induction ops as [|o ops IH]; intros s C; [exact C|].
  cbn [run]. pose proof (amqp_step_configured opts o s C) as C1.
  destruct (step rt o s) as [[r s1] l1].
  pose proof (IH s1 C1) as C2.
  destruct (run rt ops s1) as [s2 rest]. exact C2.
Qed.

Lemma amqp_new_configured opts : configured opts (new opts).
Proof. now split. Qed.

Lemma message_run s routingKey data :
  _queue s = Some tt ->
  on_event (Message routingKey data) s
  = (Js.Ok tt, s,
     [Ext.trie_publish None
        (AbstractAscoltatore._recvTopic (base s) routingKey) (Js.Str data)]).
Proof.
  intros Hq. destruct s as [b c e q a cnt ls st]. cbn [_queue] in Hq. subst q.
  unfold on_event. js_unfold. js_cbn. now destruct st.
Qed.

End AMQPDelivery.

(** X18: what a ready AMQP instance publishes on topic [t] goes to the
    exchange under a routing key which, when the broker delivers a message
    with it to another ready instance of the same settings, is published to
    that instance's local index under [t] again, provided [t] translates
    back and forth. *)
Theorem amqp_message_delivered_under_topic
    (rt : Js.Runtime) (opts : Topic.Syntax)
    (ops pops : list AMQPAscoltatore.Op)
    (t data : string) (m : Js.Value) (done : option Js.Callback) :
  let s := (AMQPAscoltatore.run rt ops (AMQPAscoltatore.new opts)).1 in
  let p := (AMQPAscoltatore.run rt pops (AMQPAscoltatore.new opts)).1 in
  AbstractAscoltatore._ready (AMQPAscoltatore.base s) = true ->
  AbstractAscoltatore.close_begun (AMQPAscoltatore.base s) = false ->
  AbstractAscoltatore._ready (AMQPAscoltatore.base p) = true ->
  AbstractAscoltatore.close_begun (AMQPAscoltatore.base p) = false ->
  Topic.translatable opts AMQPAscoltatore.nativeSettings t = true ->
  let routingKey :=
    Topic.translateOut opts AMQPAscoltatore.nativeSettings t in
  In (Ext.exchange_publish routingKey (Js.String_ rt m)
        AMQPAscoltatore.oneMinute)
     (Js.calls (AMQPAscoltatore.publish rt t m done p))
  /\ AMQPAscoltatore.on_event (AMQPAscoltatore.Message routingKey data) s
     = (Js.Ok tt, s, [Ext.trie_publish None t (Js.Str data)]).
Proof.
  intros s p Hrs Hcs Hrp Hcp Htr routingKey.
  assert (Cs : AMQPAscoltatore.configured opts s)
    by apply amqp_run_configured, amqp_new_configured.
  assert (Cp : AMQPAscoltatore.configured opts p)
    by apply amqp_run_configured, amqp_new_configured.
  assert (Ws : AMQPAscoltatore.wired s) by apply run_wired, new_wired.
  assert (Wp : AMQPAscoltatore.wired p) by apply run_wired, new_wired.
  destruct Cs as [Cs1 Cs2]. destruct Cp as [Cp1 Cp2].
  destruct Ws as (_ & Ws2 & Ws3). destruct (Ws3 Hcs) as (_ & _ & Hq).
  rewrite (Ws2 Hrs) in Hq. specialize (Hq ltac:(cbn; lia)).
  assert (Hop : AMQPAscoltatore.operational p = true).
  { destruct Wp as (Wp1 & Wp2 & Wp3). destruct (Wp3 Hcp) as (Hc & He & Hq').
    rewrite (Wp2 Hrp) in He, Hq'.
    specialize (He ltac:(cbn; lia)). specialize (Hq' ltac:(cbn; lia)).
    apply orb_false_elim in Hcp as [Hcl Hcd].
    unfold AMQPAscoltatore.operational.
    rewrite Hc, He, Hq', Wp1; cbn.
    unfold AbstractAscoltatore.close_begun. now rewrite Hcl, Hcd. }
  destruct (amqp_publish_run rt p t m done Hop) as (forwards & Hpub & _).
  unfold AbstractAscoltatore._pubTopic in Hpub. rewrite Cp1, Cp2 in Hpub.
  split.
  - rewrite Hpub. cbn [Js.calls snd]. apply in_or_app. right. left.
    reflexivity.
  - rewrite message_run by exact Hq.
    unfold AbstractAscoltatore._recvTopic.
    rewrite Cs1, Cs2. subst routingKey. now rewrite translate_roundtrip.
Qed.

Lemma amqp_message_delivered_under_topic_witness :
  let s := (AMQPAscoltatore.run Js.example_runtime
              (map AMQPAscoltatore.Notify AMQPAscoltatore.startup)
              (AMQPAscoltatore.new Topic.mqtt)).1 in
  In (Ext.exchange_publish "sensors.kitchen.temp"
        (Js.String_ Js.example_runtime (Js.Str "21.5"))
        AMQPAscoltatore.oneMinute)
     (Js.calls (AMQPAscoltatore.publish Js.example_runtime
                  "sensors/kitchen/temp" (Js.Str "21.5") None s))
  /\ AMQPAscoltatore.on_event
       (AMQPAscoltatore.Message "sensors.kitchen.temp" "21.5") s
     = (Js.Ok tt, s,
        [Ext.trie_publish None "sensors/kitchen/temp" (Js.Str "21.5")]).
Proof.
  exact (amqp_message_delivered_under_topic Js.example_runtime Topic.mqtt
           (map AMQPAscoltatore.Notify AMQPAscoltatore.startup)
           (map AMQPAscoltatore.Notify AMQPAscoltatore.startup)
           "sensors/kitchen/temp" "21.5" (Js.Str "21.5") None
           eq_refl eq_refl eq_refl eq_refl eq_refl).
Defined.

(** ** AMQP: the start sequence *)

Section AMQPStart.

Import AMQPAscoltatore.

Variable rt : Js.Runtime.

Ltac quiet_cases :=
  repeat (first
    [ reflexivity
    | match goal with
      | |- context [match ?x with _ => _ end] => is_var x; destruct x
      | |- context [SubsCounter.include ?c ?p] =>
          destruct (SubsCounter.include c p)
      | |- context [Topic.valid_pattern ?c ?p] =>
          destruct (Topic.valid_pattern c p)
      | |- context [equals ?c ?p] => destruct (equals c p)
      | |- context [endsWith ?c ?p] => destruct (endsWith c p)
      end; ready_cbn ]).

Lemma subscribe_quiet s topic cb done :
  List.filter is_start_call (Js.calls (subscribe topic cb done s)) = [].
Proof.
  destruct s as [[syn nat rdy cl cd lst] c e q [tsyn subs dom tcl] cnt ls st].
  unfold subscribe. ready_unfold. quiet_cases.
Qed.

Lemma unsubscribe_quiet s topic cb done :
  List.filter is_start_call (Js.calls (unsubscribe topic cb done s)) = [].
Proof.
  destruct s as [[syn nat rdy cl cd lst] c e q [tsyn subs dom tcl] cnt ls st].
  unfold unsubscribe. ready_unfold. quiet_cases.
Qed.

Lemma publish_quiet s topic m done :
  List.filter is_start_call (Js.calls (publish rt topic m done s)) = [].
Proof.
  destruct s as [[syn nat rdy cl cd lst] c e q [tsyn subs dom tcl] cnt ls st].
  unfold publish. ready_unfold. quiet_cases.
Qed.

Lemma close_quiet s d :
  List.filter is_start_call (Js.calls (close d s)) = []
  /\ stage (Js.state (close d s)) = stage s.
Proof.
  destruct s as [[syn nat rdy cl cd lst] c e q a cnt ls st].
  unfold close. js_unfold. js_cbn.
  destruct cd; [easy|]. destruct cl.
  - destruct d; easy.
  - js_cbn. destruct c; [|easy]. js_cbn. destruct q; easy.
Qed.

Lemma run_listener_quiet cause l s :
  List.filter is_start_call (Js.calls (run_listener cause l s)) = [].
Proof.
  destruct l as [|d].
  - destruct s, cause; reflexivity.
  - destruct (AbstractAscoltatore._closed (base s)) eqn:E.
    + now rewrite do_close_twice.
    + rewrite do_close_run by assumption. cbn.
      now apply filter_map_none.
Qed.

Lemma listeners_quiet cause (l : list Listener) s :
  List.filter is_start_call
    (Js.calls (Js.for_each (run_listener cause) l s)) = [].
Proof.
  revert s. induction l as [|x l IH]; intros s; [reflexivity|].
  cbn [Js.for_each]. unfold Js.bind.
  pose proof (run_listener_quiet cause x s) as H1.
  destruct (run_listener cause x s) as [[[u|err] s1] l1].
  - pose proof (IH s1) as H2.
    destruct (Js.for_each (run_listener cause) l s1) as [[r s2] l2].
    cbn [Js.calls snd] in *. now rewrite List.filter_app, H1, H2.
  - exact H1.
Qed.

Lemma on_event_start s ev r s' l :
  on_event ev s = (r, s', l) ->
  firstn (start_calls_made (stage s)) start_calls
    ++ List.filter is_start_call l
  = firstn (start_calls_made (stage s')) start_calls.
Proof.
  unfold on_event. unfold Js.bind at 1. cbn [Js.get].
  destruct ev.
  1-5: destruct s as [b c e q a cnt ls []]; js_unfold; js_cbn;
       try (intros [= <- <- <-]; reflexivity);
       destruct q as [[]|]; intros [= <- <- <-]; reflexivity.
  - pose proof (listeners_quiet (Some cause) (listeners_for "error" s) s) as Hq.
    pose proof (listeners_keep_wiring (Some cause) (listeners_for "error" s) s)
      as (_ & _ & _ & _ & _ & Hst & _).
    intros H.
    assert (E : Js.for_each (run_listener (Some cause))
                  (listeners_for "error" s) s = (r, s', l))
      by (destruct (stage s);
          destruct (Js.for_each _ _ s) as [[r0 s0] l0]; exact H).
    rewrite E in Hq, Hst. cbn [Js.calls Js.state fst snd] in *.
    now rewrite Hq, Hst, app_nil_r.
  - pose proof (listeners_quiet None (listeners_for "close" s) s) as Hq.
    pose proof (listeners_keep_wiring None (listeners_for "close" s) s)
      as (_ & _ & _ & _ & _ & Hst & _).
    intros H.
    assert (E : Js.for_each (run_listener None)
                  (listeners_for "close" s) s = (r, s', l))
      by (destruct (stage s);
          destruct (Js.for_each _ _ s) as [[r0 s0] l0]; exact H).
    rewrite E in Hq, Hst. cbn [Js.calls Js.state fst snd] in *.
    now rewrite Hq, Hst, app_nil_r.
  - destruct s as [b c e q a cnt ls st]. js_unfold. js_cbn.
    destruct st; destruct q; intros [= <- <- <-]; reflexivity.
Qed.

Lemma step_start o s :
  firstn (start_calls_made (stage s)) start_calls
    ++ List.filter is_start_call (Js.calls (step rt o s))
  = firstn (start_calls_made (stage (Js.state (step rt o s)))) start_calls.
Proof.
  destruct o; cbn [step].
  - rewrite subscribe_quiet, app_nil_r.
    now destruct (subscribe_keeps_wiring s topic callback done)
      as (_ & _ & _ & _ & _ & -> & _).
  - rewrite unsubscribe_quiet, app_nil_r.
    now destruct (unsubscribe_keeps_wiring s topic callback done)
      as (_ & _ & _ & _ & _ & -> & _).
  - rewrite publish_quiet, app_nil_r.
    now destruct (publish_keeps_wiring rt s topic message done)
      as (_ & _ & _ & _ & _ & -> & _).
  - destruct (close_quiet s done) as [-> ->]. now rewrite app_nil_r.
  - destruct (on_event e s) as [[r s1] l1] eqn:E.
    exact (on_event_start s e r s1 l1 E).
Qed.

Lemma run_start ops s :
  firstn (start_calls_made (stage s)) start_calls
    ++ List.filter is_start_call (all_calls (run rt ops s).2)
  = firstn (start_calls_made (stage (run rt ops s).1)) start_calls.
Proof.
  revert s. induction ops as [|o ops IH]; intros s.
  - cbn. now rewrite app_nil_r.
  - cbn [run]. pose proof (step_start o s) as H1.
    destruct (step rt o s) as [[r s1] l1]. cbn [Js.calls Js.state fst snd] in H1.
    pose proof (IH s1) as H2.
    destruct (run rt ops s1) as [s2 rest]. cbn [fst snd] in *.
    unfold all_calls in *. cbn [map concat snd].
    now rewrite List.filter_app, app_assoc, H1, H2.
Qed.

End AMQPStart.

(** X19: whatever operations and notifications an AMQP instance has seen
    since its construction, the calls of its start sequence (declaring the
    exchange, declaring the queue, consuming from it, deferring, emitting
    ["ready"]) appear in its history in that order and each at most once:
    they are exactly the part of the sequence that lies before the step it
    waits at. *)
Theorem amqp_start_sequence_runs_once
    (rt : Js.Runtime) (opts : Topic.Syntax) (ops : list AMQPAscoltatore.Op) :
  let r := AMQPAscoltatore.run rt ops (AMQPAscoltatore.new opts) in
  List.filter AMQPAscoltatore.is_start_call (AMQPAscoltatore.all_calls r.2)
  = firstn (AMQPAscoltatore.start_calls_made (AMQPAscoltatore.stage r.1))
      AMQPAscoltatore.start_calls.
Proof.
  intros r. subst r.
  exact (run_start rt ops (AMQPAscoltatore.new opts)).
Qed.

(** * Connection errors and readiness *)

(** ** AMQP: connection errors *)

Section AMQPErrors.

Import AMQPAscoltatore.

Variable rt : Js.Runtime.













End AMQPErrors.




(** ** Operations and readiness *)

Section BeforeReady.

Import AMQPAscoltatore.

Variable rt : Js.Runtime.





End BeforeReady.


